(** * canscan: the device registry, the network-device form and the AI facade

    A shallow embedding of
      - src/models/device.model.ts      (the data model),
      - src/services/device.service.ts  (DeviceService),
      - the AppComponent's device form  (confirmSaveDevice),
      - the Gemini service              (GeminiService),
    followed by the properties of the specification that concern them.

    Conventions.  A JavaScript string is a [string]; its code units are the
    8-bit characters of [ascii].  A JavaScript number that the code only ever
    produces by [parseInt] is a [number]: [NaN] or an integer.  A promise
    that has settled is a [completion]: [Returned] for a fulfilled promise or
    a normal return, [Threw] for a rejection or an exception, carrying the
    [message] of the error. *)

From Stdlib Require Import List String Ascii Bool Arith ZArith NArith Lia.
From Stdlib Require Import DecimalString DecimalPos DecimalN.
Import ListNotations.
Local Open Scope list_scope.
Local Open Scope string_scope.
Local Open Scope nat_scope.

(* ------------------------------------------------------------------------- *)
(** * The parts of the JavaScript library the sources use *)
(* ------------------------------------------------------------------------- *)

Module Js.

(** `${n}` for a non-negative integer. *)
Definition string_of_N (n : N) : string := NilZero.string_of_uint (N.to_uint n).

(** [s.includes(needle)] *)
Fixpoint includes (needle s : string) : bool :=
  if String.prefix needle s then true
  else match s with
       | EmptyString => false
       | String _ s' => includes needle s'
       end.

(** [toLowerCase] on one code unit: A-Z, and the upper-case letters of
    Latin-1 (0xC0-0xDE without the multiplication sign 0xD7). *)
Definition lower_char (c : ascii) : ascii :=
  let n := nat_of_ascii c in
  if ((65 <=? n) && (n <=? 90)) || ((192 <=? n) && (n <=? 222) && negb (n =? 215))
  then ascii_of_nat (n + 32) else c.

Fixpoint toLowerCase (s : string) : string :=
  match s with
  | EmptyString => EmptyString
  | String c s' => String (lower_char c) (toLowerCase s')
  end.

(** White space and line terminators among the code units below 256: TAB, LF,
    VT, FF, CR, SPACE and NBSP. *)
Definition is_space (c : ascii) : bool :=
  let n := nat_of_ascii c in
  ((9 <=? n) && (n <=? 13)) || (n =? 32) || (n =? 160).

Fixpoint trimStart (s : string) : string :=
  match s with
  | String c s' => if is_space c then trimStart s' else s
  | EmptyString => EmptyString
  end.

(** [trimEnd]: a character is kept when something that is not white space
    follows it or it is not white space itself. *)
Fixpoint trimEnd (s : string) : string :=
  match s with
  | EmptyString => EmptyString
  | String c s' =>
      match trimEnd s' with
      | EmptyString => if is_space c then EmptyString else String c EmptyString
      | rest => String c rest
      end
  end.

(** [s.trim()] *)
Definition trim (s : string) : string := trimEnd (trimStart s).

Definition is_digit (c : ascii) : bool :=
  let n := nat_of_ascii c in (48 <=? n) && (n <=? 57).

Definition digit_value (c : ascii) : Z := Z.of_nat (nat_of_ascii c - 48).

(** A number as [parseInt] produces it. *)
Inductive number : Type :=
| NaN
| Int (z : Z).

(** The digits at the front of [s], read in base ten onto [acc]; [seen]
    records that at least one digit was read. *)
Fixpoint parse_digits (acc : Z) (seen : bool) (s : string) : option Z :=
  match s with
  | String c s' =>
      if is_digit c then parse_digits (10 * acc + digit_value c) true s'
      else if seen then Some acc else None
  | EmptyString => if seen then Some acc else None
  end.

(** [parseInt(s, 10)]: leading white space is skipped, one sign is read, then
    the longest run of decimal digits; what follows is ignored, and no digit
    at all gives NaN. *)
Definition parseInt (s : string) : number :=
  match trimStart s with
  | String "-" s' =>
      match parse_digits 0 false s' with Some z => Int (- z) | None => NaN end
  | String "+" s' =>
      match parse_digits 0 false s' with Some z => Int z | None => NaN end
  | s' =>
      match parse_digits 0 false s' with Some z => Int z | None => NaN end
  end.

Definition isNaN (n : number) : bool :=
  match n with NaN => true | Int _ => false end.

(** [n < k] and [n > k]: every comparison with NaN is false. *)
Definition lt (n : number) (k : Z) : bool :=
  match n with NaN => false | Int z => (z <? k)%Z end.

Definition gt (n : number) (k : Z) : bool :=
  match n with NaN => false | Int z => (k <? z)%Z end.

(** [n === k] *)
Definition strict_eq (n : number) (k : Z) : bool :=
  match n with NaN => false | Int z => (z =? k)%Z end.

(** [!s] for a string: only the empty string is falsy. *)
Definition is_empty (s : string) : bool :=
  match s with EmptyString => true | _ => false end.

(** [s || d] for an optional string: [undefined] and the empty string fall
    back to [d]. *)
Definition or_else (s : option string) (d : string) : string :=
  match s with
  | Some (String c r) => String c r
  | _ => d
  end.

(** [s.replace(/\./g, '-')] *)
Fixpoint replace_dots (s : string) : string :=
  match s with
  | EmptyString => EmptyString
  | String c s' => String (if Ascii.eqb c "." then "-"%char else c) (replace_dots s')
  end.

(** [String(z)] for an integer. *)
Definition string_of_Z (z : Z) : string :=
  match z with
  | Z0 => "0"
  | Zpos p => string_of_N (Npos p)
  | Zneg p => "-" ++ string_of_N (Npos p)
  end.

(** [String(n)] *)
Definition string_of_number (n : number) : string :=
  match n with
  | NaN => "NaN"
  | Int z => string_of_Z z
  end.

(** [!n] for a number: NaN and zero are falsy. *)
Definition is_falsy (n : number) : bool :=
  match n with
  | NaN => true
  | Int z => (z =? 0)%Z
  end.

(** [l.join(sep)] *)
Fixpoint join (sep : string) (l : list string) : string :=
  match l with
  | [] => ""
  | x :: rest =>
      match rest with
      | [] => x
      | _ => x ++ sep ++ join sep rest
      end
  end.

(** The double quote and the line feed. *)
Definition quote : ascii := "034"%char.

Definition newline : ascii := "010"%char.

(** [s.replace] of the export: every double quote is doubled. *)
Fixpoint double_quotes (s : string) : string :=
  match s with
  | EmptyString => EmptyString
  | String c s' =>
      if Ascii.eqb c quote then String quote (String quote (double_quotes s'))
      else String c (double_quotes s')
  end.

(** How a call ends: a normal return (a fulfilled promise) or an exception
    (a rejected promise) with the [message] of the error. *)
Inductive completion (A : Type) : Type :=
| Returned (a : A)
| Threw (message : string).
Arguments Returned {A} a.
Arguments Threw {A} message.

End Js.

(* ------------------------------------------------------------------------- *)
(** * Regular expressions, as far as the form validation needs them *)
(* ------------------------------------------------------------------------- *)

Module Regex.

Inductive regex : Type :=
| Void                              (* matches nothing *)
| Eps                               (* the empty string *)
| Chr (c : ascii)                   (* one literal character *)
| Range (lo hi : ascii)             (* a class [lo-hi] *)
| Cat (r s : regex)
| Alt (r s : regex).

Definition in_range (lo hi c : ascii) : bool :=
  (nat_of_ascii lo <=? nat_of_ascii c) && (nat_of_ascii c <=? nat_of_ascii hi).

Fixpoint nullable (r : regex) : bool :=
  match r with
  | Void => false
  | Eps => true
  | Chr _ => false
  | Range _ _ => false
  | Cat r s => nullable r && nullable s
  | Alt r s => nullable r || nullable s
  end.

(** The derivative of [r] by the character [c]. *)
Fixpoint deriv (c : ascii) (r : regex) : regex :=
  match r with
  | Void => Void
  | Eps => Void
  | Chr d => if Ascii.eqb c d then Eps else Void
  | Range lo hi => if in_range lo hi c then Eps else Void
  | Cat r s =>
      if nullable r then Alt (Cat (deriv c r) s) (deriv c s)
      else Cat (deriv c r) s
  | Alt r s => Alt (deriv c r) (deriv c s)
  end.

(** [/^r$/.test(s)]: the whole of [s] matches [r]. *)
Fixpoint test (r : regex) (s : string) : bool :=
  match s with
  | EmptyString => nullable r
  | String c s' => test (deriv c r) s'
  end.

(** [r{n}] *)
Fixpoint times (n : nat) (r : regex) : regex :=
  match n with
  | O => Eps
  | S n' => Cat r (times n' r)
  end.

(** [r{0,n}] *)
Fixpoint upto (n : nat) (r : regex) : regex :=
  match n with
  | O => Eps
  | S n' => Alt (Cat r (upto n' r)) Eps
  end.

(** [r{lo,hi}] *)
Definition between (lo hi : nat) (r : regex) : regex :=
  Cat (times lo r) (upto (hi - lo) r).

(** The strings a regular expression denotes. *)
Inductive lang : regex -> string -> Prop :=
| lang_eps : lang Eps ""
| lang_chr c : lang (Chr c) (String c "")
| lang_range lo hi c : in_range lo hi c = true -> lang (Range lo hi) (String c "")
| lang_cat r s u v : lang r u -> lang s v -> lang (Cat r s) (u ++ v)
| lang_alt_l r s u : lang r u -> lang (Alt r s) u
| lang_alt_r r s u : lang s u -> lang (Alt r s) u.

End Regex.

(* ------------------------------------------------------------------------- *)
(** * src/models/device.model.ts *)
(* ------------------------------------------------------------------------- *)

Module Model.

Inductive DeviceStatus : Type := Connected | Ready | Offline | Error.

(** ['Printer' | 'Scanner' | '3-in-1'] *)
Inductive DeviceType : Type := Printer | Scanner | ThreeInOne.

Inductive ConnectionType : Type := USB | Network.

Record USBAlternateInterface : Type :=
  { interfaceClass : N }.

Record USBInterface : Type :=
  { interfaceNumber : N;
    alternates : list USBAlternateInterface }.

Record USBConfiguration : Type :=
  { configurationValue : N;
    interfaces : list USBInterface }.

(** The fields of a WebUSB device object.  The object itself belongs to the
    browser: the registry holds a reference to it, a [handle], and reads the
    fields through the USB host (see [UsbHost] below). *)
Record USBDevice : Type :=
  { vendorId : N;
    productId : N;
    manufacturerName : option string;
    productName : option string;
    serialNumber : option string;
    opened : bool;
    configuration : option USBConfiguration;
    configurations : list USBConfiguration }.

Definition handle : Type := nat.

Record Device : Type :=
  { id : string;
    name : string;
    manufacturer : string;
    type : DeviceType;
    status : DeviceStatus;
    connectionType : ConnectionType;
    ipAddress : option string;
    port : option Js.number;
    profile : option string;
    rawDevice : option handle }.

(** [{ ...d, status: s }] *)
Definition with_status (d : Device) (s : DeviceStatus) : Device :=
  {| id := id d; name := name d; manufacturer := manufacturer d;
     type := type d; status := s; connectionType := connectionType d;
     ipAddress := ipAddress d; port := port d; profile := profile d;
     rawDevice := rawDevice d |}.

(** How a promise of the USB host settles. *)
Inductive outcome : Type :=
| Fulfilled
| Rejected (message : string).

(** The browser's USB subsystem, [navigator.usb] and the device objects it
    hands out: a state [bus], the fields of each device object in that state,
    and the asynchronous methods, each giving the way its promise settles and
    the next state.  Nothing is assumed about it. *)
Record UsbHost : Type :=
  { bus : Type;
    look : bus -> handle -> USBDevice;
    host_open : handle -> bus -> outcome * bus;
    host_close : handle -> bus -> outcome * bus;
    host_selectConfiguration : handle -> N -> bus -> outcome * bus;
    host_releaseInterface : handle -> N -> bus -> outcome * bus;
    host_getDevices : bus -> list handle }.

(** The calls made on device objects, in the order they were made. *)
Inductive UsbCall : Type :=
| CallOpen (h : handle)
| CallSelectConfiguration (h : handle) (configurationValue : N)
| CallReleaseInterface (h : handle) (interfaceNumber : N)
| CallClose (h : handle).

End Model.

(* ------------------------------------------------------------------------- *)
(** * src/services/device.service.ts *)
(* ------------------------------------------------------------------------- *)

Module DeviceService.
Import Js Model.

Record NetworkDevicePayload : Type :=
  { ip : string;
    port : Js.number;
    name : string;
    profile : string }.

(** [createDeviceId] *)
Definition createDeviceId (usbDevice : USBDevice) : string :=
  "usb-" ++ Js.string_of_N (vendorId usbDevice) ++ "-" ++
  Js.string_of_N (productId usbDevice) ++ "-" ++
  Js.or_else (serialNumber usbDevice) "0".

(** [createNetworkDeviceId] *)
Definition createNetworkDeviceId (ip : string) : string :=
  "net-" ++ Js.replace_dots ip.

(** [iface.alternates[0]?.interfaceClass === 7] *)
Definition is_printer_interface (iface : USBInterface) : bool :=
  match alternates iface with
  | a :: _ => (interfaceClass a =? 7)%N
  | [] => false
  end.

(** [inferDeviceType] *)
Definition inferDeviceType (usbDevice : USBDevice) : DeviceType :=
  let name := Js.toLowerCase (Js.or_else (productName usbDevice) "") in
  let isPrinter := Js.includes "printer" name || Js.includes "laserjet" name
                   || Js.includes "officejet" name || Js.includes "deskjet" name in
  let isScanner := Js.includes "scan" name || Js.includes "scanner" name
                   || Js.includes "lide" name in
  if (isPrinter && isScanner) || Js.includes "3-in-1" name
     || Js.includes "all-in-one" name then ThreeInOne
  else if isPrinter then Printer
  else if isScanner then Scanner
  else if existsb (fun config => existsb is_printer_interface (interfaces config))
                  (configurations usbDevice) then Printer
  else Scanner.

(** [mapUSBDeviceToDevice]; [raw] is the reference to the device object and
    [usbDevice] its fields. *)
Definition mapUSBDeviceToDevice (raw : handle) (usbDevice : USBDevice) : Device :=
  {| id := createDeviceId usbDevice;
     Model.name := Js.or_else (productName usbDevice) "Unknown USB Device";
     manufacturer := Js.or_else (manufacturerName usbDevice) "Unknown Manufacturer";
     type := inferDeviceType usbDevice;
     status := if opened usbDevice then Connected else Ready;
     connectionType := USB;
     ipAddress := None; Model.port := None; Model.profile := None;
     rawDevice := Some raw |}.

(** The device [addNetworkDevice] builds from a payload. *)
Definition newNetworkDevice (payload : NetworkDevicePayload) : Device :=
  {| id := createNetworkDeviceId (ip payload);
     Model.name := name payload;
     manufacturer := "Manual Entry";
     type := if Js.strict_eq (port payload) 9100 then Printer else Scanner;
     status := Ready;
     connectionType := Network;
     ipAddress := Some (ip payload);
     Model.port := Some (port payload);
     Model.profile := Some (profile payload);
     rawDevice := None |}.

(** The replacement [editNetworkDevice] builds for an entry:
    [{ ...d, id, name, ipAddress, port, profile }]. *)
Definition editedDevice (d : Device) (payload : NetworkDevicePayload) : Device :=
  {| id := createNetworkDeviceId (ip payload);
     Model.name := name payload;
     manufacturer := manufacturer d;
     type := type d;
     status := status d;
     connectionType := connectionType d;
     ipAddress := Some (ip payload);
     Model.port := Some (port payload);
     Model.profile := Some (profile payload);
     rawDevice := rawDevice d |}.

(** [d.id === deviceId] *)
Definition has_id (deviceId : string) (d : Device) : bool :=
  String.eqb (id d) deviceId.

(** [d.ipAddress === ip]; an entry without address never matches. *)
Definition has_address (ip : string) (d : Device) : bool :=
  match ipAddress d with
  | Some a => String.eqb a ip
  | None => false
  end.

(** [list.map(d => d.id === deviceId ? { ...d, status: s } : d)] *)
Definition mark (deviceId : string) (s : DeviceStatus) (current : list Device) : list Device :=
  map (fun d => if has_id deviceId d then with_status d s else d) current.

Section Service.

Context (H : UsbHost).

(** The service and what it acts on.
    - [devices]: the value of the signal [devices];
    - [history]: every value written to the signal, oldest first: an observer
      of the signal sees values of this list and no others;
    - [timers]: the callbacks [addNetworkDevice] has passed to [setTimeout]
      and that have not run yet, oldest first (all have the same delay, so
      they run in this order); a callback is given by its payload;
    - [console]: the lines written to the console;
    - [calls]: the calls made on USB device objects;
    - [usb]: the state of the USB host. *)
Record World : Type :=
  { devices : list Device;
    history : list (list Device);
    timers : list NetworkDevicePayload;
    console : list string;
    calls : list UsbCall;
    usb : bus H }.

(** The service as constructed, before any device is known. *)
Definition initial (b : bus H) : World :=
  {| devices := []; history := []; timers := []; console := []; calls := [];
     usb := b |}.

(** Code of the service: it runs on a world and ends with a [completion]. *)
Definition M (A : Type) : Type := World -> completion A * World.

Definition ret {A} (a : A) : M A := fun w => (Returned a, w).

Definition throw {A} (message : string) : M A := fun w => (Threw message, w).

Definition bind {A B} (m : M A) (k : A -> M B) : M B :=
  fun w =>
    match m w with
    | (Returned a, w') => k a w'
    | (Threw e, w') => (Threw e, w')
    end.

(** [try { body } catch (e) { handler(e.message) }]: what [body] did before it
    threw stays done. *)
Definition try_catch {A} (body : M A) (handler : string -> M A) : M A :=
  fun w =>
    match body w with
    | (Returned a, w') => (Returned a, w')
    | (Threw e, w') => handler e w'
    end.

Notation "x <- m ;; k" := (bind m (fun x => k))
  (at level 61, m at next level, right associativity).
Notation "m ;; k" := (bind m (fun _ => k))
  (at level 61, right associativity).

(** [this.devices()] *)
Definition get_devices : M (list Device) := fun w => (Returned (devices w), w).

(** [this.devices.set(ds)] *)
Definition set_devices (ds : list Device) : M unit :=
  fun w =>
    (Returned tt,
     {| devices := ds; history := history w ++ [ds]; timers := timers w;
        console := console w; calls := calls w; usb := usb w |}).

(** [this.devices.update(f)] *)
Definition update_devices (f : list Device -> list Device) : M unit :=
  current <- get_devices ;; set_devices (f current).

(** [console.log(line)] and [console.error(label, e)] *)
Definition console_log (line : string) : M unit :=
  fun w =>
    (Returned tt,
     {| devices := devices w; history := history w; timers := timers w;
        console := console w ++ [line]; calls := calls w; usb := usb w |}).

Definition console_error (label e : string) : M unit :=
  console_log (label ++ " " ++ e).

(** [setTimeout(callback, 1000)], the callback being the one of
    [addNetworkDevice] for [payload]. *)
Definition setTimeout (payload : NetworkDevicePayload) : M unit :=
  fun w =>
    (Returned tt,
     {| devices := devices w; history := history w;
        timers := timers w ++ [payload];
        console := console w; calls := calls w; usb := usb w |}).

(** The fields of the device object behind [raw], as they are now. *)
Definition read (raw : handle) : M USBDevice :=
  fun w => (Returned (look H (usb w) raw), w).

(** [await] of a method of a device object: the call is recorded, the host
    moves on, and a rejection is thrown with its message. *)
Definition await (call : UsbCall) (method : bus H -> outcome * bus H) : M unit :=
  fun w =>
    let (o, b) := method (usb w) in
    let w' := {| devices := devices w; history := history w; timers := timers w;
                 console := console w; calls := calls w ++ [call]; usb := b |} in
    match o with
    | Fulfilled => (Returned tt, w')
    | Rejected e => (Threw e, w')
    end.

Definition open (raw : handle) : M unit :=
  await (CallOpen raw) (host_open H raw).

Definition close (raw : handle) : M unit :=
  await (CallClose raw) (host_close H raw).

Definition selectConfiguration (raw : handle) (v : N) : M unit :=
  await (CallSelectConfiguration raw v) (host_selectConfiguration H raw v).

Definition releaseInterface (raw : handle) (n : N) : M unit :=
  await (CallReleaseInterface raw n) (host_releaseInterface H raw n).

(** The constructor, [ngOnDestroy] and the two scans are not part of the
    model: they register and remove the two handlers below,
    [scanForUsbDevices] passes the device the user picked to [handleConnect],
    and [scanForNetworkDevices] waits and changes nothing. *)

(** [handleConnect]; [raw] is [event.device]. *)
Definition handleConnect (raw : handle) : M unit :=
  usbDevice <- read raw ;;
  let newDevice := mapUSBDeviceToDevice raw usbDevice in
  update_devices (fun currentDevices =>
    if negb (existsb (has_id (id newDevice)) currentDevices)
    then (currentDevices ++ [newDevice])%list
    else currentDevices).

(** [handleDisconnect] *)
Definition handleDisconnect (raw : handle) : M unit :=
  usbDevice <- read raw ;;
  let disconnectedId := createDeviceId usbDevice in
  update_devices (filter (fun d => negb (has_id disconnectedId d))).

(** [loadPreviouslyPermittedDevices], where [navigator.usb] exists. *)
Definition loadPreviouslyPermittedDevices : M unit :=
  fun w =>
    let permittedDevices := host_getDevices H (usb w) in
    let usbDevices :=
      map (fun raw => mapUSBDeviceToDevice raw (look H (usb w) raw)) permittedDevices in
    update_devices (fun current => (current ++ usbDevices)%list) w.

(** [addNetworkDevice], the part that runs when it is called: the promise is
    rejected at once when the address is taken, otherwise the insertion is
    left to a timer and the promise stays pending until the timer runs. *)
Definition addNetworkDevice (payload : NetworkDevicePayload) : M unit :=
  current <- get_devices ;;
  match find (has_address (ip payload)) current with
  | Some existing => throw "Device with this IP address already exists."
  | None => setTimeout payload
  end.

(** [addNetworkDevice], the callback given to [setTimeout]: it inserts the new
    device and fulfils the promise with it. *)
Definition addNetworkDevice_timeout (payload : NetworkDevicePayload) : M Device :=
  let newDevice := newNetworkDevice payload in
  update_devices (fun d => (d ++ [newDevice])%list) ;;
  ret newDevice.

(** The oldest pending timer runs. *)
Definition run_timer (w : World) : option (Device * World) :=
  match timers w with
  | [] => None
  | payload :: rest =>
      match addNetworkDevice_timeout payload
              {| devices := devices w; history := history w; timers := rest;
                 console := console w; calls := calls w; usb := usb w |} with
      | (Returned d, w') => Some (d, w')
      | (Threw _, _) => None
      end
  end.

(** All pending timers run, oldest first; [n] bounds their number. *)
Fixpoint run_timers_upto (n : nat) (w : World) : World :=
  match n with
  | O => w
  | S n' =>
      match run_timer w with
      | Some (_, w') => run_timers_upto n' w'
      | None => w
      end
  end.

Definition run_timers (w : World) : World :=
  run_timers_upto (List.length (timers w)) w.

(** [await this.addNetworkDevice(payload)]: a rejection is thrown at once;
    otherwise the caller resumes when the timer of the call has run, with the
    device it inserted. *)
Definition await_addNetworkDevice (payload : NetworkDevicePayload) : M Device :=
  fun w =>
    match addNetworkDevice payload w with
    | (Returned _, w') => (Returned (newNetworkDevice payload), run_timers w')
    | (Threw e, w') => (Threw e, w')
    end.

(** [editNetworkDevice]; the executor of its promise runs at the call and
    settles it. *)
Definition editNetworkDevice (deviceId : string) (payload : NetworkDevicePayload) : M unit :=
  currentDevices <- get_devices ;;
  match find (fun d => has_address (ip payload) d && negb (has_id deviceId d))
             currentDevices with
  | Some existingIpDevice => throw "Another device with this IP address already exists."
  | None =>
      let updatedDevices :=
        map (fun d => if has_id deviceId d then editedDevice d payload else d)
            currentDevices in
      set_devices updatedDevices
  end.

(** [connectDevice].  The awaited calls on the device object are answered by
    the host; no other handler of the service runs in between. *)
Definition connectDevice (deviceId : string) : M unit :=
  current <- get_devices ;;
  match find (has_id deviceId) current with
  | None => throw "Device not found."
  | Some device =>
      match connectionType device, rawDevice device with
      | USB, Some raw =>
          try_catch
            (open raw ;;
             usbDevice <- read raw ;;
             match configuration usbDevice, configurations usbDevice with
             | None, first :: _ => selectConfiguration raw (configurationValue first)
             | _, _ => ret tt
             end ;;
             update_devices (mark deviceId Connected))
            (fun e =>
             update_devices (mark deviceId Error) ;;
             console_error "Failed to connect to device:" e ;;
             throw ("Connection failed: " ++ e ++
                    ". The device might be in use by another application."))
      | _, _ => console_log "Connect action is only for USB devices."
      end
  end.

(** [disconnectDevice] *)
Definition disconnectDevice (deviceId : string) : M unit :=
  current <- get_devices ;;
  match find (has_id deviceId) current with
  | None => ret tt
  | Some device =>
      match connectionType device, rawDevice device with
      | USB, Some raw =>
          usbDevice <- read raw ;;
          if negb (opened usbDevice) then ret tt
          else
            try_catch
              (match configuration usbDevice with
               | Some active =>
                   match interfaces active with
                   | first :: _ => releaseInterface raw (interfaceNumber first)
                   | [] => ret tt
                   end
               | None => ret tt
               end ;;
               close raw ;;
               update_devices (mark deviceId Ready))
              (fun e =>
               update_devices (mark deviceId Error) ;;
               console_error "Failed to disconnect device:" e ;;
               throw "Failed to disconnect cleanly.")
      | _, _ => ret tt
      end
  end.

End Service.

Arguments devices {H} w.
Arguments history {H} w.
Arguments timers {H} w.
Arguments console {H} w.
Arguments calls {H} w.
Arguments usb {H} w.
Arguments ret {H A} a.
Arguments throw {H A} message.
Arguments bind {H A B} m k.
Arguments try_catch {H A} body handler.

End DeviceService.

(* ------------------------------------------------------------------------- *)
(** * The AppComponent: the add/edit form of network devices *)
(* ------------------------------------------------------------------------- *)

Module AppComponent.
Import Js Model DeviceService Regex.

(** [/^(?:[0-9]{1,3}\.){3}[0-9]{1,3}$/] *)
Definition digit : regex := Range "0" "9".

Definition ip_pattern : regex :=
  Cat (times 3 (Cat (between 1 3 digit) (Chr "."))) (between 1 3 digit).

Section Component.

Context (H : UsbHost).

(** The signals of the component that the form uses, and the service. *)
Record App : Type :=
  { isDeviceModalOpen : bool;
    editingDevice : option Device;
    addByIpName : string;
    addByIpAddress : string;
    addByIpPort : string;
    addByIpProfile : string;
    addByIpError : string;
    isSavingDevice : bool;
    deviceService : World H }.

Definition set_addByIpError (app : App) (e : string) : App :=
  {| isDeviceModalOpen := isDeviceModalOpen app; editingDevice := editingDevice app;
     addByIpName := addByIpName app; addByIpAddress := addByIpAddress app;
     addByIpPort := addByIpPort app; addByIpProfile := addByIpProfile app;
     addByIpError := e; isSavingDevice := isSavingDevice app;
     deviceService := deviceService app |}.

Definition set_isSavingDevice (app : App) (b : bool) : App :=
  {| isDeviceModalOpen := isDeviceModalOpen app; editingDevice := editingDevice app;
     addByIpName := addByIpName app; addByIpAddress := addByIpAddress app;
     addByIpPort := addByIpPort app; addByIpProfile := addByIpProfile app;
     addByIpError := addByIpError app; isSavingDevice := b;
     deviceService := deviceService app |}.

Definition set_deviceService (app : App) (w : World H) : App :=
  {| isDeviceModalOpen := isDeviceModalOpen app; editingDevice := editingDevice app;
     addByIpName := addByIpName app; addByIpAddress := addByIpAddress app;
     addByIpPort := addByIpPort app; addByIpProfile := addByIpProfile app;
     addByIpError := addByIpError app; isSavingDevice := isSavingDevice app;
     deviceService := w |}.

(** [closeDeviceModal] *)
Definition closeDeviceModal (app : App) : App :=
  {| isDeviceModalOpen := false; editingDevice := None;
     addByIpName := addByIpName app; addByIpAddress := addByIpAddress app;
     addByIpPort := addByIpPort app; addByIpProfile := addByIpProfile app;
     addByIpError := addByIpError app; isSavingDevice := isSavingDevice app;
     deviceService := deviceService app |}.

(** The payload [confirmSaveDevice] reads from the form. *)
Definition form_payload (app : App) : NetworkDevicePayload :=
  {| DeviceService.name := trim (addByIpName app);
     ip := trim (addByIpAddress app);
     DeviceService.port := parseInt (trim (addByIpPort app));
     DeviceService.profile := trim (addByIpProfile app) |}.

(** The call of the service that [confirmSaveDevice] awaits. *)
Definition save (deviceToEdit : option Device) (payload : NetworkDevicePayload)
  : M H unit :=
  match deviceToEdit with
  | Some d => editNetworkDevice H (id d) payload
  | None => bind (await_addNetworkDevice H payload) (fun _ => ret tt)
  end.

(** [confirmSaveDevice] *)
Definition confirmSaveDevice (app : App) : App :=
  let app := set_addByIpError app "" in
  let payload := form_payload app in
  if is_empty (DeviceService.name payload) then
    set_addByIpError app "Device Name is required."
  else if negb (test ip_pattern (ip payload)) then
    set_addByIpError app "Please enter a valid IP address."
  else if isNaN (DeviceService.port payload) || lt (DeviceService.port payload) 1
          || gt (DeviceService.port payload) 65535 then
    set_addByIpError app "Please enter a valid port number (1-65535)."
  else if is_empty (DeviceService.profile payload) then
    set_addByIpError app "Profile Name is required."
  else
    let app := set_isSavingDevice app true in
    let (r, w) := save (editingDevice app) payload (deviceService app) in
    let app := set_deviceService app w in
    let app := match r with
               | Returned _ => closeDeviceModal app
               | Threw e => set_addByIpError app e
               end in
    set_isSavingDevice app false.

(** [openDeviceModal]: edit mode on a network device, add mode otherwise. *)
Definition openDeviceModal (device : option Device) (app : App) : App :=
  let add_mode :=
    {| isDeviceModalOpen := true; editingDevice := None;
       addByIpName := "HP LaserJet Pro"; addByIpAddress := "192.168.1.150";
       addByIpPort := "9100"; addByIpProfile := "Office Printer";
       addByIpError := ""; isSavingDevice := false;
       deviceService := deviceService app |} in
  match device with
  | Some d =>
      match connectionType d with
      | Network =>
          {| isDeviceModalOpen := true; editingDevice := Some d;
             addByIpName := Model.name d;
             addByIpAddress := or_else (ipAddress d) "";
             addByIpPort :=
               match Model.port d with
               | Some n => if is_falsy n then "" else string_of_number n
               | None => ""
               end;
             addByIpProfile := or_else (Model.profile d) "";
             addByIpError := ""; isSavingDevice := false;
             deviceService := deviceService app |}
      | USB => add_mode
      end
  | None => add_mode
  end.

End Component.

Arguments isDeviceModalOpen {H} a.
Arguments editingDevice {H} a.
Arguments addByIpName {H} a.
Arguments addByIpAddress {H} a.
Arguments addByIpPort {H} a.
Arguments addByIpProfile {H} a.
Arguments addByIpError {H} a.
Arguments isSavingDevice {H} a.
Arguments deviceService {H} a.

End AppComponent.

(* ------------------------------------------------------------------------- *)
(** * The Gemini service *)
(* ------------------------------------------------------------------------- *)

Module GeminiService.
Import Js.

Record Step : Type :=
  { title : string;
    details : list string }.

Record TroubleshootingResponse : Type :=
  { steps : list Step }.

(** A parsed document: its keys and values. *)
Definition ExtractedDocumentData : Type := list (string * string).

Inductive Part : Type :=
| InlineData (mimeType data : string)
| Text (text : string).

Inductive Schema : Type :=
| StepsSchema          (* { steps: [{ title, details: [string] }] } *)
| DocumentSchema.      (* the nine fields of the form *)

(** The argument of [genAI.models.generateContent]. *)
Record Request : Type :=
  { model : string;
    contents : list Part;
    responseSchema : option Schema }.

Section Service.

(** [process.env.API_KEY] *)
Context (API_KEY : option string).

(** The generative-AI backend and the library functions around it:
    [generateContent] gives [response.text] or fails; [JSON.parse] at the two
    types it is used at; [base64Image.match] with the pattern of a data URL of
    an image, giving the media type and the base64 text. *)
Context (generateContent : Request -> completion string).
Context (parse_steps : string -> completion TroubleshootingResponse).
Context (parse_document : string -> completion ExtractedDocumentData).
Context (match_data_url : string -> option (string * string)).

(** [!process.env.API_KEY] *)
Definition no_key : bool :=
  match API_KEY with
  | Some (String _ _) => false
  | _ => true
  end.

Definition troubleshooting_prompt (deviceName issue : string) : string :=
  "You are a helpful IT support assistant. 
      A non-technical user is having an issue with their device.
      Device: " ++ deviceName ++ "
      Issue: " ++ issue ++ "
      Provide a simple list of step-by-step troubleshooting instructions. Each step should have a title and an array of detailed sub-steps.".

(** [getTroubleshootingSteps] *)
Definition getTroubleshootingSteps (deviceName issue : string)
  : completion TroubleshootingResponse :=
  if no_key then
    Returned
      {| steps :=
           [ {| title := "API Key Not Configured";
                details := ["Please set the API_KEY environment variable to use the AI Troubleshooter."] |} ] |}
  else
    let failed :=
      Returned
        {| steps :=
             [ {| title := "Error Fetching Steps";
                  details := ["Could not get troubleshooting steps from the AI assistant. Please check your network connection and try again."] |} ] |} in
    match generateContent
            {| model := "gemini-2.5-flash";
               contents := [Text (troubleshooting_prompt deviceName issue)];
               responseSchema := Some StepsSchema |} with
    | Returned text =>
        match parse_steps text with
        | Returned r => Returned r
        | Threw _ => failed
        end
    | Threw _ => failed
    end.

(** [analyzeImage] *)
Definition analyzeImage (base64Image prompt : string) : completion string :=
  if no_key then
    Returned "Error: API_KEY environment variable not set. Gemini API will not work."
  else
    let caught (errorMessage : string) : completion string :=
      Returned ("Error analyzing image: " ++ errorMessage) in
    match match_data_url base64Image with
    | None => caught "Invalid base64 image string format."
    | Some (mimeType, imageBase64) =>
        match generateContent
                {| model := "gemini-2.5-flash";
                   contents := [InlineData mimeType imageBase64; Text prompt];
                   responseSchema := None |} with
        | Returned text => Returned text
        | Threw e => caught e
        end
    end.

Definition extraction_prompt : string :=
  "You are an expert OCR system for tabular data. Extract all key-value pairs from the provided Persian utility company form. Populate the JSON object according to the schema with the corresponding values. If a value for a field is not present, use an empty string.".

(** [extractStructuredData] *)
Definition extractStructuredData (base64Image : string)
  : completion ExtractedDocumentData :=
  if no_key then
    Threw "API_KEY environment variable not set. Gemini API will not work."
  else
    match match_data_url base64Image with
    | None => Threw "Invalid base64 image string format."
    | Some (mimeType, imageBase64) =>
        let failed : completion ExtractedDocumentData :=
          Threw "Failed to extract data from the document. The AI model could not process the request." in
        match generateContent
                {| model := "gemini-2.5-flash";
                   contents := [InlineData mimeType imageBase64; Text extraction_prompt];
                   responseSchema := Some DocumentSchema |} with
        | Returned text =>
            match parse_document text with
            | Returned r => Returned r
            | Threw _ => failed
            end
        | Threw _ => failed
        end
    end.

End Service.

End GeminiService.

(* ------------------------------------------------------------------------- *)
(** * The AppComponent: selection, connection, scans and extracted data *)
(* ------------------------------------------------------------------------- *)

Module AppView.
Import Js Model DeviceService GeminiService.

Record Scan : Type :=
  { id : string;
    name : string;
    imageUrl : string;   (* a data URL *)
    date : string }.

(** [{ ...s, name: newName }] *)
Definition with_name (s : Scan) (newName : string) : Scan :=
  {| id := id s; name := newName; imageUrl := imageUrl s; date := date s |}.

(** [row[key]] on a parsed document. *)
Definition get_key (key : string) (row : ExtractedDocumentData) : option string :=
  match find (fun kv => String.eqb (fst kv) key) row with
  | Some kv => Some (snd kv)
  | None => None
  end.

(** [{ ...row, [key]: value }]: the value of a key the object has is replaced
    where it stands, a new key comes last. *)
Fixpoint set_key (key value : string) (row : ExtractedDocumentData)
  : ExtractedDocumentData :=
  match row with
  | [] => [(key, value)]
  | (k, v) :: rest =>
      if String.eqb k key then (key, value) :: rest
      else (k, v) :: set_key key value rest
  end.

(** One field of the exported file: the value between double quotes, its own
    double quotes doubled. *)
Definition csv_field (value : string) : string :=
  String quote (double_quotes value ++ String quote "").

(** The file [exportToCsv] offers for download; [bom] stands for the byte
    order mark that precedes [content]. *)
Record CsvFile : Type :=
  { bom : bool;
    content : string;
    download : string }.

Section View.

Context (H : UsbHost).

(** The Gemini service: its key and its backend. *)
Context (API_KEY : option string).
Context (generateContent : Request -> completion string).
Context (parse_document : string -> completion ExtractedDocumentData).
Context (match_data_url : string -> option (string * string)).

(** The columns of the exported file, [headers]: the key of each field and
    its label in the language of the form. *)
Context (headers : list (string * string)).

(** The signals of the component that the device panel, the scan history and
    the data table use; [alerts] are the messages shown by [alert], and
    [errorTimers] counts the pending timers that clear [connectionError]. *)
Record View : Type :=
  { selectedDevice : option Device;
    isConnecting : bool;
    connectionError : string;
    errorTimers : nat;
    scannedImageUrl : string;
    scanHistory : list Scan;
    isRenamingScanId : option string;
    renameScanValue : string;
    structuredData : list ExtractedDocumentData;
    isExtracting : bool;
    dataFilter : string;
    alerts : list string;
    deviceService : World H }.

Definition set_selectedDevice (v : View) (x : option Device) : View :=
  {| selectedDevice := x; isConnecting := isConnecting v;
     connectionError := connectionError v; errorTimers := errorTimers v;
     scannedImageUrl := scannedImageUrl v; scanHistory := scanHistory v;
     isRenamingScanId := isRenamingScanId v; renameScanValue := renameScanValue v;
     structuredData := structuredData v; isExtracting := isExtracting v;
     dataFilter := dataFilter v; alerts := alerts v;
     deviceService := deviceService v |}.

Definition set_isConnecting (v : View) (x : bool) : View :=
  {| selectedDevice := selectedDevice v; isConnecting := x;
     connectionError := connectionError v; errorTimers := errorTimers v;
     scannedImageUrl := scannedImageUrl v; scanHistory := scanHistory v;
     isRenamingScanId := isRenamingScanId v; renameScanValue := renameScanValue v;
     structuredData := structuredData v; isExtracting := isExtracting v;
     dataFilter := dataFilter v; alerts := alerts v;
     deviceService := deviceService v |}.

Definition set_connectionError (v : View) (x : string) : View :=
  {| selectedDevice := selectedDevice v; isConnecting := isConnecting v;
     connectionError := x; errorTimers := errorTimers v;
     scannedImageUrl := scannedImageUrl v; scanHistory := scanHistory v;
     isRenamingScanId := isRenamingScanId v; renameScanValue := renameScanValue v;
     structuredData := structuredData v; isExtracting := isExtracting v;
     dataFilter := dataFilter v; alerts := alerts v;
     deviceService := deviceService v |}.

Definition set_errorTimers (v : View) (x : nat) : View :=
  {| selectedDevice := selectedDevice v; isConnecting := isConnecting v;
     connectionError := connectionError v; errorTimers := x;
     scannedImageUrl := scannedImageUrl v; scanHistory := scanHistory v;
     isRenamingScanId := isRenamingScanId v; renameScanValue := renameScanValue v;
     structuredData := structuredData v; isExtracting := isExtracting v;
     dataFilter := dataFilter v; alerts := alerts v;
     deviceService := deviceService v |}.

Definition set_scannedImageUrl (v : View) (x : string) : View :=
  {| selectedDevice := selectedDevice v; isConnecting := isConnecting v;
     connectionError := connectionError v; errorTimers := errorTimers v;
     scannedImageUrl := x; scanHistory := scanHistory v;
     isRenamingScanId := isRenamingScanId v; renameScanValue := renameScanValue v;
     structuredData := structuredData v; isExtracting := isExtracting v;
     dataFilter := dataFilter v; alerts := alerts v;
     deviceService := deviceService v |}.

Definition set_scanHistory (v : View) (x : list Scan) : View :=
  {| selectedDevice := selectedDevice v; isConnecting := isConnecting v;
     connectionError := connectionError v; errorTimers := errorTimers v;
     scannedImageUrl := scannedImageUrl v; scanHistory := x;
     isRenamingScanId := isRenamingScanId v; renameScanValue := renameScanValue v;
     structuredData := structuredData v; isExtracting := isExtracting v;
     dataFilter := dataFilter v; alerts := alerts v;
     deviceService := deviceService v |}.

Definition set_isRenamingScanId (v : View) (x : option string) : View :=
  {| selectedDevice := selectedDevice v; isConnecting := isConnecting v;
     connectionError := connectionError v; errorTimers := errorTimers v;
     scannedImageUrl := scannedImageUrl v; scanHistory := scanHistory v;
     isRenamingScanId := x; renameScanValue := renameScanValue v;
     structuredData := structuredData v; isExtracting := isExtracting v;
     dataFilter := dataFilter v; alerts := alerts v;
     deviceService := deviceService v |}.

Definition set_renameScanValue (v : View) (x : string) : View :=
  {| selectedDevice := selectedDevice v; isConnecting := isConnecting v;
     connectionError := connectionError v; errorTimers := errorTimers v;
     scannedImageUrl := scannedImageUrl v; scanHistory := scanHistory v;
     isRenamingScanId := isRenamingScanId v; renameScanValue := x;
     structuredData := structuredData v; isExtracting := isExtracting v;
     dataFilter := dataFilter v; alerts := alerts v;
     deviceService := deviceService v |}.

Definition set_structuredData (v : View) (x : list ExtractedDocumentData) : View :=
  {| selectedDevice := selectedDevice v; isConnecting := isConnecting v;
     connectionError := connectionError v; errorTimers := errorTimers v;
     scannedImageUrl := scannedImageUrl v; scanHistory := scanHistory v;
     isRenamingScanId := isRenamingScanId v; renameScanValue := renameScanValue v;
     structuredData := x; isExtracting := isExtracting v;
     dataFilter := dataFilter v; alerts := alerts v;
     deviceService := deviceService v |}.

Definition set_isExtracting (v : View) (x : bool) : View :=
  {| selectedDevice := selectedDevice v; isConnecting := isConnecting v;
     connectionError := connectionError v; errorTimers := errorTimers v;
     scannedImageUrl := scannedImageUrl v; scanHistory := scanHistory v;
     isRenamingScanId := isRenamingScanId v; renameScanValue := renameScanValue v;
     structuredData := structuredData v; isExtracting := x;
     dataFilter := dataFilter v; alerts := alerts v;
     deviceService := deviceService v |}.

Definition set_deviceService (v : View) (x : World H) : View :=
  {| selectedDevice := selectedDevice v; isConnecting := isConnecting v;
     connectionError := connectionError v; errorTimers := errorTimers v;
     scannedImageUrl := scannedImageUrl v; scanHistory := scanHistory v;
     isRenamingScanId := isRenamingScanId v; renameScanValue := renameScanValue v;
     structuredData := structuredData v; isExtracting := isExtracting v;
     dataFilter := dataFilter v; alerts := alerts v;
     deviceService := x |}.

(** [alert(message)] *)
Definition alert (v : View) (message : string) : View :=
  {| selectedDevice := selectedDevice v; isConnecting := isConnecting v;
     connectionError := connectionError v; errorTimers := errorTimers v;
     scannedImageUrl := scannedImageUrl v; scanHistory := scanHistory v;
     isRenamingScanId := isRenamingScanId v; renameScanValue := renameScanValue v;
     structuredData := structuredData v; isExtracting := isExtracting v;
     dataFilter := dataFilter v; alerts := (alerts v ++ [message])%list;
     deviceService := deviceService v |}.

(** The effect of the constructor that keeps the selection in step with the
    registry: the selected device is replaced by the entry that has its id,
    and dropped when no entry has it. *)
Definition syncSelectedDevice (v : View) : View :=
  match selectedDevice v with
  | Some currentSelected =>
      set_selectedDevice v
        (find (has_id (Model.id currentSelected)) (devices (deviceService v)))
  | None => v
  end.

(** [dev.status === s] *)
Definition status_is (s : DeviceStatus) (dev : Device) : bool :=
  match status dev, s with
  | Connected, Connected | Ready, Ready | Offline, Offline | Error, Error => true
  | _, _ => false
  end.

(** [isActionable] *)
Definition isActionable (v : View) : bool :=
  match selectedDevice v with
  | None => false
  | Some dev =>
      match connectionType dev with
      | USB => status_is Connected dev
      | Network => status_is Ready dev
      end
  end.

(** [selectDevice] *)
Definition selectDevice (device : Device) (v : View) : View :=
  set_scannedImageUrl
    (set_connectionError (set_selectedDevice v (Some device)) "") "".

(** [connectDevice] of the component: the error of the service is shown, and
    a timer is set that clears it five seconds later. *)
Definition connectDevice (deviceId : string) (v : View) : View :=
  let v := set_connectionError (set_isConnecting v true) "" in
  let (r, w) := DeviceService.connectDevice H deviceId (deviceService v) in
  let v := set_deviceService v w in
  let v :=
    match r with
    | Returned _ => v
    | Threw message =>
        set_errorTimers
          (set_connectionError v
             (if is_empty message then "An unknown connection error occurred."
              else message))
          (S (errorTimers v))
    end in
  set_isConnecting v false.

(** The callback of that timer. *)
Definition clearConnectionError (v : View) : View :=
  match errorTimers v with
  | O => v
  | S n => set_errorTimers (set_connectionError v "") n
  end.

(** [disconnectDevice] of the component: it awaits the service and nothing
    more, so a rejection of the service is its own. *)
Definition disconnectDevice (deviceId : string) (v : View)
  : completion unit * View :=
  let (r, w) := DeviceService.disconnectDevice H deviceId (deviceService v) in
  (r, set_deviceService v w).

(** [saveToHistory]; [now] is [Date.now()], [localeString] and [isoString]
    are the two renderings of the current date. *)
Definition saveToHistory (now : N) (localeString isoString : string) (v : View)
  : View :=
  let url := scannedImageUrl v in
  if is_empty url then v
  else
    let newScan :=
      {| id := "scan-" ++ string_of_N now;
         name := "Scan " ++ localeString;
         imageUrl := url;
         date := isoString |} in
    set_scannedImageUrl (set_scanHistory v (newScan :: scanHistory v)) "".

(** [viewScan] *)
Definition viewScan (scan : Scan) (v : View) : View :=
  set_scannedImageUrl v (imageUrl scan).

(** [s.id === scanId] *)
Definition is_scan (scanId : string) (s : Scan) : bool :=
  String.eqb (id s) scanId.

(** [deleteScan] *)
Definition deleteScan (scanId : string) (v : View) : View :=
  let v :=
    match find (is_scan scanId) (scanHistory v) with
    | Some scanToDelete =>
        if String.eqb (scannedImageUrl v) (imageUrl scanToDelete)
        then set_scannedImageUrl v ""
        else v
    | None => v
    end in
  set_scanHistory v (filter (fun s => negb (is_scan scanId s)) (scanHistory v)).

(** [startRename] *)
Definition startRename (scan : Scan) (v : View) : View :=
  set_renameScanValue (set_isRenamingScanId v (Some (id scan))) (name scan).

(** [cancelRename] *)
Definition cancelRename (v : View) : View :=
  set_isRenamingScanId v None.

(** [confirmRename] *)
Definition confirmRename (scanId : string) (v : View) : View :=
  let newName := trim (renameScanValue v) in
  if is_empty newName then cancelRename v
  else
    set_isRenamingScanId
      (set_scanHistory v
         (map (fun s => if is_scan scanId s then with_name s newName else s)
              (scanHistory v)))
      None.

(** [Object.values(item).some(val =>
      String(val).toLowerCase().includes(filter))] *)
Definition row_matches (filter : string) (item : ExtractedDocumentData) : bool :=
  existsb (fun kv => includes filter (toLowerCase (snd kv))) item.

(** [filteredData] *)
Definition filteredData (v : View) : list ExtractedDocumentData :=
  let filter := trim (toLowerCase (dataFilter v)) in
  let data := structuredData v in
  if is_empty filter then data
  else List.filter (row_matches filter) data.

(** One line of the exported file for a row: a field per column. *)
Definition csv_row (row : ExtractedDocumentData) : string :=
  join "," (map (fun header => csv_field (or_else (get_key (fst header) row) ""))
                headers).

(** [csvContent]: the line of the labels, then a line per row. *)
Definition csvContent (data : list ExtractedDocumentData) : string :=
  join (String newline "") (join "," (map snd headers) :: map csv_row data).

(** [exportToCsv]: nothing to export is said in an alert, otherwise the
    filtered rows are offered as a file. *)
Definition exportToCsv (v : View) : View * option CsvFile :=
  let data := filteredData v in
  match data with
  | [] => (alert v "No data to export.", None)
  | _ =>
      (v, Some {| bom := true; content := csvContent data;
                  download := "extracted_data.csv" |})
  end.

(** [extractAndStoreData]; [now] is [Date.now()] and [isoString] the current
    date. *)
Definition extractAndStoreData (now : N) (isoString : string) (v : View) : View :=
  let imageUrl := scannedImageUrl v in
  if is_empty imageUrl then alert v "Please scan a document first."
  else
    let v := set_isExtracting v true in
    let v :=
      match extractStructuredData API_KEY generateContent parse_document
              match_data_url imageUrl with
      | Returned extractedData =>
          let newData :=
            set_key "scanDate" isoString
              (set_key "id" ("data-" ++ string_of_N now) extractedData) in
          set_structuredData v (newData :: structuredData v)
      | Threw error =>
          alert
            (set_deviceService v
               (snd (console_error H "Failed to extract structured data:" error
                       (deviceService v))))
            "An error occurred during data extraction. The document might not be in the expected format."
      end in
    set_isExtracting v false.

End View.

Arguments selectedDevice {H} v.
Arguments isConnecting {H} v.
Arguments connectionError {H} v.
Arguments errorTimers {H} v.
Arguments scannedImageUrl {H} v.
Arguments scanHistory {H} v.
Arguments isRenamingScanId {H} v.
Arguments renameScanValue {H} v.
Arguments structuredData {H} v.
Arguments isExtracting {H} v.
Arguments dataFilter {H} v.
Arguments alerts {H} v.
Arguments deviceService {H} v.

End AppView.

(* ------------------------------------------------------------------------- *)
(** * Vocabulary of the specification *)
(* ------------------------------------------------------------------------- *)

Module Spec.
Import Js Model DeviceService.

Fixpoint all_digits (s : string) : bool :=
  match s with
  | EmptyString => true
  | String c s' => is_digit c && all_digits s'
  end.

(** A group of one to three decimal digits. *)
Definition digit_group (g : string) : Prop :=
  1 <= String.length g <= 3 /\ all_digits g = true.

(** Dotted-quad syntax: four groups of one to three digits separated by dots;
    the value of a group is not bounded. *)
Definition dotted_quad (s : string) : Prop :=
  exists a b c d,
    digit_group a /\ digit_group b /\ digit_group c /\ digit_group d /\
    s = a ++ "." ++ b ++ "." ++ c ++ "." ++ d.

(** An integer in [1, 65535]. *)
Definition port_in_range (n : number) : Prop :=
  exists z, n = Int z /\ (1 <= z <= 65535)%Z.

(** A payload that passes the validation of the form. *)
Definition valid_payload (p : NetworkDevicePayload) : Prop :=
  DeviceService.name p <> "" /\ dotted_quad (ip p) /\
  port_in_range (DeviceService.port p) /\ DeviceService.profile p <> "".

(** The number of registry entries with a given id, or a given address. *)
Definition count_id (deviceId : string) (r : list Device) : nat :=
  List.length (filter (has_id deviceId) r).

Definition count_address (address : string) (r : list Device) : nat :=
  List.length (filter (has_address address) r).

(** Looking a device up by id, as the service and the component do. *)
Definition lookup (deviceId : string) (r : list Device) : option Device :=
  find (has_id deviceId) r.

(** Two device objects with the same vendor, product and serial number. *)
Definition same_identity (u v : USBDevice) : Prop :=
  vendorId u = vendorId v /\ productId u = productId v /\
  serialNumber u = serialNumber v.

(** The shape of the entries the service creates from validated input: a USB
    entry carries an id made by [createDeviceId] and no address; a network
    entry has an address that passed the form, and the id derived from it. *)
Definition entry_ok (d : Device) : Prop :=
  match connectionType d with
  | USB => String.prefix "usb-" (id d) = true /\ ipAddress d = None
  | Network =>
      exists address,
        ipAddress d = Some address /\ dotted_quad address /\
        id d = createNetworkDeviceId address
  end.

Definition registry_ok (r : list Device) : Prop := Forall entry_ok r.

(** Network devices are always Ready. *)
Definition network_ready (r : list Device) : Prop :=
  forall d, In d r -> connectionType d = Network -> status d = Ready.

(** [upsertIfAbsent]: insert unless an entry has the id already. *)
Definition upsertIfAbsent (d : Device) (r : list Device) : list Device :=
  if existsb (has_id (id d)) r then r else r ++ [d].

(** A payload that passes the validation of an edit of [deviceId]: the form
    accepts it, and no entry other than the edited one has its address. *)
Definition valid_edit (deviceId : string) (p : NetworkDevicePayload)
  (r : list Device) : Prop :=
  valid_payload p /\
  forall e, In e r -> has_address (ip p) e = true -> id e = deviceId.

(** No character of the string is a hyphen. *)
Fixpoint no_dash (s : string) : bool :=
  match s with
  | EmptyString => true
  | String c s' => negb (Ascii.eqb c "-") && no_dash s'
  end.

(** [currentDevices.map(d => d.id === deviceId ? { ...d, ... } : d)], the list
    [editNetworkDevice] writes. *)
Definition edited (deviceId : string) (p : NetworkDevicePayload)
  (r : list Device) : list Device :=
  map (fun d => if has_id deviceId d then editedDevice d p else d) r.

(** What the edit leaves alone in an entry. *)
Definition frame (d : Device)
  : DeviceStatus * string * ConnectionType * DeviceType * option handle :=
  (status d, manufacturer d, connectionType d, type d, rawDevice d).

(** No two entries share an id, or an address. *)
Definition ids_unique (r : list Device) : Prop :=
  forall deviceId, count_id deviceId r <= 1.

Definition addresses_unique (r : list Device) : Prop :=
  forall address, count_address address r <= 1.

(** The entry with every status forgotten. *)
Definition without_status (d : Device) : Device := with_status d Ready.

(** A text that ends a numeral: it is empty or does not start with a digit. *)
Definition stops (rest : string) : Prop :=
  match rest with
  | EmptyString => True
  | String c _ => is_digit c = false
  end.

Section Runs.

Context {H : UsbHost}.

(** The world after a call, and how the call ended. *)
Definition after {A} (m : M H A) (w : World H) : World H := snd (m w).

Definition result {A} (m : M H A) (w : World H) : completion A := fst (m w).

(** The USB host moves on by itself. *)
Definition with_usb (w : World H) (b : bus H) : World H :=
  {| devices := devices w; history := history w; timers := timers w;
     console := console w; calls := calls w; usb := b |}.

(** A sequence of connect notifications, delivered in order; each comes with
    the state the host is in when it arrives and the device object it is
    about. *)
Fixpoint deliver (notifications : list (bus H * handle)) (w : World H) : World H :=
  match notifications with
  | [] => w
  | (b, raw) :: rest => deliver rest (after (handleConnect H raw) (with_usb w b))
  end.

(** The connect sequence of [raw] fails with [cause]: [open()] is rejected,
    or it is fulfilled, no configuration is active, one is available, and
    selecting the first is rejected. *)
Definition open_fails (raw : handle) (w : World H) (cause : string) : Prop :=
  fst (host_open H raw (usb w)) = Rejected cause.

Definition select_fails (raw : handle) (w : World H) (cause : string) : Prop :=
  exists b first rest,
    host_open H raw (usb w) = (Fulfilled, b) /\
    configuration (look H b raw) = None /\
    configurations (look H b raw) = first :: rest /\
    fst (host_selectConfiguration H raw (configurationValue first) b)
      = Rejected cause.

Definition connect_fails (raw : handle) (w : World H) (cause : string) : Prop :=
  open_fails raw w cause \/ select_fails raw w cause.

(** The device behind [raw] is open, its active configuration exposes the
    interface [number] first, and releasing it is rejected with [cause]. *)
Definition release_fails (raw : handle) (w : World H) (number : N)
  (cause : string) : Prop :=
  opened (look H (usb w) raw) = true /\
  (exists active first rest,
     configuration (look H (usb w) raw) = Some active /\
     interfaces active = first :: rest /\
     interfaceNumber first = number) /\
  fst (host_releaseInterface H raw number (usb w)) = Rejected cause.

(** The worlds the application can be in: hardware notifications, the form
    (which submits validated payloads, and edits network devices of the
    registry), timers, connect and disconnect actions, in any order. *)
Inductive reachable : World H -> Prop :=
| reach_initial b :
    reachable (initial H b)
| reach_host w b :
    reachable w -> reachable (with_usb w b)
| reach_load w :
    reachable w -> reachable (after (loadPreviouslyPermittedDevices H) w)
| reach_handleConnect w raw :
    reachable w -> reachable (after (handleConnect H raw) w)
| reach_handleDisconnect w raw :
    reachable w -> reachable (after (handleDisconnect H raw) w)
| reach_add w p :
    reachable w -> valid_payload p ->
    reachable (after (addNetworkDevice H p) w)
| reach_timer w d w' :
    reachable w -> run_timer H w = Some (d, w') -> reachable w'
| reach_edit w d p :
    reachable w -> valid_payload p ->
    In d (devices w) -> connectionType d = Network ->
    reachable (after (editNetworkDevice H (id d) p) w)
| reach_connectDevice w deviceId :
    reachable w -> reachable (after (connectDevice H deviceId) w)
| reach_disconnectDevice w deviceId :
    reachable w -> reachable (after (disconnectDevice H deviceId) w).


(** The connect sequence of [raw] goes through: [open()] is fulfilled and
    then either no configuration has to be selected ([selected] is [None]: one
    is active, or none is available), or the first configuration, of value
    [v], is selected and that is fulfilled ([selected] is [Some v]). *)
Definition connect_succeeds (raw : handle) (w : World H) (selected : option N)
  : Prop :=
  exists b,
    host_open H raw (usb w) = (Fulfilled, b) /\
    match selected with
    | None =>
        configuration (look H b raw) <> None \/ configurations (look H b raw) = []
    | Some v =>
        configuration (look H b raw) = None /\
        (exists first rest,
           configurations (look H b raw) = first :: rest /\
           configurationValue first = v) /\
        fst (host_selectConfiguration H raw v b) = Fulfilled
    end.

(** The release step of a disconnect of [raw], leaving the host in [b]:
    either there is nothing to release ([released] is [None]: no
    configuration is active, or the active one exposes no interface, and the
    host is not asked), or the first interface, of number [n], is released
    and that is fulfilled ([released] is [Some n]). *)
Definition release_step (raw : handle) (w : World H) (released : option N)
  (b : bus H) : Prop :=
  match released with
  | None =>
      (configuration (look H (usb w) raw) = None \/
       exists active,
         configuration (look H (usb w) raw) = Some active /\
         interfaces active = []) /\
      b = usb w
  | Some n =>
      exists active first rest,
        configuration (look H (usb w) raw) = Some active /\
        interfaces active = first :: rest /\
        interfaceNumber first = n /\
        host_releaseInterface H raw n (usb w) = (Fulfilled, b)
  end.

(** The worlds the application can be in when every add is awaited before
    the next action, as the busy flag of the form has it. *)
Inductive serialized : World H -> Prop :=
| ser_initial b :
    serialized (initial H b)
| ser_host w b :
    serialized w -> serialized (with_usb w b)
| ser_load w :
    serialized w -> serialized (after (loadPreviouslyPermittedDevices H) w)
| ser_handleConnect w raw :
    serialized w -> serialized (after (handleConnect H raw) w)
| ser_handleDisconnect w raw :
    serialized w -> serialized (after (handleDisconnect H raw) w)
| ser_add w p :
    serialized w -> valid_payload p ->
    serialized (after (await_addNetworkDevice H p) w)
| ser_edit w d p :
    serialized w -> valid_payload p ->
    In d (devices w) -> connectionType d = Network ->
    serialized (after (editNetworkDevice H (id d) p) w)
| ser_connectDevice w deviceId :
    serialized w -> serialized (after (connectDevice H deviceId) w)
| ser_disconnectDevice w deviceId :
    serialized w -> serialized (after (disconnectDevice H deviceId) w).

End Runs.

End Spec.

(* ------------------------------------------------------------------------- *)
(** * Concrete hosts, devices and payloads *)
(* ------------------------------------------------------------------------- *)

Module Fixtures.
Import Js Model DeviceService AppComponent.

(** A host with one device object whose fields never change and whose
    methods settle as scripted. *)
Definition scripted (u : USBDevice) (o_open o_select o_release o_close : outcome)
  : UsbHost :=
  {| bus := unit;
     look := fun _ _ => u;
     host_open := fun _ b => (o_open, b);
     host_close := fun _ b => (o_close, b);
     host_selectConfiguration := fun _ _ b => (o_select, b);
     host_releaseInterface := fun _ _ b => (o_release, b);
     host_getDevices := fun _ => [0] |}.

Definition bulk_interface : USBInterface :=
  {| interfaceNumber := 0; alternates := [ {| interfaceClass := 255 |} ] |}.

Definition first_configuration : USBConfiguration :=
  {| configurationValue := 1; interfaces := [bulk_interface] |}.

(** A flatbed scanner: closed and not configured, or open and configured. *)
Definition scanner_closed : USBDevice :=
  {| vendorId := 1193; productId := 6417;
     manufacturerName := Some "Canon"; productName := Some "CanoScan LiDE 120";
     serialNumber := None; opened := false;
     configuration := None; configurations := [first_configuration] |}.

Definition scanner_open : USBDevice :=
  {| vendorId := 1193; productId := 6417;
     manufacturerName := Some "Canon"; productName := Some "CanoScan LiDE 120";
     serialNumber := None; opened := true;
     configuration := Some first_configuration;
     configurations := [first_configuration] |}.

Definition access_denied : outcome := Rejected "Access denied.".

Definition office_printer : NetworkDevicePayload :=
  {| DeviceService.name := "HP LaserJet Pro"; ip := "192.168.1.150";
     DeviceService.port := Int 9100; DeviceService.profile := "Office Printer" |}.

Definition office_scanner : NetworkDevicePayload :=
  {| DeviceService.name := "Front Desk"; ip := "192.168.1.150";
     DeviceService.port := Int 80; DeviceService.profile := "Scans" |}.

Definition office_scanner_moved : NetworkDevicePayload :=
  {| DeviceService.name := "Front Desk"; ip := "192.168.1.151";
     DeviceService.port := Int 9100; DeviceService.profile := "Scans" |}.

(** The quiet host: every method of the one device is fulfilled. *)
Definition quiet : UsbHost :=
  scripted scanner_closed Fulfilled Fulfilled Fulfilled Fulfilled.

(** Hosts on which one step fails: [open()], [selectConfiguration()] on the
    device that is not configured yet, [releaseInterface()] on the open one. *)
Definition locked : UsbHost :=
  scripted scanner_closed access_denied Fulfilled Fulfilled Fulfilled.

Definition unconfigurable : UsbHost :=
  scripted scanner_closed Fulfilled access_denied Fulfilled Fulfilled.

Definition stuck_interface : UsbHost :=
  scripted scanner_open Fulfilled Fulfilled access_denied Fulfilled.

(** The form as the component first shows it, on a given service. *)
Definition fresh_form (H : UsbHost) (w : World H) : App H :=
  {| isDeviceModalOpen := true; editingDevice := None;
     addByIpName := "HP LaserJet Pro"; addByIpAddress := "192.168.1.150";
     addByIpPort := "9100"; addByIpProfile := "Office Printer";
     addByIpError := ""; isSavingDevice := false; deviceService := w |}.

(** The same form with another text in the port field. *)
Definition form_with_port (H : UsbHost) (w : World H) (text : string) : App H :=
  {| isDeviceModalOpen := true; editingDevice := None;
     addByIpName := "HP LaserJet Pro"; addByIpAddress := "192.168.1.150";
     addByIpPort := text; addByIpProfile := "Office Printer";
     addByIpError := ""; isSavingDevice := false; deviceService := w |}.


(** A host on which [close()] fails on the open scanner. *)
Definition stuck_handle : UsbHost :=
  scripted scanner_open Fulfilled Fulfilled Fulfilled access_denied.

(** A host with the open, configured scanner on which every method is
    fulfilled. *)
Definition quiet_open : UsbHost :=
  scripted scanner_open Fulfilled Fulfilled Fulfilled Fulfilled.

Definition laser_printer : USBDevice :=
  {| vendorId := 1008; productId := 10775;
     manufacturerName := Some "HP"; productName := Some "HP LaserJet M110w";
     serialNumber := Some "VNC3K12345"; opened := false;
     configuration := None; configurations := [first_configuration] |}.

(** A device without name whose only interface is of the printer class. *)
Definition nameless_printer : USBDevice :=
  {| vendorId := 1008; productId := 1;
     manufacturerName := None; productName := None;
     serialNumber := None; opened := false;
     configuration := None;
     configurations :=
       [ {| configurationValue := 1;
            interfaces := [ {| interfaceNumber := 0;
                               alternates := [ {| interfaceClass := 7 |} ] |} ] |} ] |}.

Definition invoice_scan : AppView.Scan :=
  {| AppView.id := "scan-1700000000000"; AppView.name := "Scan 11/14/2023";
     AppView.imageUrl := "data:image/png;base64,AAAA";
     AppView.date := "2023-11-14T22:13:20.000Z" |}.

Definition receipt_scan : AppView.Scan :=
  {| AppView.id := "scan-1700000000500"; AppView.name := "Receipt";
     AppView.imageUrl := "data:image/png;base64,BBBB";
     AppView.date := "2023-11-14T22:13:20.500Z" |}.

Definition invoice_row : GeminiService.ExtractedDocumentData :=
  [ ("subscriberName", "Sara Ahmadi"); ("subscriptionNumber", "7731");
    ("id", "data-1700000000000"); ("scanDate", "2023-11-14T22:13:20.000Z") ].

Definition receipt_row : GeminiService.ExtractedDocumentData :=
  [ ("subscriberName", "Omid Karimi"); ("subscriptionNumber", "9012");
    ("id", "data-1700000000500"); ("scanDate", "2023-11-14T22:13:20.500Z") ].

Definition two_columns : list (string * string) :=
  [ ("subscriberName", "Name"); ("subscriptionNumber", "Number") ].

(** The component with nothing selected, two scans in the history and two
    rows in the table. *)
Definition plain_view (H : UsbHost) (w : World H) : AppView.View H :=
  {| AppView.selectedDevice := None; AppView.isConnecting := false;
     AppView.connectionError := ""; AppView.errorTimers := 0;
     AppView.scannedImageUrl := "data:image/png;base64,AAAA";
     AppView.scanHistory := [invoice_scan; receipt_scan];
     AppView.isRenamingScanId := None; AppView.renameScanValue := "";
     AppView.structuredData := [invoice_row; receipt_row];
     AppView.isExtracting := false; AppView.dataFilter := "";
     AppView.alerts := []; AppView.deviceService := w |}.

(** A backend that is not reachable, and one that answers. *)
Definition offline : GeminiService.Request -> completion string :=
  fun _ => Threw "offline".

Definition answering : GeminiService.Request -> completion string :=
  fun _ => Returned "{}".

Definition parse_one_field (text : string)
  : completion GeminiService.ExtractedDocumentData :=
  Returned [("subscriberName", text)].

Definition png_only (url : string) : option (string * string) :=
  if String.prefix "data:image/png;base64," url
  then Some ("image/png", substring 22 (String.length url - 22) url)
  else None.

End Fixtures.
(* ------------------------------------------------------------------------- *)
(** * The library functions on a few inputs *)
(* ------------------------------------------------------------------------- *)

Section LibraryExamples.
Import Js Model DeviceService.

Example parseInt_port : parseInt "9100" = Int 9100.
Proof. reflexivity. Qed.

Example parseInt_trailing_text : parseInt "80abc" = Int 80.
Proof. reflexivity. Qed.

Example parseInt_negative : parseInt "-5" = Int (-5).
Proof. reflexivity. Qed.

Example parseInt_no_digit : parseInt "port" = NaN /\ parseInt "" = NaN.
Proof. split; reflexivity. Qed.

Example trim_both_ends : trim "  192.168.1.150 " = "192.168.1.150".
Proof. reflexivity. Qed.

Example network_id_of_default_address :
  createNetworkDeviceId "192.168.1.150" = "net-192-168-1-150".
Proof. reflexivity. Qed.

Example usb_id_without_serial :
  createDeviceId Fixtures.scanner_closed = "usb-1193-6417-0".
Proof. reflexivity. Qed.

Example infer_by_name :
  inferDeviceType Fixtures.scanner_closed = Scanner /\
  type (mapUSBDeviceToDevice 0 Fixtures.scanner_open) = Scanner /\
  status (mapUSBDeviceToDevice 0 Fixtures.scanner_open) = Connected /\
  status (mapUSBDeviceToDevice 0 Fixtures.scanner_closed) = Ready.
Proof. repeat split. Qed.

Example default_form_is_a_printer :
  type (newNetworkDevice Fixtures.office_printer) = Printer /\
  type (newNetworkDevice Fixtures.office_scanner) = Scanner.
Proof. split; reflexivity. Qed.

End LibraryExamples.

(* ------------------------------------------------------------------------- *)
(** * Matching by derivatives is matching *)
(* ------------------------------------------------------------------------- *)

Section RegexFacts.
Import Regex.

Lemma append_empty (u v : string) : u ++ v = "" -> u = "" /\ v = "".
Proof. destruct u; simpl; [auto | discriminate]. Qed.

Lemma append_cons (u v : string) (c : ascii) (s : string) :
  u ++ v = String c s ->
  (u = "" /\ v = String c s) \/ (exists u', u = String c u' /\ s = u' ++ v).
Proof.
  destruct u as [|a u']; simpl; intros E.
  - left; auto.
  - right. injection E as -> <-. eauto.
Qed.

Lemma lang_cat_inv (r1 r2 : regex) (s : string) :
  lang (Cat r1 r2) s -> exists u v, s = u ++ v /\ lang r1 u /\ lang r2 v.
Proof. intros Hl. inversion Hl; subst. eauto. Qed.

Lemma lang_alt_inv (r1 r2 : regex) (s : string) :
  lang (Alt r1 r2) s -> lang r1 s \/ lang r2 s.
Proof. intros Hl. inversion Hl; subst; auto. Qed.

Lemma lang_eps_inv (s : string) : lang Eps s -> s = "".
Proof. intros Hl. inversion Hl; reflexivity. Qed.

Lemma lang_chr_inv (c : ascii) (s : string) : lang (Chr c) s -> s = String c "".
Proof. intros Hl. inversion Hl; reflexivity. Qed.

Lemma lang_range_inv (lo hi : ascii) (s : string) :
  lang (Range lo hi) s -> exists c, s = String c "" /\ in_range lo hi c = true.
Proof. intros Hl. inversion Hl; subst; eauto. Qed.

Lemma lang_void_inv (s : string) : ~ lang Void s.
Proof. intros Hl. inversion Hl. Qed.

Lemma nullable_lang (r : regex) : nullable r = true <-> lang r "".
Proof.
  induction r; simpl; split; intros Hn; try discriminate.
  - inversion Hn.
  - constructor.
  - reflexivity.
  - inversion Hn.
  - inversion Hn.
  - apply andb_true_iff in Hn as [H1 H2].
    change "" with ("" ++ ""). constructor; [apply IHr1 | apply IHr2]; assumption.
  - apply lang_cat_inv in Hn as (u & v & E & Hu & Hv).
    symmetry in E. apply append_empty in E as [-> ->].
    apply andb_true_iff; split; [apply IHr1 | apply IHr2]; assumption.
  - apply orb_true_iff in Hn as [H1 | H2].
    + apply lang_alt_l, IHr1, H1.
    + apply lang_alt_r, IHr2, H2.
  - apply orb_true_iff.
    apply lang_alt_inv in Hn as [Hn | Hn]; [left; apply IHr1 | right; apply IHr2];
      assumption.
Qed.

Lemma deriv_lang (r : regex) :
  forall (c : ascii) (s : string), lang (deriv c r) s <-> lang r (String c s).
Proof.
  induction r; intros a s; simpl.
  - split; intros Hl; inversion Hl.
  - split; intros Hl; inversion Hl.
  - destruct (Ascii.eqb a c) eqn:E.
    + apply Ascii.eqb_eq in E as ->. split; intros Hl.
      * apply lang_eps_inv in Hl as ->. constructor.
      * apply lang_chr_inv in Hl. injection Hl as ->. constructor.
    + split; intros Hl; [inversion Hl|].
      apply lang_chr_inv in Hl. injection Hl as -> _.
      rewrite Ascii.eqb_refl in E. discriminate.
  - destruct (in_range lo hi a) eqn:E.
    + split; intros Hl.
      * apply lang_eps_inv in Hl as ->. constructor; assumption.
      * apply lang_range_inv in Hl as (c & Hs & _). injection Hs as _ ->. constructor.
    + split; intros Hl; [inversion Hl|].
      apply lang_range_inv in Hl as (c & Hs & Hr). injection Hs as -> _. congruence.
  - assert (Hleft : forall t, lang (Cat (deriv a r1) r2) t -> lang (Cat r1 r2) (String a t)).
    { intros t Hl. apply lang_cat_inv in Hl as (u & v & -> & Hu & Hv).
      change (String a (u ++ v)) with (String a u ++ v).
      constructor; [apply IHr1|]; assumption. }
    assert (Hback : forall t, lang (Cat r1 r2) (String a t) ->
              lang (Cat (deriv a r1) r2) t \/ (nullable r1 = true /\ lang (deriv a r2) t)).
    { intros t Hl. apply lang_cat_inv in Hl as (u & v & E & Hu & Hv).
      symmetry in E. apply append_cons in E as [[-> ->] | (u' & -> & ->)].
      - right. split; [apply nullable_lang, Hu | apply IHr2, Hv].
      - left. constructor; [apply IHr1|]; assumption. }
    destruct (nullable r1) eqn:En; split; intros Hl.
    + apply lang_alt_inv in Hl as [Hl | Hl]; [auto|].
      change (String a s) with ("" ++ String a s).
      constructor; [apply nullable_lang, En | apply IHr2, Hl].
    + destruct (Hback _ Hl) as [Hd | [_ Hd]];
        [apply lang_alt_l | apply lang_alt_r]; assumption.
    + auto.
    + destruct (Hback _ Hl) as [Hd | [Hd _]]; [assumption | discriminate].
  - split; intros Hl; apply lang_alt_inv in Hl as [Hl | Hl].
    + apply lang_alt_l, IHr1, Hl.
    + apply lang_alt_r, IHr2, Hl.
    + apply lang_alt_l, IHr1, Hl.
    + apply lang_alt_r, IHr2, Hl.
Qed.

(** [test] decides membership in the language of the expression. *)
Lemma test_lang (s : string) : forall r : regex, test r s = true <-> lang r s.
Proof.
  induction s as [|c s IH]; intros r; simpl.
  - apply nullable_lang.
  - rewrite IH. apply deriv_lang.
Qed.

End RegexFacts.

(* ------------------------------------------------------------------------- *)
(** * The pattern of the address field is the dotted-quad syntax *)
(* ------------------------------------------------------------------------- *)

Section AddressPattern.
Import Js Regex AppComponent Spec.

Lemma append_assoc (u v w : string) : (u ++ v) ++ w = u ++ v ++ w.
Proof. induction u as [|c u IH]; simpl; [reflexivity | now rewrite IH]. Qed.

Lemma append_nil_r (u : string) : u ++ "" = u.
Proof. induction u as [|c u IH]; simpl; [reflexivity | now rewrite IH]. Qed.

Lemma length_append (u v : string) :
  String.length (u ++ v) = String.length u + String.length v.
Proof. induction u as [|c u IH]; simpl; [reflexivity | now rewrite IH]. Qed.

Lemma all_digits_append (u v : string) :
  all_digits (u ++ v) = all_digits u && all_digits v.
Proof.
  induction u as [|c u IH]; simpl; [reflexivity|].
  rewrite IH. apply andb_assoc.
Qed.

Lemma in_range_digit (c : ascii) : in_range "0" "9" c = is_digit c.
Proof. reflexivity. Qed.

Lemma lang_digit (s : string) :
  lang digit s <-> exists c, s = String c "" /\ is_digit c = true.
Proof.
  unfold digit. split.
  - intros Hl. apply lang_range_inv in Hl as (c & -> & Hc).
    rewrite in_range_digit in Hc. eauto.
  - intros (c & -> & Hc). constructor. now rewrite in_range_digit.
Qed.

Lemma lang_times_digit (n : nat) :
  forall g, lang (times n digit) g <-> String.length g = n /\ all_digits g = true.
Proof.
  induction n as [|n IH]; intros g; simpl.
  - split.
    + intros Hl. apply lang_eps_inv in Hl as ->. auto.
    + intros [Hlen _]. destruct g; [constructor | discriminate].
  - split.
    + intros Hl. apply lang_cat_inv in Hl as (u & v & -> & Hu & Hv).
      apply lang_digit in Hu as (c & -> & Hc). apply IH in Hv as [Hlen Hd].
      simpl. rewrite Hc, Hd, Hlen. auto.
    + intros [Hlen Hd]. destruct g as [|c g]; [discriminate|].
      simpl in Hlen, Hd. apply andb_true_iff in Hd as [Hc Hd].
      change (String c g) with (String c "" ++ g). constructor.
      * apply lang_digit. eauto.
      * apply IH. split; [lia | assumption].
Qed.

Lemma lang_upto_digit (n : nat) :
  forall g, lang (upto n digit) g <-> String.length g <= n /\ all_digits g = true.
Proof.
  induction n as [|n IH]; intros g; simpl.
  - split.
    + intros Hl. apply lang_eps_inv in Hl as ->. auto.
    + intros [Hlen _]. destruct g; [constructor | simpl in Hlen; lia].
  - split.
    + intros Hl. apply lang_alt_inv in Hl as [Hl | Hl].
      * apply lang_cat_inv in Hl as (u & v & -> & Hu & Hv).
        apply lang_digit in Hu as (c & -> & Hc). apply IH in Hv as [Hlen Hd].
        simpl. rewrite Hc, Hd. split; [lia | reflexivity].
      * apply lang_eps_inv in Hl as ->. simpl. split; [lia | reflexivity].
    + intros [Hlen Hd]. destruct g as [|c g].
      * apply lang_alt_r. constructor.
      * simpl in Hlen, Hd. apply andb_true_iff in Hd as [Hc Hd].
        apply lang_alt_l. change (String c g) with (String c "" ++ g). constructor.
        -- apply lang_digit. eauto.
        -- apply IH. split; [lia | assumption].
Qed.

Lemma lang_digit_group (g : string) :
  lang (between 1 3 digit) g <-> digit_group g.
Proof.
  unfold between, digit_group. split.
  - intros Hl. apply lang_cat_inv in Hl as (u & v & -> & Hu & Hv).
    apply lang_times_digit in Hu as [Hlu Hdu].
    apply lang_upto_digit in Hv as [Hlv Hdv].
    rewrite length_append, all_digits_append, Hdu, Hdv. simpl in Hlv.
    split; [lia | reflexivity].
  - intros [Hlen Hd]. destruct g as [|c g]; [simpl in Hlen; lia|].
    simpl in Hlen, Hd. apply andb_true_iff in Hd as [Hc Hd].
    change (String c g) with (String c "" ++ g). constructor.
    + apply lang_times_digit. simpl. rewrite Hc. auto.
    + apply lang_upto_digit. simpl. split; [lia | assumption].
Qed.

Lemma lang_ip_pattern (s : string) : lang ip_pattern s <-> dotted_quad s.
Proof.
  unfold ip_pattern, dotted_quad. simpl times. split.
  - intros Hl.
    apply lang_cat_inv in Hl as (abc & d & -> & Habc & Hd).
    apply lang_cat_inv in Habc as (a' & bc & -> & Ha' & Hbc).
    apply lang_cat_inv in Hbc as (b' & c'' & -> & Hb' & Hc'').
    apply lang_cat_inv in Hc'' as (c' & e & -> & Hc' & He).
    apply lang_eps_inv in He as ->.
    apply lang_cat_inv in Ha' as (a & da & -> & Ha & Hda).
    apply lang_cat_inv in Hb' as (b & db & -> & Hb & Hdb).
    apply lang_cat_inv in Hc' as (c & dc & -> & Hc & Hdc).
    apply lang_chr_inv in Hda as ->. apply lang_chr_inv in Hdb as ->.
    apply lang_chr_inv in Hdc as ->.
    exists a, b, c, d. rewrite <- !lang_digit_group.
    repeat (split; [assumption|]).
    now rewrite append_nil_r, !append_assoc.
  - intros (a & b & c & d & Ha & Hb & Hc & Hd & ->).
    rewrite <- lang_digit_group in Ha, Hb, Hc, Hd.
    replace (a ++ "." ++ b ++ "." ++ c ++ "." ++ d)
      with (((a ++ ".") ++ (b ++ ".") ++ (c ++ ".") ++ "") ++ d)
      by now rewrite append_nil_r, !append_assoc.
    repeat constructor; assumption.
Qed.

(** The test of the form accepts exactly the dotted quads. *)
Lemma test_ip_pattern (s : string) : test ip_pattern s = true <-> dotted_quad s.
Proof. rewrite test_lang. apply lang_ip_pattern. Qed.

Lemma test_ip_pattern_false (s : string) :
  test ip_pattern s = false <-> ~ dotted_quad s.
Proof.
  rewrite <- test_ip_pattern. destruct (test ip_pattern s); split; intros Hs;
    try reflexivity; try discriminate; try (intros Hx; discriminate).
  exfalso. now apply Hs.
Qed.

End AddressPattern.

(* ------------------------------------------------------------------------- *)
(** * Device identifiers *)
(* ------------------------------------------------------------------------- *)

Section Identifiers.
Import Js Model DeviceService Spec.

Lemma no_dash_append (u v : string) : no_dash (u ++ v) = no_dash u && no_dash v.
Proof.
  induction u as [|c u IH]; simpl; [reflexivity|].
  rewrite IH. apply andb_assoc.
Qed.

Lemma digit_no_dash (c : ascii) : is_digit c = true -> Ascii.eqb c "-" = false.
Proof.
  intros Hc. destruct (Ascii.eqb c "-") eqn:E; [|reflexivity].
  apply Ascii.eqb_eq in E. subst c. discriminate Hc.
Qed.

Lemma all_digits_no_dash (g : string) : all_digits g = true -> no_dash g = true.
Proof.
  induction g as [|c g IH]; simpl; [reflexivity|].
  intros Hd. apply andb_true_iff in Hd as [Hc Hd].
  rewrite (digit_no_dash c Hc), (IH Hd). reflexivity.
Qed.

Lemma dotted_quad_no_dash (s : string) : dotted_quad s -> no_dash s = true.
Proof.
  intros (a & b & c & d & [_ Ha] & [_ Hb] & [_ Hc] & [_ Hd] & ->).
  rewrite !no_dash_append.
  rewrite (all_digits_no_dash a Ha), (all_digits_no_dash b Hb),
    (all_digits_no_dash c Hc), (all_digits_no_dash d Hd).
  reflexivity.
Qed.

(** Replacing dots by hyphens loses nothing on strings without hyphens. *)
Lemma replace_dots_injective (s : string) :
  forall t, no_dash s = true -> no_dash t = true ->
            replace_dots s = replace_dots t -> s = t.
Proof.
  induction s as [|c s IH]; intros [|e t]; simpl; intros Hs Ht E;
    try reflexivity; try discriminate.
  apply andb_true_iff in Hs as [Hc Hs]. apply andb_true_iff in Ht as [He Ht].
  injection E as Ehead Etail. f_equal; [|now apply IH].
  apply negb_true_iff in Hc, He.
  destruct (Ascii.eqb c ".") eqn:Ec, (Ascii.eqb e ".") eqn:Ee.
  - apply Ascii.eqb_eq in Ec, Ee. congruence.
  - subst e. rewrite Ascii.eqb_refl in He. discriminate.
  - subst c. rewrite Ascii.eqb_refl in Hc. discriminate.
  - assumption.
Qed.

Lemma createNetworkDeviceId_injective (a b : string) :
  dotted_quad a -> dotted_quad b ->
  createNetworkDeviceId a = createNetworkDeviceId b -> a = b.
Proof.
  intros Ha Hb E. unfold createNetworkDeviceId in E. simpl in E.
  injection E as E.
  apply replace_dots_injective; auto using dotted_quad_no_dash.
Qed.

Lemma prefix_empty (s : string) : String.prefix "" s = true.
Proof. destruct s; reflexivity. Qed.

Lemma createDeviceId_prefix (u : USBDevice) :
  String.prefix "usb-" (createDeviceId u) = true.
Proof. unfold createDeviceId. simpl. apply prefix_empty. Qed.

Lemma createNetworkDeviceId_prefix (address : string) :
  String.prefix "usb-" (createNetworkDeviceId address) = false.
Proof. reflexivity. Qed.

(** The id of a USB device is made of its vendor, product and serial number
    and of nothing else. *)
Lemma createDeviceId_same_identity (u v : USBDevice) :
  same_identity u v -> createDeviceId u = createDeviceId v.
Proof.
  intros (Hv & Hp & Hs). unfold createDeviceId. now rewrite Hv, Hp, Hs.
Qed.

End Identifiers.

(* ------------------------------------------------------------------------- *)
(** * Counting and looking up entries *)
(* ------------------------------------------------------------------------- *)

Section Registry.
Import Js Model DeviceService Spec.

Lemma has_id_true (i : string) (d : Device) : has_id i d = true <-> id d = i.
Proof. unfold has_id. apply String.eqb_eq. Qed.

Lemma has_id_false (i : string) (d : Device) : has_id i d = false <-> id d <> i.
Proof. unfold has_id. apply String.eqb_neq. Qed.

Lemma has_id_own (d : Device) : has_id (id d) d = true.
Proof. apply has_id_true. reflexivity. Qed.

Lemma count_id_app (i : string) (r r' : list Device) :
  count_id i (r ++ r') = count_id i r + count_id i r'.
Proof. unfold count_id. now rewrite filter_app, length_app. Qed.

Lemma count_id_cons (i : string) (d : Device) (r : list Device) :
  count_id i (d :: r) = (if has_id i d then 1 else 0) + count_id i r.
Proof. unfold count_id. simpl. destruct (has_id i d); reflexivity. Qed.

Lemma existsb_count_id (i : string) (r : list Device) :
  existsb (has_id i) r = negb (count_id i r =? 0).
Proof.
  induction r as [|d r IH]; [reflexivity|].
  rewrite count_id_cons. simpl. rewrite IH. destruct (has_id i d); reflexivity.
Qed.

Lemma lookup_none_count (i : string) (r : list Device) :
  lookup i r = None <-> count_id i r = 0.
Proof.
  unfold lookup. induction r as [|d r IH]; simpl; [tauto|].
  rewrite count_id_cons. destruct (has_id i d); simpl.
  - split; [discriminate | lia].
  - exact IH.
Qed.

Lemma lookup_some (i : string) (r : list Device) (d : Device) :
  lookup i r = Some d -> In d r /\ id d = i.
Proof.
  unfold lookup. intros Hf. apply find_some in Hf as [Hin Hid].
  split; [assumption | now apply has_id_true].
Qed.

(** [upsertIfAbsent] leaves at most one entry per id, and exactly one for the
    id it was given. *)
Lemma count_id_upsert (i : string) (d : Device) (r : list Device) :
  count_id i (upsertIfAbsent d r)
  = if has_id i d && (count_id i r =? 0) then 1 else count_id i r.
Proof.
  unfold upsertIfAbsent. rewrite existsb_count_id.
  destruct (has_id i d) eqn:Ei; simpl.
  - apply has_id_true in Ei. subst i.
    destruct (count_id (id d) r =? 0) eqn:E0; simpl; [|reflexivity].
    rewrite count_id_app, count_id_cons, has_id_own.
    apply Nat.eqb_eq in E0. rewrite E0. reflexivity.
  - destruct (count_id (id d) r =? 0); simpl; [|reflexivity].
    rewrite count_id_app, count_id_cons, Ei. change (count_id i []) with 0. lia.
Qed.

Lemma upsert_present (d : Device) (r : list Device) :
  existsb (has_id (id d)) (upsertIfAbsent d r) = true.
Proof.
  rewrite existsb_count_id, count_id_upsert, has_id_own. simpl.
  destruct (count_id (id d) r =? 0) eqn:E0; [reflexivity|].
  now rewrite E0.
Qed.

Lemma upsert_idempotent (d d' : Device) (r : list Device) :
  id d' = id d -> upsertIfAbsent d' (upsertIfAbsent d r) = upsertIfAbsent d r.
Proof.
  intros Hid. unfold upsertIfAbsent at 1. now rewrite Hid, upsert_present.
Qed.

Lemma upsert_at_most_one (d : Device) (r : list Device) :
  (forall i, count_id i r <= 1) -> forall i, count_id i (upsertIfAbsent d r) <= 1.
Proof.
  intros Hr i. rewrite count_id_upsert.
  destruct (has_id i d && (count_id i r =? 0)); [lia | apply Hr].
Qed.

Section OnHost.

Context {H : UsbHost}.

(** [handleConnect] is [upsertIfAbsent] of the mapped device. *)
Lemma handleConnect_devices (raw : handle) (w : World H) :
  devices (after (handleConnect H raw) w)
  = upsertIfAbsent (mapUSBDeviceToDevice raw (look H (usb w) raw)) (devices w).
Proof.
  unfold after, handleConnect, upsertIfAbsent, update_devices, bind, read,
    get_devices, set_devices. simpl.
  destruct (existsb _ (devices w)); reflexivity.
Qed.

Lemma deliver_at_most_one (notifications : list (bus H * handle)) :
  forall w : World H,
    (forall i, count_id i (devices w) <= 1) ->
    forall i, count_id i (devices (deliver notifications w)) <= 1.
Proof.
  induction notifications as [|[b raw] rest IH]; intros w Hw; simpl; [assumption|].
  apply IH. rewrite handleConnect_devices. now apply upsert_at_most_one.
Qed.

End OnHost.

End Registry.

(* ------------------------------------------------------------------------- *)
(** * Connect notifications *)
(* ------------------------------------------------------------------------- *)

Section ConnectNotifications.
Import Js Model DeviceService Spec.

(** C1.  After any sequence of connect notifications, delivering the
    notification of a device and then a notification with the same vendor,
    product and serial number again leaves the device list as the first
    delivery made it, and the list holds exactly one entry with the id derived
    from them. *)
Theorem connect_notification_twice (H : UsbHost) (b0 : bus H)
  (notifications : list (bus H * handle))
  (b : bus H) (raw : handle) (b' : bus H) (again : handle) :
  same_identity (look H b raw) (look H b' again) ->
  let w := deliver notifications (initial H b0) in
  let once := after (handleConnect H raw) (with_usb w b) in
  let twice := after (handleConnect H again) (with_usb once b') in
  devices twice = devices once /\
  count_id (createDeviceId (look H b raw)) (devices twice) = 1.
Proof.
  intros Hsame w once twice.
  assert (Hone : forall i, count_id i (devices w) <= 1).
  { apply deliver_at_most_one. intros i. simpl. unfold count_id. simpl. lia. }
  assert (Eonce : devices once
            = upsertIfAbsent (mapUSBDeviceToDevice raw (look H b raw)) (devices w)).
  { unfold once. now rewrite handleConnect_devices. }
  assert (Etwice : devices twice = devices once).
  { unfold twice. rewrite handleConnect_devices. cbn [with_usb devices usb].
    rewrite Eonce. apply upsert_idempotent. simpl.
    symmetry. now apply createDeviceId_same_identity. }
  split; [exact Etwice|].
  rewrite Etwice, Eonce, count_id_upsert.
  replace (has_id (createDeviceId (look H b raw))
                  (mapUSBDeviceToDevice raw (look H b raw))) with true
    by (symmetry; apply has_id_true; reflexivity).
  simpl. specialize (Hone (createDeviceId (look H b raw))).
  destruct (count_id (createDeviceId (look H b raw)) (devices w) =? 0) eqn:E0;
    [reflexivity|].
  apply Nat.eqb_neq in E0. lia.
Qed.

Lemma connect_notification_twice_witness :
  let H := Fixtures.quiet in
  let w := deliver (H := H) [(tt, 0); (tt, 1)] (initial H tt) in
  let once := after (handleConnect H 0) (with_usb w tt) in
  let twice := after (handleConnect H 1) (with_usb once tt) in
  devices twice = devices once /\
  count_id "usb-1193-6417-0" (devices twice) = 1.
Proof.
  apply (connect_notification_twice Fixtures.quiet tt [(tt, 0); (tt, 1)]
           tt 0 tt 1).
  repeat split.
Defined.

End ConnectNotifications.

(* ------------------------------------------------------------------------- *)
(** * Editing a network device *)
(* ------------------------------------------------------------------------- *)

Section Editing.
Import Js Model DeviceService Spec.

Lemma find_none_all {A} (f : A -> bool) (l : list A) :
  (forall x, In x l -> f x = false) -> find f l = None.
Proof.
  induction l as [|a l IH]; simpl; intros Hall; [reflexivity|].
  rewrite (Hall a) by auto. apply IH. auto.
Qed.

Lemma has_address_true (address : string) (d : Device) :
  has_address address d = true <-> ipAddress d = Some address.
Proof.
  unfold has_address. destruct (ipAddress d) as [a|].
  - rewrite String.eqb_eq. split; congruence.
  - split; discriminate.
Qed.

Context {H : UsbHost}.

(** What [editNetworkDevice] does, by the outcome of its uniqueness check. *)
Lemma editNetworkDevice_run (deviceId : string) (p : NetworkDevicePayload)
  (w : World H) :
  editNetworkDevice H deviceId p w
  = match find (fun d => has_address (ip p) d && negb (has_id deviceId d))
               (devices w) with
    | Some _ => (Threw "Another device with this IP address already exists.", w)
    | None => set_devices H (edited deviceId p (devices w)) w
    end.
Proof.
  unfold editNetworkDevice, bind, get_devices, throw. simpl.
  destruct (find _ (devices w)); reflexivity.
Qed.

Lemma edit_unique (deviceId : string) (p : NetworkDevicePayload) (r : list Device) :
  (forall e, In e r -> has_address (ip p) e = true -> id e = deviceId) ->
  find (fun d => has_address (ip p) d && negb (has_id deviceId d)) r = None.
Proof.
  intros Hu. apply find_none_all. intros e Hin.
  destruct (has_address (ip p) e) eqn:Ea; [|reflexivity].
  simpl. apply negb_false_iff, has_id_true. auto.
Qed.

Lemma editNetworkDevice_accepted (deviceId : string) (p : NetworkDevicePayload)
  (w : World H) :
  (forall e, In e (devices w) -> has_address (ip p) e = true -> id e = deviceId) ->
  result (editNetworkDevice H deviceId p) w = Returned tt /\
  devices (after (editNetworkDevice H deviceId p) w) = edited deviceId p (devices w) /\
  history (after (editNetworkDevice H deviceId p) w)
  = (history w ++ [edited deviceId p (devices w)])%list.
Proof.
  intros Hu. unfold result, after. rewrite editNetworkDevice_run, edit_unique by assumption.
  simpl. auto.
Qed.

(** Rejected or not, the edit writes [edited ...] or nothing. *)
Lemma editNetworkDevice_devices (deviceId : string) (p : NetworkDevicePayload)
  (w : World H) :
  devices (after (editNetworkDevice H deviceId p) w) = devices w \/
  devices (after (editNetworkDevice H deviceId p) w) = edited deviceId p (devices w).
Proof.
  unfold after. rewrite editNetworkDevice_run.
  destruct (find _ (devices w)); simpl; auto.
Qed.

Lemma lookup_edited_old (deviceId : string) (p : NetworkDevicePayload)
  (r : list Device) :
  createNetworkDeviceId (ip p) <> deviceId ->
  lookup deviceId (edited deviceId p r) = None.
Proof.
  intros Hne. unfold lookup, edited. apply find_none_all. intros e Hin.
  apply in_map_iff in Hin as (e0 & <- & _).
  destruct (has_id deviceId e0) eqn:E; [|assumption].
  apply has_id_false. assumption.
Qed.


(** In a well-formed registry an id derived from a fresh valid address is not
    in use. *)
Lemma new_id_fresh (deviceId : string) (p : NetworkDevicePayload) (r : list Device) :
  registry_ok r -> valid_edit deviceId p r ->
  createNetworkDeviceId (ip p) <> deviceId ->
  forall e, In e r -> id e <> createNetworkDeviceId (ip p).
Proof.
  intros Hok [(_ & Hquad & _) Hu] Hne e Hin Hid.
  unfold registry_ok in Hok. rewrite Forall_forall in Hok.
  specialize (Hok e Hin). unfold entry_ok in Hok.
  destruct (connectionType e).
  - destruct Hok as [Hp _]. rewrite Hid, createNetworkDeviceId_prefix in Hp.
    discriminate.
  - destruct Hok as (a & Ha & Hqa & Hida).
    rewrite Hida in Hid. apply createNetworkDeviceId_injective in Hid; auto.
    subst a. apply Hne. rewrite <- Hida. apply Hu; [assumption|].
    now apply has_address_true.
Qed.

(** A network entry of a well-formed registry carries the id of its address. *)
Lemma network_entry_id (r : list Device) (d : Device) (address : string) :
  registry_ok r -> In d r -> connectionType d = Network ->
  ipAddress d = Some address ->
  dotted_quad address /\ id d = createNetworkDeviceId address.
Proof.
  intros Hok Hin Hnet Ha. unfold registry_ok in Hok. rewrite Forall_forall in Hok.
  specialize (Hok d Hin). unfold entry_ok in Hok. rewrite Hnet in Hok.
  destruct Hok as (a & Ha' & Hq & Hid). rewrite Ha in Ha'. injection Ha' as <-.
  auto.
Qed.

End Editing.

Section EditingClaims.
Import Js Model DeviceService Spec.


End EditingClaims.

Section EditingWitnesses.
Import Js Model DeviceService Spec.

Lemma dotted_quad_by_test (s : string) :
  Regex.test AppComponent.ip_pattern s = true -> dotted_quad s.
Proof. apply test_ip_pattern. Qed.

Lemma office_scanner_valid : valid_payload Fixtures.office_scanner.
Proof.
  repeat split; try discriminate.
  - apply dotted_quad_by_test. reflexivity.
  - exists 80%Z. split; [reflexivity | lia].
Qed.

Lemma office_scanner_moved_valid : valid_payload Fixtures.office_scanner_moved.
Proof.
  repeat split; try discriminate.
  - apply dotted_quad_by_test. reflexivity.
  - exists 9100%Z. split; [reflexivity | lia].
Qed.

Lemma office_registry_ok : registry_ok [newNetworkDevice Fixtures.office_scanner].
Proof.
  constructor; [|constructor].
  exists "192.168.1.150". repeat split. apply dotted_quad_by_test. reflexivity.
Qed.


End EditingWitnesses.

Section Identity.
Import Js Model DeviceService Spec.

Lemma map_id_edited_same (deviceId : string) (p : NetworkDevicePayload)
  (r : list Device) :
  createNetworkDeviceId (ip p) = deviceId ->
  map id (edited deviceId p r) = map id r.
Proof.
  intros Hsame. unfold edited. rewrite map_map. apply map_ext. intros e.
  destruct (has_id deviceId e) eqn:E; [|reflexivity].
  apply has_id_true in E. simpl. congruence.
Qed.

(** C9.  The id of a network device is a function of the address alone: equal
    addresses give equal ids, whatever the port and the profile; an edit of a
    network device that keeps the address keeps every id of the registry; an
    edit to another address gives the entry another id. *)
Theorem network_id_depends_on_address_only :
  (forall a b : string, a = b -> createNetworkDeviceId a = createNetworkDeviceId b) /\
  (forall p q : NetworkDevicePayload,
     ip p = ip q -> id (newNetworkDevice p) = id (newNetworkDevice q)) /\
  (forall (H : UsbHost) (w : World H) (deviceId : string) (d : Device)
          (p : NetworkDevicePayload) (address : string),
     registry_ok (devices w) ->
     lookup deviceId (devices w) = Some d ->
     connectionType d = Network ->
     ipAddress d = Some address ->
     let w' := after (editNetworkDevice H deviceId p) w in
     (ip p = address ->
      result (editNetworkDevice H deviceId p) w = Returned tt /\
      map id (devices w') = map id (devices w) /\
      id (editedDevice d p) = id d) /\
     (valid_edit deviceId p (devices w) -> ip p <> address ->
      result (editNetworkDevice H deviceId p) w = Returned tt /\
      In (editedDevice d p) (devices w') /\
      id (editedDevice d p) <> id d)).
Proof.
  split; [intros a b ->; reflexivity|].
  split; [intros p q E; simpl; now rewrite E|].
  intros H w deviceId d p address Hok Hl Hnet Ha w'.
  destruct (lookup_some _ _ _ Hl) as [Hin Hid].
  destruct (network_entry_id _ _ _ Hok Hin Hnet Ha) as [Hq Hidd].
  split.
  - intros Hip.
    assert (Hu : forall e, In e (devices w) -> has_address (ip p) e = true ->
                           id e = deviceId).
    { intros e He Hae. apply has_address_true in Hae. rewrite Hip in Hae.
      unfold registry_ok in Hok. rewrite Forall_forall in Hok.
      specialize (Hok e He). unfold entry_ok in Hok.
      destruct (connectionType e).
      - destruct Hok as [_ Hnone]. congruence.
      - destruct Hok as (a & Ha' & _ & Hida). congruence. }
    destruct (editNetworkDevice_accepted deviceId p w Hu) as (Hr & Hd & _).
    fold w' in Hd. rewrite Hd. repeat split.
    + assumption.
    + apply map_id_edited_same. congruence.
    + simpl. congruence.
  - intros Hv Hne.
    destruct (editNetworkDevice_accepted deviceId p w (proj2 Hv)) as (Hr & Hd & _).
    fold w' in Hd. rewrite Hd. repeat split.
    + assumption.
    + unfold edited. apply in_map_iff. exists d. split; [|assumption].
      replace (has_id deviceId d) with true
        by (symmetry; now apply has_id_true). reflexivity.
    + simpl. rewrite Hidd. intros E.
      apply createNetworkDeviceId_injective in E; [auto | apply Hv | assumption].
Qed.

Lemma network_id_depends_on_address_only_witness :
  let H := Fixtures.quiet in
  let w := after (await_addNetworkDevice H Fixtures.office_scanner) (initial H tt) in
  let d := newNetworkDevice Fixtures.office_scanner in
  (map id (devices (after (editNetworkDevice H "net-192-168-1-150"
                             Fixtures.office_printer) w))
   = map id (devices w)) /\
  id (editedDevice d Fixtures.office_scanner_moved) <> id d.
Proof.
  intros H w d.
  destruct network_id_depends_on_address_only as (_ & _ & Hedit).
  destruct (Hedit H w "net-192-168-1-150" d Fixtures.office_printer
              "192.168.1.150" office_registry_ok eq_refl eq_refl eq_refl)
    as [Hsame _].
  destruct (Hedit H w "net-192-168-1-150" d Fixtures.office_scanner_moved
              "192.168.1.150" office_registry_ok eq_refl eq_refl eq_refl)
    as [_ Hmoved].
  split.
  - apply Hsame. reflexivity.
  - apply Hmoved.
    + split; [exact office_scanner_moved_valid|].
      intros e [<- | []]. discriminate.
    + discriminate.
Defined.

(** C10.  An edit leaves the list as long as it was and, entry by entry,
    status, manufacturer, connection type, device type and hardware handle as
    they were; entries with another id are untouched.  The type is not
    inferred again: with port 9100 in the payload a Scanner stays a Scanner,
    where adding a device with that payload gives a Printer. *)
Theorem edit_keeps_other_fields (H : UsbHost) (w : World H)
  (deviceId : string) (p : NetworkDevicePayload) :
  let w' := after (editNetworkDevice H deviceId p) w in
  map frame (devices w') = map frame (devices w) /\
  (forall n d, nth_error (devices w) n = Some d ->
     exists d', nth_error (devices w') n = Some d' /\
       status d' = status d /\ manufacturer d' = manufacturer d /\
       connectionType d' = connectionType d /\ type d' = type d /\
       rawDevice d' = rawDevice d /\ (id d <> deviceId -> d' = d)) /\
  (DeviceService.port p = Int 9100 ->
   type (newNetworkDevice p) = Printer /\
   forall d, type d = Scanner -> type (editedDevice d p) = Scanner).
Proof.
  intros w'. split; [|split].
  - destruct (editNetworkDevice_devices deviceId p w) as [E | E];
      fold w' in E; rewrite E; [reflexivity|].
    unfold edited. rewrite map_map. apply map_ext. intros e.
    destruct (has_id deviceId e); reflexivity.
  - intros n d Hn.
    destruct (editNetworkDevice_devices deviceId p w) as [E | E];
      fold w' in E; rewrite E.
    + exists d. repeat split; auto.
    + unfold edited. rewrite nth_error_map, Hn. simpl.
      destruct (has_id deviceId d) eqn:Ed.
      * exists (editedDevice d p). repeat split.
        intros Hne. apply has_id_true in Ed. contradiction.
      * exists d. repeat split.
  - intros Hport. split.
    + simpl. rewrite Hport. reflexivity.
    + intros d Hd. exact Hd.
Qed.

Lemma edit_keeps_other_fields_witness :
  let H := Fixtures.quiet in
  let w := after (await_addNetworkDevice H Fixtures.office_scanner) (initial H tt) in
  let w' := after (editNetworkDevice H "net-192-168-1-150"
                     Fixtures.office_scanner_moved) w in
  map type (devices w) = [Scanner] /\
  map type (devices w') = [Scanner] /\
  type (newNetworkDevice Fixtures.office_scanner_moved) = Printer.
Proof.
  intros H w w'.
  destruct (edit_keeps_other_fields H w "net-192-168-1-150"
              Fixtures.office_scanner_moved) as (_ & Hnth & Hport).
  destruct (Hnth 0 (newNetworkDevice Fixtures.office_scanner) eq_refl)
    as (d' & Hd' & _ & _ & _ & Ht & _).
  destruct (Hport eq_refl) as [Hprinter _].
  repeat split; assumption || reflexivity.
Defined.

End Identity.

(* ------------------------------------------------------------------------- *)
(** * Adding a network device *)
(* ------------------------------------------------------------------------- *)

Section Adding.
Import Js Model DeviceService Spec.

Lemma find_none_filter {A} (f : A -> bool) (l : list A) :
  find f l = None <-> List.length (filter f l) = 0.
Proof.
  induction l as [|a l IH]; simpl; [tauto|].
  destruct (f a); simpl; [split; [discriminate | lia] | exact IH].
Qed.

Lemma count_address_app (address : string) (r r' : list Device) :
  count_address address (r ++ r') = count_address address r + count_address address r'.
Proof. unfold count_address. now rewrite filter_app, length_app. Qed.

Lemma count_address_new (p : NetworkDevicePayload) :
  count_address (ip p) [newNetworkDevice p] = 1.
Proof.
  unfold count_address. simpl. unfold has_address. simpl.
  now rewrite String.eqb_refl.
Qed.

Context {H : UsbHost}.

(** What the call of [addNetworkDevice] does, by the outcome of its check. *)
Lemma addNetworkDevice_run (p : NetworkDevicePayload) (w : World H) :
  addNetworkDevice H p w
  = match find (has_address (ip p)) (devices w) with
    | Some _ => (Threw "Device with this IP address already exists.", w)
    | None => setTimeout H p w
    end.
Proof.
  unfold addNetworkDevice, bind, get_devices, throw. simpl.
  destruct (find _ (devices w)); reflexivity.
Qed.

(** An awaited call that is accepted inserts the new device, and nothing
    else when no other call is pending. *)
Lemma await_addNetworkDevice_accepted (p : NetworkDevicePayload) (w : World H) :
  timers w = [] ->
  find (has_address (ip p)) (devices w) = None ->
  result (await_addNetworkDevice H p) w = Returned (newNetworkDevice p) /\
  devices (after (await_addNetworkDevice H p) w)
  = (devices w ++ [newNetworkDevice p])%list /\
  timers (after (await_addNetworkDevice H p) w) = [].
Proof.
  intros Ht Hf. unfold result, after, await_addNetworkDevice.
  rewrite addNetworkDevice_run, Hf. unfold setTimeout, run_timers. simpl.
  rewrite Ht. simpl. auto.
Qed.

End Adding.

Section AddingClaims.
Import Js Model DeviceService Spec.

(** C3, as the code has it.  When no add is pending and an awaited
    [addNetworkDevice] has been fulfilled, a second call with the same
    address is rejected with "Device with this IP address already exists.",
    changes nothing, and the registry holds exactly one entry with that
    address. *)
Theorem second_add_after_first_settled (H : UsbHost) (w : World H)
  (p : NetworkDevicePayload) :
  timers w = [] ->
  result (await_addNetworkDevice H p) w = Returned (newNetworkDevice p) ->
  let w1 := after (await_addNetworkDevice H p) w in
  result (addNetworkDevice H p) w1
  = Threw "Device with this IP address already exists." /\
  after (addNetworkDevice H p) w1 = w1 /\
  count_address (ip p) (devices w1) = 1.
Proof.
  intros Ht Hfirst w1.
  assert (Hf : find (has_address (ip p)) (devices w) = None).
  { unfold result, await_addNetworkDevice in Hfirst.
    rewrite addNetworkDevice_run in Hfirst.
    destruct (find (has_address (ip p)) (devices w)); [discriminate | reflexivity]. }
  destruct (await_addNetworkDevice_accepted p w Ht Hf) as (_ & Hd & _).
  fold w1 in Hd.
  assert (Hc : count_address (ip p) (devices w1) = 1).
  { rewrite Hd, count_address_app, count_address_new.
    apply find_none_filter in Hf. unfold count_address. lia. }
  assert (Hsome : exists e, find (has_address (ip p)) (devices w1) = Some e).
  { destruct (find (has_address (ip p)) (devices w1)) eqn:E; [eauto|].
    apply find_none_filter in E. unfold count_address in Hc. lia. }
  destruct Hsome as [e He].
  unfold result, after. rewrite addNetworkDevice_run, He. simpl. auto.
Qed.

Lemma second_add_after_first_settled_witness :
  let H := Fixtures.quiet in
  let w1 := after (await_addNetworkDevice H Fixtures.office_printer) (initial H tt) in
  result (addNetworkDevice H Fixtures.office_printer) w1
  = Threw "Device with this IP address already exists." /\
  after (addNetworkDevice H Fixtures.office_printer) w1 = w1 /\
  count_address "192.168.1.150" (devices w1) = 1.
Proof.
  apply (second_add_after_first_settled Fixtures.quiet
           (initial Fixtures.quiet tt) Fixtures.office_printer);
    reflexivity.
Defined.

(** C3, as stated, fails: a second [addNetworkDevice] called right after the
    first, while the timer of the first is pending, passes the check; both
    timers run, and the registry holds two entries with the address. *)
Lemma second_add_while_first_pending :
  let H := Fixtures.quiet in
  let p := Fixtures.office_printer in
  let w1 := after (addNetworkDevice H p) (initial H tt) in
  let w2 := after (addNetworkDevice H p) w1 in
  valid_payload p /\
  result (addNetworkDevice H p) w1 = Returned tt /\
  count_address (ip p) (devices (run_timers H w2)) = 2 /\
  ~ (result (addNetworkDevice H p) w1
     = Threw "Device with this IP address already exists." /\
     count_address (ip p) (devices (run_timers H w2)) = 1).
Proof.
  repeat split; try discriminate.
  - apply dotted_quad_by_test. reflexivity.
  - exists 9100%Z. split; [reflexivity | lia].
  - intros [Hthrew _]. discriminate.
Qed.

End AddingClaims.

(* ------------------------------------------------------------------------- *)
(** * Connecting and disconnecting *)
(* ------------------------------------------------------------------------- *)

Section Connecting.
Import Js Model DeviceService Spec.

Lemma has_id_with_status (i : string) (d : Device) (s : DeviceStatus) :
  has_id i (with_status d s) = has_id i d.
Proof. reflexivity. Qed.

(** Marking a status keeps every entry under its id. *)
Lemma count_id_mark (i deviceId : string) (s : DeviceStatus) (r : list Device) :
  count_id i (mark deviceId s r) = count_id i r.
Proof.
  unfold mark. induction r as [|d r IH]; [reflexivity|].
  simpl map. rewrite !count_id_cons, IH.
  destruct (has_id deviceId d); reflexivity.
Qed.

Lemma lookup_mark (deviceId : string) (s : DeviceStatus) (r : list Device)
  (d : Device) :
  lookup deviceId r = Some d ->
  lookup deviceId (mark deviceId s r) = Some (with_status d s).
Proof.
  unfold lookup, mark. induction r as [|e r IH]; simpl; [discriminate|].
  destruct (has_id deviceId e) eqn:E.
  - intros [= ->]. simpl. now rewrite has_id_with_status, E.
  - rewrite E. exact IH.
Qed.

Lemma mark_status (deviceId : string) (s : DeviceStatus) (r : list Device)
  (d : Device) :
  In d (mark deviceId s r) -> id d = deviceId -> status d = s.
Proof.
  unfold mark. intros Hin Hid. apply in_map_iff in Hin as (e & <- & _).
  destruct (has_id deviceId e) eqn:E; [reflexivity|].
  apply has_id_false in E. contradiction.
Qed.

Context {H : UsbHost}.

(** [connectDevice] on a USB device with a handle whose connect sequence
    fails. *)
Lemma connectDevice_caught (w : World H) (deviceId : string) (device : Device)
  (raw : handle) (cause : string) :
  lookup deviceId (devices w) = Some device ->
  connectionType device = USB ->
  rawDevice device = Some raw ->
  connect_fails raw w cause ->
  result (connectDevice H deviceId) w
  = Threw ("Connection failed: " ++ cause ++
           ". The device might be in use by another application.") /\
  devices (after (connectDevice H deviceId) w) = mark deviceId Error (devices w).
Proof.
  unfold lookup. intros Hl Husb Hraw Hfail.
  unfold result, after, connectDevice, bind, get_devices, try_catch, open, await,
    read, selectConfiguration.
  cbn beta. rewrite Hl, Husb, Hraw.
  destruct Hfail as [Hopen | (b & first & rest & Hopen & Hnone & Hconfs & Hsel)].
  - unfold open_fails in Hopen.
    destruct (host_open H raw (usb w)) as [o b]. simpl in Hopen. subst o.
    split; reflexivity.
  - rewrite Hopen. cbn [usb].
    rewrite Hnone, Hconfs. unfold await. cbn [usb].
    destruct (host_selectConfiguration H raw (configurationValue first) b)
      as [o b']. simpl in Hsel. subst o.
    split; reflexivity.
Qed.

End Connecting.

Section ConnectingClaims.
Import Js Model DeviceService Spec.

(** C4.  For a USB device of the registry with a hardware handle, when
    [open()] is rejected, or [selectConfiguration()] after it, [connectDevice]
    is rejected with "Connection failed: <cause>. ...", every entry with the
    id has status Error, and each id has as many entries as before: where the
    id had exactly one entry it still has exactly one. *)
Theorem connect_failure_marks_error (H : UsbHost) (w : World H)
  (deviceId : string) (device : Device) (raw : handle) (cause : string) :
  lookup deviceId (devices w) = Some device ->
  connectionType device = USB ->
  rawDevice device = Some raw ->
  connect_fails raw w cause ->
  let w' := after (connectDevice H deviceId) w in
  result (connectDevice H deviceId) w
  = Threw ("Connection failed: " ++ cause ++
           ". The device might be in use by another application.") /\
  lookup deviceId (devices w') = Some (with_status device Error) /\
  (forall d, In d (devices w') -> id d = deviceId -> status d = Error) /\
  (forall i, count_id i (devices w') = count_id i (devices w)) /\
  (count_id deviceId (devices w) = 1 -> count_id deviceId (devices w') = 1).
Proof.
  intros Hl Husb Hraw Hfail w'.
  destruct (connectDevice_caught w deviceId device raw cause Hl Husb Hraw Hfail)
    as [Hr Hd].
  fold w' in Hd. rewrite Hd. repeat split.
  - assumption.
  - now apply lookup_mark.
  - intros d. apply mark_status.
  - intros i. apply count_id_mark.
  - now rewrite count_id_mark.
Qed.

Lemma connect_failure_marks_error_witness :
  (let H := Fixtures.locked in
   let w := deliver (H := H) [(tt, 0)] (initial H tt) in
   result (connectDevice H "usb-1193-6417-0") w
   = Threw "Connection failed: Access denied.. The device might be in use by another application." /\
   map status (devices (after (connectDevice H "usb-1193-6417-0") w)) = [Error]) /\
  (let H := Fixtures.unconfigurable in
   let w := deliver (H := H) [(tt, 0)] (initial H tt) in
   result (connectDevice H "usb-1193-6417-0") w
   = Threw "Connection failed: Access denied.. The device might be in use by another application." /\
   count_id "usb-1193-6417-0" (devices (after (connectDevice H "usb-1193-6417-0") w)) = 1).
Proof.
  split.
  - intros H w.
    destruct (connect_failure_marks_error H w "usb-1193-6417-0"
                (mapUSBDeviceToDevice 0 Fixtures.scanner_closed) 0 "Access denied."
                eq_refl eq_refl eq_refl (or_introl eq_refl))
      as (Hr & _).
    split; [exact Hr | reflexivity].
  - intros H w.
    assert (Hsel : connect_fails 0 w "Access denied.").
    { right. exists tt, Fixtures.first_configuration, []. repeat split. }
    destruct (connect_failure_marks_error H w "usb-1193-6417-0"
                (mapUSBDeviceToDevice 0 Fixtures.scanner_closed) 0 "Access denied."
                eq_refl eq_refl eq_refl Hsel)
      as (Hr & _ & _ & _ & Hone).
    split; [exact Hr | apply Hone; reflexivity].
Defined.

End ConnectingClaims.

Section DisconnectingClaims.
Import Js Model DeviceService Spec.

(** C8, as the code has it.  On an open USB device whose active configuration
    exposes an interface, a rejected [releaseInterface()] ends the
    disconnect: the failure is logged, [close()] is not called, every entry
    with the id gets status Error, and [disconnectDevice] is rejected with
    "Failed to disconnect cleanly.". *)
Theorem release_failure_fails_disconnect (H : UsbHost) (w : World H)
  (deviceId : string) (device : Device) (raw : handle) (number : N)
  (cause : string) :
  lookup deviceId (devices w) = Some device ->
  connectionType device = USB ->
  rawDevice device = Some raw ->
  release_fails raw w number cause ->
  let w' := after (disconnectDevice H deviceId) w in
  result (disconnectDevice H deviceId) w = Threw "Failed to disconnect cleanly." /\
  devices w' = mark deviceId Error (devices w) /\
  calls w' = (calls w ++ [CallReleaseInterface raw number])%list /\
  console w' = (console w ++ [("Failed to disconnect device: " ++ cause)%string])%list.
Proof.
  unfold lookup.
  intros Hl Husb Hraw (Hopened & (active & first & rest & Hact & Hifs & Hnum) & Hrel).
  unfold result, after, disconnectDevice, bind, get_devices, try_catch,
    releaseInterface, await, read.
  cbn beta. rewrite Hl, Husb, Hraw. cbn [usb]. rewrite Hopened. cbn [negb].
  rewrite Hact, Hifs, Hnum.
  destruct (host_releaseInterface H raw number (usb w)) as [o b].
  simpl in Hrel. subst o. repeat split.
Qed.

Lemma release_failure_fails_disconnect_witness :
  let H := Fixtures.stuck_interface in
  let w := deliver (H := H) [(tt, 0)] (initial H tt) in
  let w' := after (disconnectDevice H "usb-1193-6417-0") w in
  result (disconnectDevice H "usb-1193-6417-0") w
  = Threw "Failed to disconnect cleanly." /\
  devices w' = mark "usb-1193-6417-0" Error (devices w) /\
  calls w' = [CallReleaseInterface 0 0] /\
  console w' = ["Failed to disconnect device: Access denied."].
Proof.
  intros H w.
  apply (release_failure_fails_disconnect H w "usb-1193-6417-0"
           (mapUSBDeviceToDevice 0 Fixtures.scanner_open) 0 0%N "Access denied.");
    try reflexivity.
  split; [reflexivity|]. split; [|reflexivity].
  exists Fixtures.first_configuration, Fixtures.bulk_interface, [].
  repeat split.
Defined.

(** C8, as stated, fails: on the open scanner whose interface cannot be
    released, the disconnect is rejected, the handle is never closed and the
    status is Error, not Ready. *)
Lemma release_failure_is_not_swallowed :
  let H := Fixtures.stuck_interface in
  let w := deliver (H := H) [(tt, 0)] (initial H tt) in
  let w' := after (disconnectDevice H "usb-1193-6417-0") w in
  map status (devices w) = [Connected] /\
  result (disconnectDevice H "usb-1193-6417-0") w
  = Threw "Failed to disconnect cleanly." /\
  ~ In (CallClose 0) (calls w') /\
  map status (devices w') = [Error] /\
  ~ (result (disconnectDevice H "usb-1193-6417-0") w = Returned tt /\
     In (CallClose 0) (calls w') /\
     map status (devices w') = [Ready]).
Proof.
  repeat split.
  - intros [Hc | []]. discriminate.
  - intros (Hr & _). discriminate.
Qed.

End DisconnectingClaims.

(* ------------------------------------------------------------------------- *)
(** * What every reachable registry satisfies *)
(* ------------------------------------------------------------------------- *)

Section Invariants.
Import Js Model DeviceService Spec.

Lemma entry_ok_with_status (d : Device) (s : DeviceStatus) :
  entry_ok d -> entry_ok (with_status d s).
Proof. intros Hd. exact Hd. Qed.

Lemma entry_ok_usb (raw : handle) (u : USBDevice) :
  entry_ok (mapUSBDeviceToDevice raw u).
Proof. split; [apply createDeviceId_prefix | reflexivity]. Qed.

Lemma entry_ok_new (p : NetworkDevicePayload) :
  valid_payload p -> entry_ok (newNetworkDevice p).
Proof. intros (_ & Hq & _). exists (ip p). auto. Qed.

Lemma registry_ok_app (r r' : list Device) :
  registry_ok r -> registry_ok r' -> registry_ok (r ++ r').
Proof. unfold registry_ok. intros. apply Forall_app. auto. Qed.

Lemma registry_ok_upsert (d : Device) (r : list Device) :
  entry_ok d -> registry_ok r -> registry_ok (upsertIfAbsent d r).
Proof.
  intros Hd Hr. unfold upsertIfAbsent. destruct (existsb _ r); [assumption|].
  apply registry_ok_app; [assumption | now constructor].
Qed.

Lemma registry_ok_mark (deviceId : string) (s : DeviceStatus) (r : list Device) :
  registry_ok r -> registry_ok (mark deviceId s r).
Proof.
  unfold registry_ok, mark. intros Hr. apply Forall_map.
  eapply Forall_impl; [|exact Hr]. intros d Hd.
  destruct (has_id deviceId d); [now apply entry_ok_with_status | assumption].
Qed.

(** A USB entry and a network entry never share an id. *)
Lemma usb_network_ids_differ (d e : Device) :
  entry_ok d -> entry_ok e ->
  connectionType d = USB -> connectionType e = Network -> id d <> id e.
Proof.
  unfold entry_ok. intros Hd He Hu Hn E. rewrite Hu in Hd. rewrite Hn in He.
  destruct Hd as [Hp _]. destruct He as (a & _ & _ & Hid).
  rewrite E, Hid, createNetworkDeviceId_prefix in Hp. discriminate.
Qed.

Lemma registry_ok_edited (d : Device) (p : NetworkDevicePayload) (r : list Device) :
  registry_ok r -> In d r -> connectionType d = Network -> valid_payload p ->
  registry_ok (edited (id d) p r).
Proof.
  unfold registry_ok, edited. intros Hr Hin Hnet (_ & Hq & _).
  apply Forall_map. rewrite Forall_forall in Hr |- *. intros e He.
  destruct (has_id (id d) e) eqn:E; [|auto].
  apply has_id_true in E. unfold entry_ok. simpl.
  destruct (connectionType e) eqn:Ce.
  - exfalso. apply (usb_network_ids_differ e d); auto.
  - exists (ip p). auto.
Qed.

Lemma network_ready_app (r r' : list Device) :
  network_ready r -> network_ready r' -> network_ready (r ++ r').
Proof.
  unfold network_ready. intros Hr Hr' d Hin. apply in_app_iff in Hin as [Hin | Hin]; auto.
Qed.

Lemma network_ready_upsert (raw : handle) (u : USBDevice) (r : list Device) :
  network_ready r -> network_ready (upsertIfAbsent (mapUSBDeviceToDevice raw u) r).
Proof.
  intros Hr. unfold upsertIfAbsent. destruct (existsb _ r); [assumption|].
  apply network_ready_app; [assumption|].
  intros d [<- | []]. discriminate.
Qed.

Lemma network_ready_edited (deviceId : string) (p : NetworkDevicePayload)
  (r : list Device) :
  network_ready r -> network_ready (edited deviceId p r).
Proof.
  unfold network_ready, edited. intros Hr d Hin Hnet.
  apply in_map_iff in Hin as (e & <- & He).
  destruct (has_id deviceId e); [|auto]. simpl in *. auto.
Qed.

(** Marking the entries under the id of a USB device leaves the network
    devices alone. *)
Lemma network_ready_mark (deviceId : string) (s : DeviceStatus) (r : list Device)
  (device : Device) :
  registry_ok r -> network_ready r ->
  lookup deviceId r = Some device -> connectionType device = USB ->
  network_ready (mark deviceId s r).
Proof.
  unfold network_ready, mark. intros Hok Hr Hl Husb d Hin Hnet.
  apply in_map_iff in Hin as (e & <- & He).
  destruct (lookup_some _ _ _ Hl) as [Hdev Hid].
  unfold registry_ok in Hok. rewrite Forall_forall in Hok.
  destruct (has_id deviceId e) eqn:E; [|auto].
  exfalso. apply has_id_true in E.
  apply (usb_network_ids_differ device e); auto. congruence.
Qed.

Context {H : UsbHost}.

(** [connectDevice] and [disconnectDevice] write nothing but a status on the
    entries under the id of a USB device, and set no timer. *)
Lemma connectDevice_writes (deviceId : string) (w : World H) :
  timers (after (connectDevice H deviceId) w) = timers w /\
  (devices (after (connectDevice H deviceId) w) = devices w \/
   exists device s,
     lookup deviceId (devices w) = Some device /\ connectionType device = USB /\
     devices (after (connectDevice H deviceId) w) = mark deviceId s (devices w)).
Proof.
  unfold lookup, after, connectDevice, bind, get_devices, try_catch, open, await,
    read, selectConfiguration.
  cbn beta. destruct (find (has_id deviceId) (devices w)) as [device|] eqn:Hl;
    [|simpl; auto].
  destruct (connectionType device) eqn:Hc; [|simpl; auto].
  destruct (rawDevice device) as [raw|]; [|simpl; auto].
  destruct (host_open H raw (usb w)) as [[|e] b]; cbn [usb];
    [|split; [reflexivity | right; exists device, Error; auto]].
  destruct (configuration (look H b raw));
    [split; [reflexivity | right; exists device, Connected; auto]|].
  destruct (configurations (look H b raw)) as [|first rest];
    [split; [reflexivity | right; exists device, Connected; auto]|].
  unfold await. cbn [usb].
  destruct (host_selectConfiguration H raw (configurationValue first) b)
    as [[|e] b'].
  - split; [reflexivity | right; exists device, Connected; auto].
  - split; [reflexivity | right; exists device, Error; auto].
Qed.

Lemma disconnectDevice_writes (deviceId : string) (w : World H) :
  timers (after (disconnectDevice H deviceId) w) = timers w /\
  (devices (after (disconnectDevice H deviceId) w) = devices w \/
   exists device s,
     lookup deviceId (devices w) = Some device /\ connectionType device = USB /\
     devices (after (disconnectDevice H deviceId) w) = mark deviceId s (devices w)).
Proof.
  unfold lookup, after, disconnectDevice, bind, get_devices, try_catch, close,
    releaseInterface, await, read.
  cbn beta. destruct (find (has_id deviceId) (devices w)) as [device|] eqn:Hl;
    [|simpl; auto].
  destruct (connectionType device) eqn:Hc; [|simpl; auto].
  destruct (rawDevice device) as [raw|]; [|simpl; auto].
  cbn [usb]. destruct (opened (look H (usb w) raw)); [|simpl; auto].
  cbn [negb].
  destruct (configuration (look H (usb w) raw)) as [active|].
  - destruct (interfaces active) as [|first rest].
    + cbn [ret]. destruct (host_close H raw (usb w)) as [[|e] b].
      * split; [reflexivity | right; exists device, Ready; auto].
      * split; [reflexivity | right; exists device, Error; auto].
    + destruct (host_releaseInterface H raw (interfaceNumber first) (usb w))
        as [[|e] b]; cbn [usb].
      * destruct (host_close H raw b) as [[|e] b'].
        -- split; [reflexivity | right; exists device, Ready; auto].
        -- split; [reflexivity | right; exists device, Error; auto].
      * split; [reflexivity | right; exists device, Error; auto].
  - cbn [ret]. destruct (host_close H raw (usb w)) as [[|e] b].
    + split; [reflexivity | right; exists device, Ready; auto].
    + split; [reflexivity | right; exists device, Error; auto].
Qed.

(** Every reachable world has a well-formed registry in which the network
    devices are Ready, and only validated payloads wait on timers. *)
Lemma reachable_invariant (w : World H) :
  reachable w ->
  registry_ok (devices w) /\ network_ready (devices w) /\
  Forall valid_payload (timers w).
Proof.
  induction 1 as [b | w b _ IH | w _ IH | w raw _ IH | w raw _ IH | w p _ IH Hp
                 | w d w' _ IH Hrun | w d p _ IH Hp Hin Hnet
                 | w deviceId _ IH | w deviceId _ IH].
  - repeat split; [constructor | intros d [] | constructor].
  - exact IH.
  - destruct IH as (Hok & Hready & Ht). repeat split; [| |exact Ht].
    + apply registry_ok_app; [assumption|].
      apply Forall_map, Forall_forall. intros raw _. apply entry_ok_usb.
    + apply network_ready_app; [assumption|].
      intros d Hd. apply in_map_iff in Hd as (raw & <- & _). discriminate.
  - destruct IH as (Hok & Hready & Ht). rewrite handleConnect_devices.
    repeat split; [| |exact Ht].
    + apply registry_ok_upsert; [apply entry_ok_usb | assumption].
    + now apply network_ready_upsert.
  - destruct IH as (Hok & Hready & Ht). repeat split; [| |exact Ht].
    + apply Forall_forall. intros d Hd. apply filter_In in Hd as [Hd _].
      unfold registry_ok in Hok. rewrite Forall_forall in Hok. auto.
    + intros d Hd. apply filter_In in Hd as [Hd _]. auto.
  - destruct IH as (Hok & Hready & Ht). unfold after.
    rewrite addNetworkDevice_run.
    destruct (find _ (devices w)); [auto|].
    repeat split; [assumption | assumption|].
    apply Forall_app. split; [assumption | now constructor].
  - destruct IH as (Hok & Hready & Ht). unfold run_timer in Hrun.
    destruct (timers w) as [|p rest]; [discriminate|].
    injection Hrun as _ <-. inversion Ht as [|p0 rest0 Hp Hrest]; subst.
    repeat split; [| |exact Hrest].
    + apply registry_ok_app; [assumption|].
      constructor; [now apply entry_ok_new | constructor].
    + apply network_ready_app; [assumption|].
      intros e [<- | []]. reflexivity.
  - destruct IH as (Hok & Hready & Ht).
    assert (Htimers : timers (after (editNetworkDevice H (id d) p) w) = timers w).
    { unfold after. rewrite editNetworkDevice_run.
      destruct (find _ (devices w)); reflexivity. }
    rewrite Htimers.
    destruct (editNetworkDevice_devices (id d) p w) as [E | E]; rewrite E.
    + auto.
    + repeat split; [| |exact Ht].
      * now apply registry_ok_edited.
      * now apply network_ready_edited.
  - destruct IH as (Hok & Hready & Ht).
    destruct (connectDevice_writes deviceId w)
      as [Htimers [E | (device & s & Hl & Husb & E)]]; rewrite Htimers, E.
    + auto.
    + repeat split; [| |exact Ht].
      * now apply registry_ok_mark.
      * now apply network_ready_mark with (device := device).
  - destruct IH as (Hok & Hready & Ht).
    destruct (disconnectDevice_writes deviceId w)
      as [Htimers [E | (device & s & Hl & Husb & E)]]; rewrite Htimers, E.
    + auto.
    + repeat split; [| |exact Ht].
      * now apply registry_ok_mark.
      * now apply network_ready_mark with (device := device).
Qed.

End Invariants.

Section NetworkStatus.
Import Js Model DeviceService Spec.

(** C5.  A network device is Ready when [addNetworkDevice] inserts it; an
    edit keeps the status and the connection type of every entry; on a
    network device [connectDevice] only writes a line to the console and
    returns, and [disconnectDevice] returns and changes nothing at all; and
    in every world the application can reach, every network device is
    Ready. *)
Theorem network_device_always_ready (H : UsbHost) :
  (forall (p : NetworkDevicePayload) (w : World H),
     status (newNetworkDevice p) = Ready /\
     connectionType (newNetworkDevice p) = Network /\
     devices (after (addNetworkDevice_timeout H p) w)
     = (devices w ++ [newNetworkDevice p])%list) /\
  (forall (w : World H) (deviceId : string) (p : NetworkDevicePayload),
     map status (devices (after (editNetworkDevice H deviceId p) w))
     = map status (devices w) /\
     map connectionType (devices (after (editNetworkDevice H deviceId p) w))
     = map connectionType (devices w)) /\
  (forall (w : World H) (deviceId : string) (d : Device),
     lookup deviceId (devices w) = Some d -> connectionType d = Network ->
     result (connectDevice H deviceId) w = Returned tt /\
     after (connectDevice H deviceId) w
     = after (console_log H "Connect action is only for USB devices.") w /\
     devices (after (connectDevice H deviceId) w) = devices w /\
     result (disconnectDevice H deviceId) w = Returned tt /\
     after (disconnectDevice H deviceId) w = w) /\
  (forall w : World H, reachable w -> network_ready (devices w)).
Proof.
  split; [|split; [|split]].
  - intros p w. repeat split.
  - intros w deviceId p.
    destruct (editNetworkDevice_devices deviceId p w) as [E | E]; rewrite E;
      [auto|].
    unfold edited. rewrite !map_map.
    split; apply map_ext; intros e; destruct (has_id deviceId e); reflexivity.
  - unfold lookup. intros w deviceId d Hl Hnet.
    unfold result, after, connectDevice, disconnectDevice, bind, get_devices.
    cbn beta. rewrite Hl, Hnet. repeat split.
  - intros w Hw. apply reachable_invariant. assumption.
Qed.

Lemma network_device_always_ready_witness :
  let H := Fixtures.quiet in
  let w := after (await_addNetworkDevice H Fixtures.office_printer) (initial H tt) in
  map status (devices w) = [Ready] /\
  result (connectDevice H "net-192-168-1-150") w = Returned tt /\
  devices (after (connectDevice H "net-192-168-1-150") w) = devices w /\
  after (disconnectDevice H "net-192-168-1-150") w = w /\
  network_ready
    (devices (after (connectDevice H "usb-1193-6417-0")
                (after (handleConnect H 0) w))).
Proof.
  intros H w.
  destruct (network_device_always_ready H) as (_ & _ & Hnoop & Hreach).
  destruct (Hnoop w "net-192-168-1-150" (newNetworkDevice Fixtures.office_printer)
              eq_refl eq_refl) as (Hc & _ & Hd & _ & Hdis).
  repeat split; try assumption.
  apply Hreach. apply reach_connectDevice, reach_handleConnect.
  apply (reach_timer (after (addNetworkDevice H Fixtures.office_printer) (initial H tt))
           (newNetworkDevice Fixtures.office_printer)); [|reflexivity].
  apply reach_add; [apply reach_initial|].
  repeat split; try discriminate.
  - apply dotted_quad_by_test. reflexivity.
  - exists 9100%Z. split; [reflexivity | lia].
Defined.

End NetworkStatus.

(* ------------------------------------------------------------------------- *)
(** * The validation of the form *)
(* ------------------------------------------------------------------------- *)

Section FormValidation.
Import Js Model DeviceService AppComponent Spec.

Lemma is_empty_true (s : string) : is_empty s = true <-> s = "".
Proof. destruct s; simpl; split; intros E; try reflexivity; discriminate. Qed.

Lemma is_empty_false (s : string) : is_empty s = false <-> s <> "".
Proof. destruct s; simpl; split; intros E; try reflexivity; try discriminate.
  now contradiction E. Qed.

(** The test of the port field lets through the integers of [1, 65535] and
    nothing else. *)
Lemma port_test (n : number) :
  isNaN n || lt n 1 || gt n 65535 = false <-> port_in_range n.
Proof.
  unfold port_in_range. destruct n as [|z]; simpl.
  - split; [discriminate | intros (z & E & _); discriminate].
  - rewrite orb_false_iff, Z.ltb_ge, Z.ltb_ge. split.
    + intros [H1 H2]. exists z. split; [reflexivity | lia].
    + intros (z' & [= <-] & Hz). lia.
Qed.

Lemma port_test_true (n : number) :
  ~ port_in_range n -> isNaN n || lt n 1 || gt n 65535 = true.
Proof.
  intros Hn. destruct (isNaN n || lt n 1 || gt n 65535) eqn:E; [reflexivity|].
  exfalso. now apply Hn, port_test.
Qed.

(** C6.  [confirmSaveDevice] checks the name, then the address, then the
    port, then the profile, and stops at the first that fails: the error of
    the form is the message of that field alone and the service is left as it
    was.  The address must be a dotted quad, which does not bound the groups
    (999.1.1.1 is one); the port must be an integer of [1, 65535].  Only a
    payload that passes all four reaches the service.  With 70000 in the port
    field the error is the message of the port. *)
Theorem validation_stops_at_first_violation (H : UsbHost) (app : App H) :
  let p := form_payload H app in
  let app' := confirmSaveDevice H app in
  (DeviceService.name p = "" ->
   addByIpError app' = "Device Name is required." /\
   deviceService app' = deviceService app) /\
  (DeviceService.name p <> "" -> ~ dotted_quad (ip p) ->
   addByIpError app' = "Please enter a valid IP address." /\
   deviceService app' = deviceService app) /\
  (DeviceService.name p <> "" -> dotted_quad (ip p) ->
   ~ port_in_range (DeviceService.port p) ->
   addByIpError app' = "Please enter a valid port number (1-65535)." /\
   deviceService app' = deviceService app) /\
  (DeviceService.name p <> "" -> dotted_quad (ip p) ->
   port_in_range (DeviceService.port p) -> DeviceService.profile p = "" ->
   addByIpError app' = "Profile Name is required." /\
   deviceService app' = deviceService app) /\
  (valid_payload p ->
   deviceService app'
   = after (save H (editingDevice app) p) (deviceService app)) /\
  dotted_quad "999.1.1.1" /\
  (forall w : World H,
     addByIpError (confirmSaveDevice H (Fixtures.form_with_port H w "70000"))
     = "Please enter a valid port number (1-65535)." /\
     deviceService (confirmSaveDevice H (Fixtures.form_with_port H w "70000")) = w).
Proof.
  intros p app'.
  assert (Hp : form_payload H (set_addByIpError H app "") = p) by reflexivity.
  unfold app', confirmSaveDevice. rewrite Hp.
  repeat match goal with |- _ /\ _ => split end.
  - intros Hname. apply is_empty_true in Hname. rewrite Hname. split; reflexivity.
  - intros Hname Hquad. apply is_empty_false in Hname.
    apply test_ip_pattern_false in Hquad. rewrite Hname, Hquad.
    split; reflexivity.
  - intros Hname Hquad Hport. apply is_empty_false in Hname.
    apply test_ip_pattern in Hquad. apply port_test_true in Hport.
    rewrite Hname, Hquad, Hport. split; reflexivity.
  - intros Hname Hquad Hport Hprofile. apply is_empty_false in Hname.
    apply test_ip_pattern in Hquad. apply port_test in Hport.
    apply is_empty_true in Hprofile.
    rewrite Hname, Hquad, Hport, Hprofile. split; reflexivity.
  - intros (Hname & Hquad & Hport & Hprofile).
    apply is_empty_false in Hname, Hprofile.
    apply test_ip_pattern in Hquad. apply port_test in Hport.
    rewrite Hname, Hquad, Hport, Hprofile. cbn [negb].
    unfold after. cbn [editingDevice deviceService set_isSavingDevice set_addByIpError].
    destruct (save H (editingDevice app) p (deviceService app)) as [[u|e] w'];
      reflexivity.
  - apply dotted_quad_by_test. reflexivity.
  - intros w. split; reflexivity.
Qed.

Lemma validation_stops_at_first_violation_witness :
  let H := Fixtures.quiet in
  let w := initial H tt in
  (addByIpError (confirmSaveDevice H (Fixtures.form_with_port H w "70000"))
   = "Please enter a valid port number (1-65535)." /\
   deviceService (confirmSaveDevice H (Fixtures.form_with_port H w "70000")) = w) /\
  map id (devices (deviceService (confirmSaveDevice H (Fixtures.fresh_form H w))))
  = ["net-192-168-1-150"].
Proof.
  intros H w.
  destruct (validation_stops_at_first_violation H
              (Fixtures.form_with_port H w "70000"))
    as (_ & _ & Hport & _).
  destruct (validation_stops_at_first_violation H (Fixtures.fresh_form H w))
    as (_ & _ & _ & _ & Hsave & _).
  split.
  - apply Hport.
    + discriminate.
    + apply dotted_quad_by_test. reflexivity.
    + intros (z & E & Hz). injection E as <-. lia.
  - rewrite Hsave; [reflexivity|].
    repeat split; try discriminate.
    + apply dotted_quad_by_test. reflexivity.
    + exists 9100%Z. split; [reflexivity | lia].
Defined.

End FormValidation.

(* ------------------------------------------------------------------------- *)
(** * The AI facade without a key *)
(* ------------------------------------------------------------------------- *)

Section WithoutKey.
Import Js GeminiService.

(** C7, as the code has it.  Without an API key the troubleshooting call is
    fulfilled with the step "API Key Not Configured", the image analysis is
    fulfilled with a text that starts with "Error:", and the extraction of
    structured data is rejected with an error that names the missing key. *)
Theorem without_key (API_KEY : option string)
  (generateContent : Request -> completion string)
  (parse_steps : string -> completion TroubleshootingResponse)
  (parse_document : string -> completion ExtractedDocumentData)
  (match_data_url : string -> option (string * string))
  (deviceName issue base64Image prompt : string) :
  no_key API_KEY = true ->
  getTroubleshootingSteps API_KEY generateContent parse_steps deviceName issue
  = Returned
      {| steps :=
           [ {| title := "API Key Not Configured";
                details := ["Please set the API_KEY environment variable to use the AI Troubleshooter."] |} ] |} /\
  analyzeImage API_KEY generateContent match_data_url base64Image prompt
  = Returned "Error: API_KEY environment variable not set. Gemini API will not work." /\
  extractStructuredData API_KEY generateContent parse_document match_data_url
    base64Image
  = Threw "API_KEY environment variable not set. Gemini API will not work.".
Proof.
  intros Hkey.
  unfold getTroubleshootingSteps, analyzeImage, extractStructuredData.
  rewrite Hkey. repeat split.
Qed.

Lemma without_key_witness :
  analyzeImage None (fun _ => Threw "offline") (fun _ => None)
    "data:image/png;base64,iVBORw0KGgo=" "Extract all text from this document."
  = Returned "Error: API_KEY environment variable not set. Gemini API will not work." /\
  extractStructuredData (Some "") (fun _ => Threw "offline") (fun _ => Returned [])
    (fun _ => None) "data:image/png;base64,iVBORw0KGgo="
  = Threw "API_KEY environment variable not set. Gemini API will not work.".
Proof.
  split.
  - apply (without_key None (fun _ => Threw "offline")
             (fun _ => Threw "offline") (fun _ => Returned [])
             (fun _ => None) "scanner" "it has a paper jam"
             "data:image/png;base64,iVBORw0KGgo="
             "Extract all text from this document." eq_refl).
  - apply (without_key (Some "") (fun _ => Threw "offline")
             (fun _ => Threw "offline") (fun _ => Returned [])
             (fun _ => None) "scanner" "it has a paper jam"
             "data:image/png;base64,iVBORw0KGgo="
             "Extract all text from this document." eq_refl).
Defined.

(** C7, as stated, fails: without a key [extractStructuredData] does not
    return a placeholder, it throws. *)
Lemma extraction_without_key_throws :
  let extract :=
    extractStructuredData None (fun _ => Threw "offline") (fun _ => Returned [])
      (fun _ => None) in
  extract "data:image/png;base64,iVBORw0KGgo="
  = Threw "API_KEY environment variable not set. Gemini API will not work." /\
  ~ (exists data, extract "data:image/png;base64,iVBORw0KGgo=" = Returned data).
Proof.
  split; [reflexivity|]. intros (data & E). discriminate.
Qed.

End WithoutKey.

(* ------------------------------------------------------------------------- *)
(** * Disconnect notifications and the start-up enumeration *)
(* ------------------------------------------------------------------------- *)

Section DisconnectNotifications.
Import Js Model DeviceService Spec.

Lemma filter_keeps_all {A} (f : A -> bool) (l : list A) :
  (forall x, In x l -> f x = true) -> filter f l = l.
Proof.
  induction l as [|a l IH]; simpl; intros Hall; [reflexivity|].
  rewrite (Hall a) by auto. f_equal. apply IH. auto.
Qed.

Lemma count_id_zero (i : string) (r : list Device) :
  count_id i r = 0 <-> forall d, In d r -> has_id i d = false.
Proof.
  unfold count_id. induction r as [|e r IH]; simpl.
  - split; [intros _ d [] | reflexivity].
  - destruct (has_id i e) eqn:E; simpl.
    + split; [discriminate|]. intros Hall. specialize (Hall e (or_introl eq_refl)).
      congruence.
    + rewrite IH. split.
      * intros Hall d [<- | Hd]; auto.
      * intros Hall d Hd. auto.
Qed.

Lemma filter_other_ids (gone i : string) (r : list Device) :
  i <> gone ->
  filter (has_id i) (filter (fun d => negb (has_id gone d)) r) = filter (has_id i) r.
Proof.
  intros Hne. induction r as [|e r IH]; simpl; [reflexivity|].
  destruct (has_id gone e) eqn:Eg; simpl.
  - replace (has_id i e) with false; [exact IH|].
    symmetry. apply has_id_false. apply has_id_true in Eg. congruence.
  - destruct (has_id i e); [f_equal|]; exact IH.
Qed.

Context {H : UsbHost}.

Lemma handleDisconnect_devices (raw : handle) (w : World H) :
  devices (after (handleDisconnect H raw) w)
  = filter (fun d => negb (has_id (createDeviceId (look H (usb w) raw)) d))
           (devices w).
Proof. reflexivity. Qed.

End DisconnectNotifications.

Section NotificationProperties.
Import Js Model DeviceService Spec.

(** X1.  A disconnect notification never fails; it removes every entry with
    the id of the device and no other entry: the entries of any other id stay,
    in their order.  When no entry has the id the list stays as it is, so a
    second notification for the same device changes nothing. *)
Theorem disconnect_notification_removes_id (H : UsbHost) (w : World H)
  (raw : handle) :
  let gone := createDeviceId (look H (usb w) raw) in
  let w' := after (handleDisconnect H raw) w in
  result (handleDisconnect H raw) w = Returned tt /\
  count_id gone (devices w') = 0 /\
  (forall i, i <> gone ->
     filter (has_id i) (devices w') = filter (has_id i) (devices w)) /\
  (count_id gone (devices w) = 0 -> devices w' = devices w) /\
  devices (after (handleDisconnect H raw) w') = devices w'.
Proof.
  intros gone w'.
  assert (Hd : devices w' = filter (fun d => negb (has_id gone d)) (devices w))
    by reflexivity.
  assert (Hzero : count_id gone (devices w') = 0).
  { apply count_id_zero. rewrite Hd. intros d Hin.
    apply filter_In in Hin as [_ Hn]. now apply negb_true_iff in Hn. }
  repeat split.
  - exact Hzero.
  - intros i Hne. rewrite Hd. now apply filter_other_ids.
  - intros Habsent. rewrite Hd. apply filter_keeps_all. intros d Hin.
    apply negb_true_iff. revert d Hin. now apply count_id_zero.
  - rewrite handleDisconnect_devices.
    replace (usb w') with (usb w) by reflexivity. fold gone.
    apply filter_keeps_all. intros d Hin.
    apply negb_true_iff. revert d Hin. now apply count_id_zero.
Qed.

Lemma disconnect_notification_removes_id_witness :
  let H := Fixtures.quiet in
  let w := deliver (H := H) [(tt, 0)] (initial H tt) in
  count_id "usb-1193-6417-0" (devices w) = 1 /\
  devices (after (handleDisconnect H 0) w) = [] /\
  devices (after (handleDisconnect H 0) (after (handleDisconnect H 0) w)) = [].
Proof.
  intros H w.
  destruct (disconnect_notification_removes_id H (after (handleDisconnect H 0) w) 0)
    as (_ & _ & _ & Hnoop & _).
  split; [reflexivity|]. split; [reflexivity|].
  rewrite Hnoop; reflexivity.
Defined.

(** X2.  When no entry has the id of a device, its connect notification
    followed by a disconnect notification with the same vendor, product and
    serial number gives back the device list as it was. *)
Theorem connect_then_disconnect_restores (H : UsbHost) (w : World H)
  (raw : handle) (b' : bus H) (raw' : handle) :
  same_identity (look H (usb w) raw) (look H b' raw') ->
  count_id (createDeviceId (look H (usb w) raw)) (devices w) = 0 ->
  devices (after (handleDisconnect H raw')
             (with_usb (after (handleConnect H raw) w) b'))
  = devices w.
Proof.
  intros Hsame Habsent.
  rewrite handleDisconnect_devices. cbn [with_usb usb devices].
  rewrite handleConnect_devices.
  rewrite <- (createDeviceId_same_identity _ _ Hsame).
  set (gone := createDeviceId (look H (usb w) raw)) in *.
  unfold upsertIfAbsent. rewrite existsb_count_id.
  change (id (mapUSBDeviceToDevice raw (look H (usb w) raw))) with gone.
  rewrite Habsent. simpl negb. cbv iota.
  rewrite filter_app. simpl.
  replace (has_id gone (mapUSBDeviceToDevice raw (look H (usb w) raw))) with true
    by (symmetry; apply has_id_true; reflexivity).
  simpl. rewrite app_nil_r. apply filter_keeps_all. intros d Hin.
  apply negb_true_iff. revert d Hin. now apply count_id_zero.
Qed.

Lemma connect_then_disconnect_restores_witness :
  let H := Fixtures.quiet in
  let w := after (await_addNetworkDevice H Fixtures.office_printer) (initial H tt) in
  devices (after (handleDisconnect H 1) (with_usb (after (handleConnect H 0) w) tt))
  = devices w.
Proof.
  intros H w.
  apply (connect_then_disconnect_restores H w 0 tt 1); repeat split.
Defined.

(** X3.  The start-up enumeration appends one entry per permitted device
    after the entries that are there, which it keeps; it does not look for an
    entry with the same id, so a permitted device that is listed already gets
    one entry more. *)
Theorem load_appends_without_dedup (H : UsbHost) (w : World H) :
  let permitted := host_getDevices H (usb w) in
  let w' := after (loadPreviouslyPermittedDevices H) w in
  firstn (List.length (devices w)) (devices w') = devices w /\
  List.length (devices w') = List.length (devices w) + List.length permitted /\
  (forall d, In d (skipn (List.length (devices w)) (devices w')) ->
     connectionType d = USB) /\
  (forall i, count_id i (devices w) <= count_id i (devices w')) /\
  (forall raw, In raw permitted ->
     S (count_id (createDeviceId (look H (usb w) raw)) (devices w))
     <= count_id (createDeviceId (look H (usb w) raw)) (devices w')).
Proof.
  intros permitted w'.
  set (added := map (fun raw => mapUSBDeviceToDevice raw (look H (usb w) raw))
                    permitted).
  assert (Hd : devices w' = (devices w ++ added)%list) by reflexivity.
  rewrite Hd. repeat split.
  - rewrite firstn_app, Nat.sub_diag, firstn_all. simpl. apply app_nil_r.
  - rewrite length_app. unfold added. now rewrite length_map.
  - intros d Hin. rewrite skipn_app, Nat.sub_diag, skipn_all in Hin.
    simpl in Hin. apply in_map_iff in Hin as (raw & <- & _). reflexivity.
  - intros i. rewrite count_id_app. lia.
  - intros raw Hin. rewrite count_id_app.
    assert (1 <= count_id (createDeviceId (look H (usb w) raw)) added); [|lia].
    unfold added. clear Hd. induction permitted as [|r rest IH]; [destruct Hin|].
    simpl map. rewrite count_id_cons. destruct Hin as [-> | Hin].
    + replace (has_id _ (mapUSBDeviceToDevice raw _)) with true
        by (symmetry; apply has_id_true; reflexivity). lia.
    + specialize (IH Hin). lia.
Qed.

Lemma load_appends_without_dedup_witness :
  let H := Fixtures.quiet in
  let w := after (handleConnect H 0) (initial H tt) in
  count_id "usb-1193-6417-0" (devices w) = 1 /\
  2 <= count_id "usb-1193-6417-0"
         (devices (after (loadPreviouslyPermittedDevices H) w)).
Proof.
  intros H w.
  destruct (load_appends_without_dedup H w) as (_ & _ & _ & _ & Hdup).
  split; [reflexivity|].
  apply (Hdup 0). left. reflexivity.
Defined.

End NotificationProperties.

(* ------------------------------------------------------------------------- *)
(** * Decimal numerals *)
(* ------------------------------------------------------------------------- *)

Section Numerals.
Import Js Model DeviceService Spec.

Lemma uint_digits (d : Decimal.uint) :
  all_digits (NilEmpty.string_of_uint d) = true.
Proof. induction d; simpl; auto. Qed.

Lemma to_uint_not_nil (n : N) : N.to_uint n <> Decimal.Nil.
Proof.
  destruct n as [|p]; simpl; [discriminate|].
  apply DecimalPos.Unsigned.to_uint_nonnil.
Qed.

Lemma string_of_N_unfold (n : N) :
  string_of_N n = NilEmpty.string_of_uint (N.to_uint n).
Proof.
  unfold string_of_N, NilZero.string_of_uint.
  pose proof (to_uint_not_nil n) as Hn.
  destruct (N.to_uint n); [contradiction | reflexivity ..].
Qed.

Lemma string_of_N_digits (n : N) : all_digits (string_of_N n) = true.
Proof. rewrite string_of_N_unfold. apply uint_digits. Qed.

Lemma string_of_N_first (n : N) :
  exists c s, string_of_N n = String c s /\ is_digit c = true.
Proof.
  pose proof (string_of_N_digits n) as Hd. rewrite string_of_N_unfold in *.
  pose proof (to_uint_not_nil n) as Hn.
  destruct (N.to_uint n); try contradiction; simpl in *; eauto.
Qed.

Lemma string_of_N_injective (n m : N) : string_of_N n = string_of_N m -> n = m.
Proof.
  intros E. apply DecimalN.Unsigned.to_uint_inj.
  unfold string_of_N in E.
  pose proof (NilZero.usu (N.to_uint n) (to_uint_not_nil n)) as Hn.
  pose proof (NilZero.usu (N.to_uint m) (to_uint_not_nil m)) as Hm.
  rewrite E in Hn. congruence.
Qed.

(** Two numerals followed by a hyphen and the same text are the same
    numeral. *)
Lemma numeral_then_dash (a b x y : string) :
  all_digits a = true -> all_digits b = true ->
  a ++ String "-" x = b ++ String "-" y -> a = b /\ x = y.
Proof.
  revert b. induction a as [|c a IH]; intros [|e b]; simpl; intros Ha Hb E.
  - injection E as ->. auto.
  - injection E as <- _. discriminate Hb.
  - injection E as -> _. discriminate Ha.
  - apply andb_true_iff in Ha as [_ Ha]. apply andb_true_iff in Hb as [_ Hb].
    injection E as -> E. destruct (IH b Ha Hb E) as [-> ->]. auto.
Qed.

End Numerals.

Section ParsingNumerals.
Import Js Model DeviceService Spec.

Lemma parse_digits_stops (acc : Z) (rest : string) :
  stops rest -> parse_digits acc true rest = Some acc.
Proof. destruct rest as [|c rest]; simpl; [reflexivity | intros ->; reflexivity]. Qed.

Lemma parse_digits_step (acc : Z) (seen : bool) (c : ascii) (s : string) :
  is_digit c = true ->
  parse_digits acc seen (String c s)
  = parse_digits (10 * acc + digit_value c) true s.
Proof. intros Hc. simpl. now rewrite Hc. Qed.

Ltac read_digit :=
  cbn [NilEmpty.string_of_uint String.append Pos.of_uint_acc Pos.of_uint];
  rewrite parse_digits_step by reflexivity;
  match goal with
  | |- context [digit_value ?c] =>
      let v := eval compute in (digit_value c) in
      change (digit_value c) with v
  end.

Lemma parse_digits_acc (d : Decimal.uint) :
  forall (p : positive) (rest : string),
    stops rest ->
    parse_digits (Zpos p) true (NilEmpty.string_of_uint d ++ rest)
    = Some (Zpos (Pos.of_uint_acc d p)).
Proof.
  induction d; intros p rest Hrest;
    [now apply parse_digits_stops | ..];
    read_digit; rewrite <- (IHd _ rest Hrest); f_equal; lia.
Qed.

Lemma parse_digits_zero (d : Decimal.uint) :
  forall (seen : bool) (rest : string),
    stops rest -> d <> Decimal.Nil \/ seen = true ->
    parse_digits 0 seen (NilEmpty.string_of_uint d ++ rest)
    = Some (Z.of_N (Pos.of_uint d)).
Proof.
  induction d; intros seen rest Hrest Hseen;
    [ destruct Hseen as [Hd | ->]; [contradiction|]; now apply parse_digits_stops
    | read_digit; apply IHd; auto
    | read_digit; cbn [Z.of_N]; now rewrite <- (parse_digits_acc d _ rest Hrest) .. ].
Qed.

Lemma digit_not_space (c : ascii) : is_digit c = true -> is_space c = false.
Proof.
  unfold is_digit, is_space. intros Hd.
  apply andb_true_iff in Hd as [H1 H2].
  apply Nat.leb_le in H1, H2.
  set (n := nat_of_ascii c) in *.
  destruct (9 <=? n) eqn:E1, (n <=? 13) eqn:E2, (n =? 32) eqn:E3, (n =? 160) eqn:E4;
    simpl; try reflexivity;
    repeat match goal with
           | E : (_ <=? _) = true |- _ => apply Nat.leb_le in E
           | E : (_ =? _) = true |- _ => apply Nat.eqb_eq in E
           end; lia.
Qed.

Lemma parse_numeral (n : N) (rest : string) :
  stops rest -> parse_digits 0 false (string_of_N n ++ rest) = Some (Z.of_N n).
Proof.
  intros Hrest.
  rewrite string_of_N_unfold, parse_digits_zero; auto using to_uint_not_nil.
  change (Pos.of_uint (N.to_uint n)) with (N.of_uint (N.to_uint n)).
  now rewrite DecimalN.Unsigned.of_to.
Qed.


Lemma parseInt_digit (c : ascii) (s : string) :
  is_digit c = true ->
  parseInt (String c s)
  = match parse_digits 0 false (String c s) with Some z => Int z | None => NaN end.
Proof.
  intros Hc. unfold parseInt. cbn [trimStart].
  rewrite (digit_not_space c Hc).
  destruct c as [[] [] [] [] [] [] [] []]; try discriminate Hc; reflexivity.
Qed.

Lemma parseInt_numeral (n : N) (rest : string) :
  stops rest -> parseInt (string_of_N n ++ rest) = Int (Z.of_N n).
Proof.
  intros Hrest. pose proof (parse_numeral n rest Hrest) as Hp.
  destruct (string_of_N_first n) as (c & s & Es & Hc).
  rewrite Es in *. cbn [String.append] in *.
  now rewrite parseInt_digit, Hp.
Qed.



End ParsingNumerals.

(* ------------------------------------------------------------------------- *)
(** * The id and the type of a USB device *)
(* ------------------------------------------------------------------------- *)

Section UsbIdentity.
Import Js Model DeviceService Spec.

(** X5.  Two USB devices get the same id exactly when they have the same
    vendor id, the same product id and the same serial number, a missing or
    empty serial number counting as the serial number 0. *)
Theorem usb_id_injective (u v : USBDevice) :
  createDeviceId u = createDeviceId v <->
  vendorId u = vendorId v /\ productId u = productId v /\
  or_else (serialNumber u) "0" = or_else (serialNumber v) "0".
Proof.
  split.
  - unfold createDeviceId. intros E.
    change ("usb-" ++ ?x) with (String "u" (String "s" (String "b" (String "-" x)))) in E.
    injection E as E.
    change ("-" ++ ?x) with (String "-" x) in E.
    apply numeral_then_dash in E as [Ev E]; auto using string_of_N_digits.
    change ("-" ++ ?x) with (String "-" x) in E.
    apply numeral_then_dash in E as [Ep Es]; auto using string_of_N_digits.
    auto using string_of_N_injective.
  - intros (Ev & Ep & Es). unfold createDeviceId. now rewrite Ev, Ep, Es.
Qed.

Lemma usb_id_injective_witness :
  createDeviceId Fixtures.scanner_closed = createDeviceId Fixtures.scanner_open /\
  createDeviceId Fixtures.scanner_closed <> createDeviceId Fixtures.laser_printer.
Proof.
  split.
  - apply (usb_id_injective Fixtures.scanner_closed Fixtures.scanner_open).
    repeat split.
  - intros E.
    apply (usb_id_injective Fixtures.scanner_closed Fixtures.laser_printer) in E
      as (Ev & _).
    discriminate Ev.
Defined.

Lemma prefix_split (n s : string) :
  String.prefix n s = true <-> exists post, s = n ++ post.
Proof.
  revert s. induction n as [|c n IH]; intros s.
  - rewrite prefix_empty. split; [intros _; exists s; reflexivity | reflexivity].
  - destruct s as [|e s]; simpl.
    + split; [discriminate | intros (post & E); discriminate].
    + destruct (ascii_dec c e) as [<- | Hne].
      * rewrite IH. split; intros (post & E); exists post.
        -- now rewrite E.
        -- now injection E.
      * split; [discriminate|]. intros (post & E). injection E as <- _.
        contradiction.
Qed.

Lemma includes_empty (n : string) : includes n "" = String.prefix n "".
Proof. simpl. now destruct n. Qed.

Lemma includes_cons (n : string) (c : ascii) (s : string) :
  includes n (String c s)
  = if String.prefix n (String c s) then true else includes n s.
Proof. reflexivity. Qed.

(** [includes] finds the text anywhere in the string. *)
Lemma includes_split (n s : string) :
  includes n s = true <-> exists pre post, s = pre ++ n ++ post.
Proof.
  induction s as [|c s IH].
  - rewrite includes_empty, prefix_split. split.
    + intros (post & E). exists "", post. exact E.
    + intros (pre & post & Es). destruct pre; [eauto | discriminate].
  - rewrite includes_cons.
    destruct (String.prefix n (String c s)) eqn:E.
    + split; [intros _ | reflexivity].
      apply prefix_split in E as (post & E). exists "", post. exact E.
    + rewrite IH. split.
      * intros (pre & post & ->). exists (String c pre), post. reflexivity.
      * intros (pre & post & Es). destruct pre as [|e pre]; simpl in Es.
        -- assert (Hp : String.prefix n (String c s) = true)
             by (apply prefix_split; eauto). congruence.
        -- injection Es as _ ->. eauto.
Qed.

(** A string that includes a text includes the start of that text. *)
Lemma includes_shorter (a b s : string) :
  includes (a ++ b) s = true -> includes a s = true.
Proof.
  rewrite !includes_split. intros (pre & post & ->).
  exists pre, (b ++ post). now rewrite append_assoc.
Qed.

(** X6.  The name decides before the interfaces do: a device whose name
    contains "scan" or "lide", in any letter case, is never classified as a
    Printer, whatever its interfaces are; the test for "scanner" adds nothing
    to the test for "scan"; and a device without name is a Printer exactly
    when the first alternate of one of its interfaces has class 7, and a
    Scanner otherwise. *)
Theorem name_decides_before_interfaces (u : USBDevice) :
  let name := toLowerCase (or_else (productName u) "") in
  (includes "scan" name = true \/ includes "lide" name = true ->
   inferDeviceType u <> Printer) /\
  (includes "scanner" name = true -> includes "scan" name = true) /\
  (or_else (productName u) "" = "" ->
   inferDeviceType u
   = if existsb (fun config => existsb is_printer_interface (interfaces config))
                (configurations u)
     then Printer else Scanner).
Proof.
  intros name. split; [|split].
  - intros Hscan. unfold inferDeviceType. fold name.
    assert (Hs : includes "scan" name || includes "scanner" name
                 || includes "lide" name = true).
    { destruct Hscan as [-> | ->]; [reflexivity|]. apply orb_true_r. }
    rewrite Hs, andb_true_r.
    destruct (includes "printer" name || includes "laserjet" name
              || includes "officejet" name || includes "deskjet" name);
      simpl; [discriminate|].
    destruct (includes "3-in-1" name || includes "all-in-one" name); discriminate.
  - apply (includes_shorter "scan" "ner").
  - intros Hname. unfold inferDeviceType. rewrite Hname. reflexivity.
Qed.

Lemma name_decides_before_interfaces_witness :
  inferDeviceType Fixtures.scanner_closed <> Printer /\
  inferDeviceType Fixtures.nameless_printer = Printer.
Proof.
  destruct (name_decides_before_interfaces Fixtures.scanner_closed)
    as (Hscan & _).
  destruct (name_decides_before_interfaces Fixtures.nameless_printer)
    as (_ & _ & Hnameless).
  split.
  - apply Hscan. left. reflexivity.
  - rewrite Hnameless; reflexivity.
Defined.

End UsbIdentity.

(* ------------------------------------------------------------------------- *)
(** * The connect and disconnect actions on every path *)
(* ------------------------------------------------------------------------- *)

Section ConnectionPaths.
Import Js Model DeviceService Spec.

Lemma map_without_status_mark (deviceId : string) (s : DeviceStatus)
  (r : list Device) :
  map without_status (mark deviceId s r) = map without_status r.
Proof.
  unfold mark. rewrite map_map. apply map_ext. intros d.
  destruct (has_id deviceId d); reflexivity.
Qed.

(** X7.  For a USB device of the registry with a hardware handle, when
    [open()] is fulfilled and the selection of the first configuration is
    either not needed or fulfilled, [connectDevice] returns, the entries with
    the id get status Connected, nothing is logged, and the calls made are
    [open()] and, where it was needed, that one [selectConfiguration()]. *)
Theorem connect_success_marks_connected (H : UsbHost) (w : World H)
  (deviceId : string) (device : Device) (raw : handle) (selected : option N) :
  lookup deviceId (devices w) = Some device ->
  connectionType device = USB ->
  rawDevice device = Some raw ->
  connect_succeeds raw w selected ->
  let w' := after (connectDevice H deviceId) w in
  result (connectDevice H deviceId) w = Returned tt /\
  devices w' = mark deviceId Connected (devices w) /\
  lookup deviceId (devices w') = Some (with_status device Connected) /\
  calls w'
  = (calls w ++ CallOpen raw ::
       match selected with
       | Some v => [CallSelectConfiguration raw v]
       | None => []
       end)%list /\
  console w' = console w.
Proof.
  intros Hl Husb Hraw (b & Hopen & Hsel) w'.
  assert (Hrun : result (connectDevice H deviceId) w = Returned tt /\
                 devices w' = mark deviceId Connected (devices w) /\
                 calls w'
                 = (calls w ++ CallOpen raw ::
                      match selected with
                      | Some v => [CallSelectConfiguration raw v]
                      | None => []
                      end)%list /\
                 console w' = console w).
  { unfold w', lookup in *.
    unfold result, after, connectDevice, bind, get_devices, try_catch, open, await,
      read, selectConfiguration.
    cbn beta. rewrite Hl, Husb, Hraw, Hopen. cbn [usb].
    destruct selected as [v|].
    - destruct Hsel as (Hnone & (first & rest & Hconfs & Hv) & Hful).
      rewrite Hnone, Hconfs, Hv. unfold await. cbn [usb].
      destruct (host_selectConfiguration H raw v b) as [o b'].
      simpl in Hful. subst o. cbn. rewrite <- app_assoc. auto.
    - destruct Hsel as [Hsome | Hempty].
      + destruct (configuration (look H b raw)); [|contradiction]. cbn. auto.
      + rewrite Hempty. destruct (configuration (look H b raw)); cbn; auto. }
  destruct Hrun as (Hr & Hd & Hc & Hlog).
  repeat split; try assumption.
  rewrite Hd. now apply lookup_mark.
Qed.

Lemma connect_success_marks_connected_witness :
  (let H := Fixtures.quiet in
   let w := deliver (H := H) [(tt, 0)] (initial H tt) in
   let w' := after (connectDevice H "usb-1193-6417-0") w in
   map status (devices w') = [Connected] /\
   calls w' = [CallOpen 0; CallSelectConfiguration 0 1]) /\
  (let H := Fixtures.quiet_open in
   let w := deliver (H := H) [(tt, 0)] (initial H tt) in
   calls (after (connectDevice H "usb-1193-6417-0") w) = [CallOpen 0]).
Proof.
  split.
  - intros H w w'.
    assert (Hok : connect_succeeds 0 w (Some 1%N)).
    { exists tt. repeat split. exists Fixtures.first_configuration, [].
      split; reflexivity. }
    destruct (connect_success_marks_connected H w "usb-1193-6417-0"
                (mapUSBDeviceToDevice 0 Fixtures.scanner_closed) 0 (Some 1%N)
                eq_refl eq_refl eq_refl Hok) as (_ & Hd & _ & Hc & _).
    fold w' in Hd, Hc. rewrite Hd, Hc. split; reflexivity.
  - intros H w.
    assert (Hok : connect_succeeds 0 w None).
    { exists tt. split; [reflexivity|]. left. discriminate. }
    destruct (connect_success_marks_connected H w "usb-1193-6417-0"
                (mapUSBDeviceToDevice 0 Fixtures.scanner_open) 0 None
                eq_refl eq_refl eq_refl Hok) as (_ & _ & _ & Hc & _).
    rewrite Hc. reflexivity.
Defined.

(** X8.  On an id that no entry has, [connectDevice] is rejected with
    "Device not found." while [disconnectDevice] returns without a word; both
    leave everything as it was. *)
Theorem unknown_id_connect_throws_disconnect_returns (H : UsbHost)
  (w : World H) (deviceId : string) :
  lookup deviceId (devices w) = None ->
  connectDevice H deviceId w = (Threw "Device not found.", w) /\
  disconnectDevice H deviceId w = (Returned tt, w).
Proof.
  unfold lookup. intros Hl.
  unfold connectDevice, disconnectDevice, bind, get_devices.
  cbn beta. rewrite Hl. split; reflexivity.
Qed.

Lemma unknown_id_connect_throws_disconnect_returns_witness :
  let H := Fixtures.quiet in
  connectDevice H "usb-1-2-3" (initial H tt) = (Threw "Device not found.", initial H tt) /\
  disconnectDevice H "usb-1-2-3" (initial H tt) = (Returned tt, initial H tt).
Proof.
  intros H.
  apply (unknown_id_connect_throws_disconnect_returns H (initial H tt) "usb-1-2-3").
  reflexivity.
Defined.

(** X9.  Whatever the host answers, and for every id, [connectDevice] and
    [disconnectDevice] change nothing in the registry but statuses: the list
    has the same entries in the same order with the same ids, names,
    addresses, ports, profiles, types and handles, and no timer is set. *)
Theorem connection_actions_change_status_only (H : UsbHost) (w : World H)
  (deviceId : string) :
  map without_status (devices (after (connectDevice H deviceId) w))
  = map without_status (devices w) /\
  map without_status (devices (after (disconnectDevice H deviceId) w))
  = map without_status (devices w) /\
  timers (after (connectDevice H deviceId) w) = timers w /\
  timers (after (disconnectDevice H deviceId) w) = timers w.
Proof.
  destruct (connectDevice_writes deviceId w) as [Ht [E | (d & s & _ & _ & E)]];
    destruct (disconnectDevice_writes deviceId w)
      as [Ht' [E' | (d' & s' & _ & _ & E')]];
    rewrite E, E', ?map_without_status_mark; auto.
Qed.

(** X10.  [disconnectDevice] on a USB device of the registry with a handle:
    when the device is not open nothing happens at all; when it is open, the
    first interface is released if there is one, then [close()] is called; if
    that is fulfilled the entries with the id get status Ready and the call
    returns, and if it is rejected they get status Error and the call is
    rejected with "Failed to disconnect cleanly.". *)
Theorem disconnect_paths (H : UsbHost) (w : World H)
  (deviceId : string) (device : Device) (raw : handle) :
  lookup deviceId (devices w) = Some device ->
  connectionType device = USB ->
  rawDevice device = Some raw ->
  (opened (look H (usb w) raw) = false ->
   disconnectDevice H deviceId w = (Returned tt, w)) /\
  (forall (released : option N) (b : bus H),
     opened (look H (usb w) raw) = true ->
     release_step raw w released b ->
     let w' := after (disconnectDevice H deviceId) w in
     calls w'
     = (calls w ++
        match released with
        | Some n => [CallReleaseInterface raw n; CallClose raw]
        | None => [CallClose raw]
        end)%list /\
     match fst (host_close H raw b) with
     | Fulfilled =>
         result (disconnectDevice H deviceId) w = Returned tt /\
         devices w' = mark deviceId Ready (devices w)
     | Rejected cause =>
         result (disconnectDevice H deviceId) w
         = Threw "Failed to disconnect cleanly." /\
         devices w' = mark deviceId Error (devices w)
     end).
Proof.
  unfold lookup. intros Hl Husb Hraw. split.
  - intros Hclosed.
    unfold disconnectDevice, bind, get_devices, read.
    cbn beta. rewrite Hl, Husb, Hraw. cbn [usb]. now rewrite Hclosed.
  - intros released b Hopened Hstep.
    unfold result, after, disconnectDevice, bind, get_devices, try_catch, close,
      releaseInterface, await, read.
    cbn beta. rewrite Hl, Husb, Hraw. cbn [usb]. rewrite Hopened. cbn [negb].
    destruct released as [n|].
    + destruct Hstep as (active & first & rest & Hact & Hifs & Hn & Hrel).
      rewrite Hact, Hifs, Hn, Hrel. cbn [usb].
      destruct (host_close H raw b) as [[|cause] b']; cbn;
        rewrite <- app_assoc; auto.
    + destruct Hstep as [[Hnone | (active & Hact & Hifs)] ->].
      * rewrite Hnone. cbn [ret].
        destruct (host_close H raw (usb w)) as [[|cause] b']; cbn; auto.
      * rewrite Hact, Hifs. cbn [ret].
        destruct (host_close H raw (usb w)) as [[|cause] b']; cbn; auto.
Qed.

Lemma disconnect_paths_witness :
  (let H := Fixtures.quiet in
   let w := deliver (H := H) [(tt, 0)] (initial H tt) in
   disconnectDevice H "usb-1193-6417-0" w = (Returned tt, w)) /\
  (let H := Fixtures.quiet_open in
   let w := deliver (H := H) [(tt, 0)] (initial H tt) in
   let w' := after (disconnectDevice H "usb-1193-6417-0") w in
   calls w' = [CallReleaseInterface 0 0; CallClose 0] /\
   map status (devices w') = [Ready]) /\
  (let H := Fixtures.stuck_handle in
   let w := deliver (H := H) [(tt, 0)] (initial H tt) in
   result (disconnectDevice H "usb-1193-6417-0") w
   = Threw "Failed to disconnect cleanly.").
Proof.
  split; [|split].
  - intros H w.
    destruct (disconnect_paths H w "usb-1193-6417-0"
                (mapUSBDeviceToDevice 0 Fixtures.scanner_closed) 0
                eq_refl eq_refl eq_refl) as [Hclosed _].
    apply Hclosed. reflexivity.
  - intros H w w'.
    destruct (disconnect_paths H w "usb-1193-6417-0"
                (mapUSBDeviceToDevice 0 Fixtures.scanner_open) 0
                eq_refl eq_refl eq_refl) as [_ Hopen].
    assert (Hstep : release_step 0 w (Some 0%N) tt).
    { exists Fixtures.first_configuration, Fixtures.bulk_interface, [].
      repeat split. }
    destruct (Hopen (Some 0%N) tt eq_refl Hstep) as (Hc & _ & Hd).
    fold w' in Hc, Hd. rewrite Hc, Hd. split; reflexivity.
  - intros H w.
    destruct (disconnect_paths H w "usb-1193-6417-0"
                (mapUSBDeviceToDevice 0 Fixtures.scanner_open) 0
                eq_refl eq_refl eq_refl) as [_ Hopen].
    assert (Hstep : release_step 0 w (Some 0%N) tt).
    { exists Fixtures.first_configuration, Fixtures.bulk_interface, [].
      repeat split. }
    destruct (Hopen (Some 0%N) tt eq_refl Hstep) as [_ Hclose].
    exact (proj1 Hclose).
Defined.

End ConnectionPaths.

(* ------------------------------------------------------------------------- *)
(** * Uniqueness of ids and addresses *)
(* ------------------------------------------------------------------------- *)

Section Uniqueness.
Import Js Model DeviceService Spec.

Lemma filter_length_le {A} (f g : A -> bool) (l : list A) :
  (forall x, In x l -> f x = true -> g x = true) ->
  List.length (filter f l) <= List.length (filter g l).
Proof.
  induction l as [|a l IH]; simpl; intros Himp; [lia|].
  assert (Hl : List.length (filter f l) <= List.length (filter g l))
    by (apply IH; auto).
  destruct (f a) eqn:Ef.
  - rewrite (Himp a (or_introl eq_refl) Ef). simpl. lia.
  - destruct (g a); simpl; lia.
Qed.

Lemma count_address_cons (a : string) (d : Device) (r : list Device) :
  count_address a (d :: r) = (if has_address a d then 1 else 0) + count_address a r.
Proof. unfold count_address. simpl. destruct (has_address a d); reflexivity. Qed.

Lemma count_address_mark (a deviceId : string) (s : DeviceStatus) (r : list Device) :
  count_address a (mark deviceId s r) = count_address a r.
Proof.
  unfold mark. induction r as [|d r IH]; [reflexivity|].
  simpl map. rewrite !count_address_cons, IH.
  destruct (has_id deviceId d); reflexivity.
Qed.

Lemma count_address_filter (a : string) (f : Device -> bool) (r : list Device) :
  count_address a (filter f r) <= count_address a r.
Proof.
  induction r as [|d r IH]; simpl; [lia|].
  rewrite count_address_cons. destruct (f d); [rewrite count_address_cons|]; lia.
Qed.

Lemma count_address_usb (a : string) (raws : list handle)
  (f : handle -> USBDevice) :
  count_address a (map (fun raw => mapUSBDeviceToDevice raw (f raw)) raws) = 0.
Proof. induction raws as [|raw raws IH]; [reflexivity | exact IH]. Qed.

(** An edit takes entries away from the other addresses only. *)
Lemma count_address_edited_other (a deviceId : string) (p : NetworkDevicePayload)
  (r : list Device) :
  a <> ip p -> count_address a (edited deviceId p r) <= count_address a r.
Proof.
  intros Hne. unfold edited. induction r as [|d r IH]; simpl; [lia|].
  rewrite !count_address_cons. destruct (has_id deviceId d).
  - replace (has_address a (editedDevice d p)) with false.
    + destruct (has_address a d); lia.
    + symmetry. unfold has_address. simpl. apply String.eqb_neq. congruence.
  - destruct (has_address a d); lia.
Qed.

(** After an accepted edit the new address belongs to the edited entries. *)
Lemma count_address_edited_new (deviceId : string) (p : NetworkDevicePayload)
  (r : list Device) :
  (forall e, In e r -> has_address (ip p) e = true -> id e = deviceId) ->
  count_address (ip p) (edited deviceId p r) = count_id deviceId r.
Proof.
  unfold edited. induction r as [|d r IH]; simpl; intros Hu; [reflexivity|].
  rewrite count_address_cons, count_id_cons, IH by auto.
  destruct (has_id deviceId d) eqn:Ed.
  - unfold has_address. simpl. now rewrite String.eqb_refl.
  - destruct (has_address (ip p) d) eqn:Ea; [|reflexivity].
    apply has_id_false in Ed. exfalso. apply Ed. apply Hu; auto.
Qed.

(** In a well-formed registry the entries under the id of a network device
    all have its address. *)
Lemma count_id_le_address (r : list Device) (d : Device) (address : string) :
  registry_ok r -> In d r -> connectionType d = Network ->
  ipAddress d = Some address ->
  count_id (id d) r <= count_address address r.
Proof.
  intros Hok Hin Hnet Ha. apply filter_length_le. intros e He Hid.
  apply has_id_true in Hid. apply has_address_true.
  destruct (network_entry_id _ _ _ Hok Hin Hnet Ha) as [Hq Hidd].
  unfold registry_ok in Hok. rewrite Forall_forall in Hok.
  pose proof (Hok e He) as Hoke. unfold entry_ok in Hoke.
  destruct (connectionType e) eqn:Ce.
  - exfalso. apply (usb_network_ids_differ e d); auto.
  - destruct Hoke as (a & Hae & Hqa & Hide). rewrite Hae. f_equal.
    apply createNetworkDeviceId_injective; congruence.
Qed.

Lemma edit_conflict_find (deviceId : string) (p : NetworkDevicePayload)
  (r : list Device) :
  find (fun d => has_address (ip p) d && negb (has_id deviceId d)) r = None ->
  forall e, In e r -> has_address (ip p) e = true -> id e = deviceId.
Proof.
  intros Hf e Hin Ha. pose proof (find_none _ _ Hf e Hin) as Hn. simpl in Hn.
  rewrite Ha in Hn. simpl in Hn. apply negb_false_iff in Hn.
  now apply has_id_true.
Qed.

Lemma addresses_unique_edited (r : list Device) (d : Device)
  (p : NetworkDevicePayload) :
  registry_ok r -> addresses_unique r ->
  In d r -> connectionType d = Network ->
  (forall e, In e r -> has_address (ip p) e = true -> id e = id d) ->
  addresses_unique (edited (id d) p r).
Proof.
  intros Hok Hu Hin Hnet Hfree a.
  destruct (String.eqb a (ip p)) eqn:E.
  - apply String.eqb_eq in E. subst a.
    rewrite count_address_edited_new by assumption.
    unfold registry_ok in Hok. pose proof Hok as Hok'.
    rewrite Forall_forall in Hok'. pose proof (Hok' d Hin) as Hd.
    unfold entry_ok in Hd. rewrite Hnet in Hd. destruct Hd as (ad & Had & _).
    pose proof (count_id_le_address r d ad Hok Hin Hnet Had).
    specialize (Hu ad). lia.
  - apply String.eqb_neq in E.
    pose proof (count_address_edited_other a (id d) p r E). specialize (Hu a). lia.
Qed.

Context {H : UsbHost}.

Lemma serialized_invariant (w : World H) :
  serialized w ->
  registry_ok (devices w) /\ addresses_unique (devices w) /\ timers w = [].
Proof.
  induction 1 as [b | w b _ IH | w _ IH | w raw _ IH | w raw _ IH | w p _ IH Hp
                 | w d p _ IH Hp Hin Hnet | w deviceId _ IH | w deviceId _ IH].
  - repeat split; [constructor | intros a; unfold count_address; simpl; lia].
  - exact IH.
  - destruct IH as (Hok & Hu & Ht). repeat split; [| |exact Ht].
    + apply registry_ok_app; [assumption|].
      apply Forall_map, Forall_forall. intros raw _. apply entry_ok_usb.
    + intros a. cbn [after loadPreviouslyPermittedDevices].
      change (devices (after (loadPreviouslyPermittedDevices H) w))
        with (devices w ++ map (fun raw => mapUSBDeviceToDevice raw (look H (usb w) raw))
                               (host_getDevices H (usb w)))%list.
      rewrite count_address_app, count_address_usb. specialize (Hu a). lia.
  - destruct IH as (Hok & Hu & Ht). rewrite handleConnect_devices.
    repeat split; [| |exact Ht].
    + apply registry_ok_upsert; [apply entry_ok_usb | assumption].
    + intros a. unfold upsertIfAbsent. destruct (existsb _ (devices w)); [apply Hu|].
      rewrite count_address_app. specialize (Hu a).
      change (count_address a [mapUSBDeviceToDevice raw (look H (usb w) raw)]) with 0.
      lia.
  - destruct IH as (Hok & Hu & Ht). repeat split; [| |exact Ht].
    + apply Forall_forall. intros d Hd. apply filter_In in Hd as [Hd _].
      unfold registry_ok in Hok. rewrite Forall_forall in Hok. auto.
    + intros a. rewrite handleDisconnect_devices.
      pose proof (count_address_filter a
                    (fun d => negb (has_id (createDeviceId (look H (usb w) raw)) d))
                    (devices w)).
      specialize (Hu a). lia.
  - destruct IH as (Hok & Hu & Ht).
    destruct (find (has_address (ip p)) (devices w)) as [e|] eqn:Hf.
    + assert (E : after (await_addNetworkDevice H p) w = w).
      { unfold after, await_addNetworkDevice. rewrite addNetworkDevice_run, Hf.
        reflexivity. }
      rewrite E. auto.
    + destruct (await_addNetworkDevice_accepted p w Ht Hf) as (_ & Hd & Ht').
      rewrite Hd. repeat split; [| |exact Ht'].
      * apply registry_ok_app; [assumption|].
        constructor; [now apply entry_ok_new | constructor].
      * intros a. rewrite count_address_app.
        destruct (String.eqb a (ip p)) eqn:E.
        -- apply String.eqb_eq in E. subst a. rewrite count_address_new.
           apply find_none_filter in Hf. unfold count_address at 1. lia.
        -- replace (count_address a [newNetworkDevice p]) with 0.
           ++ specialize (Hu a). lia.
           ++ unfold count_address. simpl. unfold has_address. simpl.
              rewrite String.eqb_sym, E. reflexivity.
  - destruct IH as (Hok & Hu & Ht).
    assert (Htimers : timers (after (editNetworkDevice H (id d) p) w) = timers w).
    { unfold after. rewrite editNetworkDevice_run.
      destruct (find _ (devices w)); reflexivity. }
    rewrite Htimers.
    unfold after. rewrite editNetworkDevice_run.
    destruct (find _ (devices w)) eqn:Hf; [auto|].
    cbn [snd set_devices devices]. repeat split; [| |exact Ht].
    + now apply registry_ok_edited.
    + apply addresses_unique_edited; auto.
      now apply edit_conflict_find.
  - destruct IH as (Hok & Hu & Ht).
    destruct (connectDevice_writes deviceId w)
      as [Htimers [E | (device & s & Hl & Husb & E)]]; rewrite Htimers, E.
    + auto.
    + repeat split; [| |exact Ht].
      * now apply registry_ok_mark.
      * intros a. rewrite count_address_mark. apply Hu.
  - destruct IH as (Hok & Hu & Ht).
    destruct (disconnectDevice_writes deviceId w)
      as [Htimers [E | (device & s & Hl & Husb & E)]]; rewrite Htimers, E.
    + auto.
    + repeat split; [| |exact Ht].
      * now apply registry_ok_mark.
      * intros a. rewrite count_address_mark. apply Hu.
Qed.

End Uniqueness.

Section UniquenessProperties.
Import Js Model DeviceService Spec.

(** X11.  On a well-formed registry with no add pending, an awaited add of a
    valid payload that is accepted inserts an entry whose id no other entry
    has; ids that were unique stay unique, and so do addresses. *)
Theorem accepted_add_has_fresh_id (H : UsbHost) (w : World H)
  (p : NetworkDevicePayload) :
  registry_ok (devices w) -> timers w = [] -> valid_payload p ->
  result (await_addNetworkDevice H p) w = Returned (newNetworkDevice p) ->
  let w' := after (await_addNetworkDevice H p) w in
  count_id (createNetworkDeviceId (ip p)) (devices w') = 1 /\
  count_address (ip p) (devices w') = 1 /\
  (ids_unique (devices w) -> ids_unique (devices w')) /\
  (addresses_unique (devices w) -> addresses_unique (devices w')).
Proof.
  intros Hok Ht Hp Hacc w'.
  assert (Hf : find (has_address (ip p)) (devices w) = None).
  { unfold result, await_addNetworkDevice in Hacc.
    rewrite addNetworkDevice_run in Hacc.
    destruct (find (has_address (ip p)) (devices w)); [discriminate | reflexivity]. }
  destruct (await_addNetworkDevice_accepted p w Ht Hf) as (_ & Hd & _).
  fold w' in Hd.
  assert (Hfresh : count_id (createNetworkDeviceId (ip p)) (devices w) = 0).
  { apply count_id_zero. intros e He. apply has_id_false.
    apply (new_id_fresh "" p (devices w)); auto.
    - split; [assumption|]. intros e' He' Ha.
      pose proof (find_none _ _ Hf e' He') as Hn. simpl in Hn. congruence.
    - discriminate. }
  assert (Hnone : count_address (ip p) (devices w) = 0)
    by (now apply find_none_filter in Hf).
  rewrite Hd. repeat split.
  - rewrite count_id_app, Hfresh, count_id_cons.
    replace (has_id (createNetworkDeviceId (ip p)) (newNetworkDevice p)) with true
      by (symmetry; apply has_id_true; reflexivity).
    reflexivity.
  - rewrite count_address_app, Hnone, count_address_new. reflexivity.
  - intros Hu i. rewrite count_id_app, count_id_cons.
    change (count_id i []) with 0.
    destruct (has_id i (newNetworkDevice p)) eqn:Ei.
    + apply has_id_true in Ei. simpl in Ei. subst i. rewrite Hfresh. lia.
    + specialize (Hu i). lia.
  - intros Hu a. rewrite count_address_app.
    destruct (String.eqb a (ip p)) eqn:E.
    + apply String.eqb_eq in E. subst a. rewrite Hnone, count_address_new. lia.
    + replace (count_address a [newNetworkDevice p]) with 0.
      * specialize (Hu a). lia.
      * unfold count_address. simpl. unfold has_address. simpl.
        rewrite String.eqb_sym, E. reflexivity.
Qed.

Lemma accepted_add_has_fresh_id_witness :
  let H := Fixtures.quiet in
  let w := after (handleConnect H 0) (initial H tt) in
  let w' := after (await_addNetworkDevice H Fixtures.office_printer) w in
  count_id "net-192-168-1-150" (devices w') = 1 /\
  count_address "192.168.1.150" (devices w') = 1.
Proof.
  intros H w w'.
  assert (Hok : registry_ok (devices w)).
  { constructor; [apply entry_ok_usb | constructor]. }
  assert (Hp : valid_payload Fixtures.office_printer).
  { repeat split; try discriminate.
    - apply dotted_quad_by_test. reflexivity.
    - exists 9100%Z. split; [reflexivity | lia]. }
  destruct (accepted_add_has_fresh_id H w Fixtures.office_printer Hok eq_refl Hp
              eq_refl) as (Hid & Ha & _).
  split; assumption.
Defined.

(** X12.  An edit whose address is the address of an entry with another id
    is rejected with "Another device with this IP address already exists." and
    writes nothing. *)
Theorem edit_conflict_is_rejected (H : UsbHost) (w : World H)
  (deviceId : string) (p : NetworkDevicePayload) (other : Device) :
  In other (devices w) ->
  ipAddress other = Some (ip p) ->
  id other <> deviceId ->
  editNetworkDevice H deviceId p w
  = (Threw "Another device with this IP address already exists.", w).
Proof.
  intros Hin Ha Hid. rewrite editNetworkDevice_run.
  destruct (find (fun d => has_address (ip p) d && negb (has_id deviceId d))
                 (devices w)) eqn:Hf; [reflexivity|].
  pose proof (find_none _ _ Hf other Hin) as Hn. simpl in Hn.
  apply has_address_true in Ha. apply has_id_false in Hid.
  rewrite Ha, Hid in Hn. discriminate.
Qed.

Lemma edit_conflict_is_rejected_witness :
  let H := Fixtures.quiet in
  let w := after (await_addNetworkDevice H Fixtures.office_scanner_moved)
             (after (await_addNetworkDevice H Fixtures.office_printer)
                (initial H tt)) in
  List.length (devices w) = 2 /\
  editNetworkDevice H "net-192-168-1-150" Fixtures.office_scanner_moved w
  = (Threw "Another device with this IP address already exists.", w).
Proof.
  intros H w. split; [reflexivity|].
  apply (edit_conflict_is_rejected H w "net-192-168-1-150"
           Fixtures.office_scanner_moved
           (newNetworkDevice Fixtures.office_scanner_moved)).
  - right. left. reflexivity.
  - reflexivity.
  - discriminate.
Defined.

(** X13.  When every add is awaited before the next action, no two entries
    of the registry ever share an address, every network device has an id of
    its own, and no timer is left pending, whatever the notifications, edits
    and connection actions in between. *)
Theorem serialized_addresses_unique (H : UsbHost) (w : World H) :
  serialized w ->
  addresses_unique (devices w) /\
  (forall d, In d (devices w) -> connectionType d = Network ->
     count_id (id d) (devices w) = 1) /\
  timers w = [].
Proof.
  intros Hs. destruct (serialized_invariant w Hs) as (Hok & Hu & Ht).
  repeat split; try assumption.
  intros d Hin Hnet.
  pose proof Hok as Hok'. unfold registry_ok in Hok'.
  rewrite Forall_forall in Hok'. pose proof (Hok' d Hin) as Hd.
  unfold entry_ok in Hd. rewrite Hnet in Hd. destruct Hd as (a & Ha & _).
  pose proof (count_id_le_address _ d a Hok Hin Hnet Ha) as Hle.
  specialize (Hu a).
  assert (1 <= count_id (id d) (devices w)); [|lia].
  destruct (count_id (id d) (devices w)) eqn:E; [|lia].
  rewrite count_id_zero in E. specialize (E d Hin). rewrite has_id_own in E.
  discriminate.
Qed.

Lemma serialized_addresses_unique_witness :
  let H := Fixtures.quiet in
  let w := after (await_addNetworkDevice H Fixtures.office_printer)
             (after (await_addNetworkDevice H Fixtures.office_printer)
                (initial H tt)) in
  count_address "192.168.1.150" (devices w) <= 1.
Proof.
  intros H w.
  assert (Hp : valid_payload Fixtures.office_printer).
  { repeat split; try discriminate.
    - apply dotted_quad_by_test. reflexivity.
    - exists 9100%Z. split; [reflexivity | lia]. }
  assert (Hs : serialized w).
  { apply ser_add; [apply ser_add; [apply ser_initial|] |]; exact Hp. }
  destruct (serialized_addresses_unique H w Hs) as (Hu & _).
  apply Hu.
Defined.

End UniquenessProperties.

(* ------------------------------------------------------------------------- *)
(** * The selection and the connection panel of the component *)
(* ------------------------------------------------------------------------- *)

Section Selection.
Import Js Model DeviceService Spec AppView.

Lemma lookup_edited_same (deviceId : string) (p : NetworkDevicePayload)
  (d : Device) (r : list Device) :
  createNetworkDeviceId (ip p) = deviceId ->
  lookup deviceId r = Some d ->
  lookup deviceId (edited deviceId p r) = Some (editedDevice d p).
Proof.
  intros Hsame. unfold lookup, edited.
  induction r as [|e r IH]; [discriminate|].
  cbn [find map]. destruct (has_id deviceId e) eqn:E.
  - intros [= ->]. cbn [find].
    replace (has_id deviceId (editedDevice d p)) with true
      by (symmetry; apply has_id_true; exact Hsame).
    reflexivity.
  - cbn [find]. rewrite E. exact IH.
Qed.

(** A rejected connect carries a message. *)
Lemma connectDevice_message (H : UsbHost) (deviceId : string) (w : World H)
  (message : string) :
  result (DeviceService.connectDevice H deviceId) w = Threw message ->
  message <> "".
Proof.
  unfold result, DeviceService.connectDevice, bind, get_devices, try_catch, open,
    await, read, selectConfiguration.
  cbn beta. destruct (find (has_id deviceId) (devices w)) as [device|];
    [|simpl; intros [= <-]; discriminate].
  destruct (connectionType device); [|simpl; discriminate].
  destruct (rawDevice device) as [raw|]; [|simpl; discriminate].
  destruct (host_open H raw (usb w)) as [[|e] b]; cbn [usb];
    [|simpl; intros [= <-]; discriminate].
  destruct (configuration (look H b raw)); [simpl; discriminate|].
  destruct (configurations (look H b raw)) as [|first rest]; [simpl; discriminate|].
  unfold await. cbn [usb].
  destruct (host_selectConfiguration H raw (configurationValue first) b)
    as [[|e] b']; simpl; [discriminate | intros [= <-]; discriminate].
Qed.

End Selection.

Section SelectionProperties.
Import Js Model DeviceService Spec AppView.

(** X14.  The effect that keeps the selection in step with the registry:
    what it leaves selected is an entry of the registry with the id of the
    device that was selected; when no entry has that id nothing stays
    selected; and running it again changes nothing. *)
Theorem selection_follows_registry (H : UsbHost) (v : View H) :
  (forall d, selectedDevice (syncSelectedDevice H v) = Some d ->
     In d (devices (deviceService v)) /\
     exists old, selectedDevice v = Some old /\ Model.id d = Model.id old) /\
  (forall old, selectedDevice v = Some old ->
     count_id (Model.id old) (devices (deviceService v)) = 0 ->
     selectedDevice (syncSelectedDevice H v) = None) /\
  syncSelectedDevice H (syncSelectedDevice H v) = syncSelectedDevice H v.
Proof.
  unfold syncSelectedDevice. split; [|split].
  - intros d Hd. destruct (selectedDevice v) as [old|] eqn:Es.
    + cbn [selectedDevice set_selectedDevice] in Hd.
      destruct (lookup_some _ _ _ Hd) as [Hin Hid]. eauto.
    + congruence.
  - intros old Hs Hzero. rewrite Hs. cbn [selectedDevice set_selectedDevice].
    now apply lookup_none_count.
  - destruct (selectedDevice v) as [old|] eqn:Es; [|now rewrite Es].
    cbn [selectedDevice set_selectedDevice deviceService].
    destruct (find (has_id (Model.id old)) (devices (deviceService v)))
      as [d|] eqn:Ef; [|reflexivity].
    destruct (lookup_some _ _ _ Ef) as [_ Hid]. rewrite Hid, Ef. reflexivity.
Qed.

Lemma selection_follows_registry_witness :
  let H := Fixtures.quiet in
  let w := deliver (H := H) [(tt, 0)] (initial H tt) in
  let v := set_selectedDevice H (Fixtures.plain_view H w)
             (Some (mapUSBDeviceToDevice 0 Fixtures.scanner_closed)) in
  let unplugged := set_deviceService H v (after (handleDisconnect H 0) w) in
  selectedDevice (syncSelectedDevice H unplugged) = None.
Proof.
  intros H w v unplugged.
  destruct (selection_follows_registry H unplugged) as (_ & Hgone & _).
  apply (Hgone (mapUSBDeviceToDevice 0 Fixtures.scanner_closed)); reflexivity.
Defined.

(** X15.  When the device that is selected is edited through the service
    with a valid payload, the effect drops the selection if the address
    changed, since the id changed with it, and shows the edited device if the
    address stayed. *)
Theorem edit_of_selected_device (H : UsbHost) (v : View H)
  (selected d : Device) (p : NetworkDevicePayload) (address : string) :
  let w := deviceService v in
  registry_ok (devices w) ->
  selectedDevice v = Some selected ->
  lookup (Model.id selected) (devices w) = Some d ->
  connectionType d = Network ->
  ipAddress d = Some address ->
  valid_edit (Model.id selected) p (devices w) ->
  let v' := syncSelectedDevice H
              (set_deviceService H v
                 (after (editNetworkDevice H (Model.id selected) p) w)) in
  (ip p <> address -> selectedDevice v' = None) /\
  (ip p = address -> selectedDevice v' = Some (editedDevice d p)).
Proof.
  intros w Hok Hsel Hl Hnet Ha Hv v'. subst w.
  destruct (editNetworkDevice_accepted (Model.id selected) p _ (proj2 Hv))
    as (_ & Hd & _).
  destruct (lookup_some _ _ _ Hl) as [Hin Hid].
  destruct (network_entry_id _ _ _ Hok Hin Hnet Ha) as [Hq Hidd].
  assert (Ev : selectedDevice v'
               = lookup (Model.id selected)
                   (edited (Model.id selected) p (devices (deviceService v)))).
  { unfold v', syncSelectedDevice. cbn [selectedDevice set_deviceService].
    rewrite Hsel.
    cbn [selectedDevice set_selectedDevice deviceService set_deviceService].
    rewrite Hd. reflexivity. }
  rewrite Ev. split.
  - intros Hne. apply lookup_edited_old. rewrite <- Hid, Hidd. intros E.
    apply createNetworkDeviceId_injective in E; [auto | apply Hv | assumption].
  - intros Hsame. apply lookup_edited_same; [|assumption]. congruence.
Qed.

Lemma edit_of_selected_device_witness :
  let H := Fixtures.quiet in
  let w := after (await_addNetworkDevice H Fixtures.office_scanner) (initial H tt) in
  let v := set_selectedDevice H (Fixtures.plain_view H w)
             (Some (newNetworkDevice Fixtures.office_scanner)) in
  selectedDevice
    (syncSelectedDevice H
       (set_deviceService H v
          (after (editNetworkDevice H "net-192-168-1-150"
                    Fixtures.office_scanner_moved) w)))
  = None.
Proof.
  intros H w v.
  destruct (edit_of_selected_device H v (newNetworkDevice Fixtures.office_scanner)
              (newNetworkDevice Fixtures.office_scanner)
              Fixtures.office_scanner_moved "192.168.1.150"
              office_registry_ok eq_refl eq_refl eq_refl eq_refl) as [Hmoved _].
  - split; [exact office_scanner_moved_valid|].
    intros e [<- | []]. discriminate.
  - apply Hmoved. discriminate.
Defined.

(** X16.  A network device of the registry that is selected can always be
    acted on, in every world the application can reach; a USB device can be
    acted on exactly when its status is Connected; with nothing selected
    there is nothing to act on. *)
Theorem actionable_devices (H : UsbHost) (v : View H) :
  (selectedDevice v = None -> isActionable H v = false) /\
  (forall d, selectedDevice v = Some d -> connectionType d = USB ->
     (isActionable H v = true <-> status d = Connected)) /\
  (forall d, selectedDevice v = Some d -> connectionType d = Network ->
     reachable (deviceService v) -> In d (devices (deviceService v)) ->
     isActionable H v = true).
Proof.
  unfold isActionable. split; [|split].
  - intros ->. reflexivity.
  - intros d Hs Husb. rewrite Hs, Husb. unfold status_is.
    destruct (status d); split; congruence.
  - intros d Hs Hnet Hreach Hin. rewrite Hs, Hnet.
    destruct (reachable_invariant _ Hreach) as (_ & Hready & _).
    unfold status_is. now rewrite (Hready d Hin Hnet).
Qed.

Lemma actionable_devices_witness :
  let H := Fixtures.quiet in
  let w := after (await_addNetworkDevice H Fixtures.office_printer)
             (after (handleConnect H 0) (initial H tt)) in
  isActionable H
    (set_selectedDevice H (Fixtures.plain_view H w)
       (Some (newNetworkDevice Fixtures.office_printer))) = true /\
  isActionable H
    (set_selectedDevice H (Fixtures.plain_view H w)
       (Some (mapUSBDeviceToDevice 0 Fixtures.scanner_closed))) = false.
Proof.
  intros H w. split.
  - destruct (actionable_devices H
                (set_selectedDevice H (Fixtures.plain_view H w)
                   (Some (newNetworkDevice Fixtures.office_printer))))
      as (_ & _ & Hnet).
    apply (Hnet (newNetworkDevice Fixtures.office_printer)); try reflexivity.
    + apply (reach_timer
               (after (addNetworkDevice H Fixtures.office_printer)
                  (after (handleConnect H 0) (initial H tt)))
               (newNetworkDevice Fixtures.office_printer)); [|reflexivity].
      apply reach_add; [apply reach_handleConnect, reach_initial|].
      repeat split; try discriminate.
      * apply dotted_quad_by_test. reflexivity.
      * exists 9100%Z. split; [reflexivity | lia].
    + right. left. reflexivity.
  - destruct (actionable_devices H
                (set_selectedDevice H (Fixtures.plain_view H w)
                   (Some (mapUSBDeviceToDevice 0 Fixtures.scanner_closed))))
      as (_ & Husb & _).
    destruct (Husb (mapUSBDeviceToDevice 0 Fixtures.scanner_closed)
                eq_refl eq_refl) as [Hto _].
    destruct (isActionable H _); [|reflexivity].
    specialize (Hto eq_refl). discriminate Hto.
Defined.

(** X17.  [connectDevice] of the component never fails and always ends with
    the busy flag down.  When the service returns, no error is shown; when it
    is rejected, the error shown is the message of the service, which is
    never empty, so the text for an unknown error is never shown, and one
    timer more is pending to clear it.  [disconnectDevice] of the component
    hands a rejection of the service on and shows nothing. *)
Theorem component_connect_shows_service_error (H : UsbHost) (v : View H)
  (deviceId : string) :
  let v' := AppView.connectDevice H deviceId v in
  isConnecting v' = false /\
  deviceService v' = after (DeviceService.connectDevice H deviceId) (deviceService v) /\
  match result (DeviceService.connectDevice H deviceId) (deviceService v) with
  | Returned _ => connectionError v' = "" /\ errorTimers v' = errorTimers v
  | Threw message =>
      connectionError v' = message /\
      connectionError v' <> "An unknown connection error occurred." /\
      errorTimers v' = S (errorTimers v)
  end /\
  fst (AppView.disconnectDevice H deviceId v)
  = result (DeviceService.disconnectDevice H deviceId) (deviceService v) /\
  connectionError (snd (AppView.disconnectDevice H deviceId v))
  = connectionError v.
Proof.
  intros v'. unfold v', AppView.connectDevice, AppView.disconnectDevice.
  cbn [deviceService set_connectionError set_isConnecting].
  pose proof (connectDevice_message H deviceId (deviceService v)) as Hmsg.
  assert (Hknown : forall message,
            result (DeviceService.connectDevice H deviceId) (deviceService v)
            = Threw message ->
            message <> "An unknown connection error occurred.").
  { intros message Hr ->. revert Hr.
    unfold result, DeviceService.connectDevice, bind, get_devices, try_catch,
      open, await, read, selectConfiguration.
    cbn beta.
    destruct (find (has_id deviceId) (devices (deviceService v))) as [device|];
      [|simpl; discriminate].
    destruct (connectionType device); [|simpl; discriminate].
    destruct (rawDevice device) as [raw|]; [|simpl; discriminate].
    destruct (host_open H raw (usb (deviceService v))) as [[|e] b]; cbn [usb];
      [|simpl; discriminate].
    destruct (configuration (look H b raw)); [simpl; discriminate|].
    destruct (configurations (look H b raw)) as [|first rest];
      [simpl; discriminate|].
    unfold await. cbn [usb].
    destruct (host_selectConfiguration H raw (configurationValue first) b)
      as [[|e] b']; simpl; discriminate. }
  unfold result, after in *.
  destruct (DeviceService.connectDevice H deviceId (deviceService v))
    as [[u|message] w'];
    destruct (DeviceService.disconnectDevice H deviceId (deviceService v))
      as [r' w'']; cbn.
  - repeat split.
  - specialize (Hmsg message eq_refl). specialize (Hknown message eq_refl).
    apply is_empty_false in Hmsg. rewrite Hmsg. repeat split. exact Hknown.
Qed.

Lemma component_connect_shows_service_error_witness :
  let H := Fixtures.locked in
  let w := deliver (H := H) [(tt, 0)] (initial H tt) in
  connectionError (AppView.connectDevice H "usb-1193-6417-0" (Fixtures.plain_view H w))
  = "Connection failed: Access denied.. The device might be in use by another application.".
Proof.
  intros H w.
  destruct (component_connect_shows_service_error H (Fixtures.plain_view H w)
              "usb-1193-6417-0") as (_ & _ & Herr & _).
  exact (proj1 Herr).
Defined.

End SelectionProperties.

(* ------------------------------------------------------------------------- *)
(** * The edit form filled from a device and saved as it is *)
(* ------------------------------------------------------------------------- *)

Section Trimming.
Import Js Model DeviceService AppComponent Spec.

Lemma trimEnd_cons (c : ascii) (s : string) :
  trimEnd (String c s)
  = match trimEnd s with
    | EmptyString => if is_space c then EmptyString else String c EmptyString
    | rest => String c rest
    end.
Proof. reflexivity. Qed.

Lemma trimEnd_idempotent (s : string) : trimEnd (trimEnd s) = trimEnd s.
Proof.
  induction s as [|c s IH]; [reflexivity|].
  rewrite trimEnd_cons. destruct (trimEnd s) as [|e rest] eqn:E.
  - destruct (is_space c) eqn:Ec; [reflexivity|].
    rewrite trimEnd_cons. cbn [trimEnd]. now rewrite Ec.
  - rewrite trimEnd_cons, IH. reflexivity.
Qed.

(** [trimEnd] keeps the first character of what it leaves. *)
Lemma trimEnd_first (s : string) :
  match trimEnd s with
  | EmptyString => True
  | String c _ => exists t, s = String c t
  end.
Proof.
  destruct s as [|c s]; [exact I|].
  rewrite trimEnd_cons. destruct (trimEnd s); [destruct (is_space c)|]; eauto.
Qed.

(** [trimStart] leaves nothing or a string that starts with no white space. *)
Lemma trimStart_first (s : string) :
  match trimStart s with
  | EmptyString => True
  | String c _ => is_space c = false
  end.
Proof.
  induction s as [|c s IH]; [exact I|].
  cbn [trimStart]. destruct (is_space c) eqn:Ec; [exact IH | exact Ec].
Qed.

Lemma trimStart_fixed (s : string) :
  match s with EmptyString => True | String c _ => is_space c = false end ->
  trimStart s = s.
Proof. destruct s as [|c s]; [reflexivity|]. cbn [trimStart]. now intros ->. Qed.

Lemma trim_idempotent (s : string) : trim (trim s) = trim s.
Proof.
  unfold trim. rewrite trimStart_fixed; [apply trimEnd_idempotent|].
  pose proof (trimEnd_first (trimStart s)) as He.
  pose proof (trimStart_first s) as Hs.
  destruct (trimEnd (trimStart s)) as [|c t]; [exact I|].
  destruct He as (t' & E). rewrite E in Hs. exact Hs.
Qed.

Lemma trimEnd_digits (s : string) : all_digits s = true -> trimEnd s = s.
Proof.
  induction s as [|c s IH]; [reflexivity|].
  cbn [all_digits]. intros Hd. apply andb_true_iff in Hd as [Hc Hd].
  rewrite trimEnd_cons, (IH Hd). destruct s; [|reflexivity].
  now rewrite (digit_not_space c Hc).
Qed.

Lemma trim_digits (s : string) : all_digits s = true -> trim s = s.
Proof.
  intros Hd. unfold trim. rewrite trimStart_fixed; [now apply trimEnd_digits|].
  destruct s as [|c s]; [exact I|]. cbn [all_digits] in Hd.
  apply andb_true_iff in Hd as [Hc _]. now apply digit_not_space.
Qed.

(** The port field shows a port of [1, 65535] as a numeral that the form
    reads back. *)
Lemma port_field_reads_back (n : number) :
  port_in_range n ->
  is_falsy n = false /\ parseInt (trim (string_of_number n)) = n.
Proof.
  intros (z & -> & Hz). destruct z as [|q|q]; try lia. split; [reflexivity|].
  cbn [string_of_number string_of_Z].
  rewrite trim_digits by apply string_of_N_digits.
  rewrite <- (append_nil_r (string_of_N (N.pos q))).
  now rewrite parseInt_numeral.
Qed.

End Trimming.

Section FormRoundTrip.
Import Js Model DeviceService AppComponent Spec.

Context {H : UsbHost}.

(** What [confirmSaveDevice] does with a form that passes the validation. *)
Lemma confirmSaveDevice_valid (app : App H) :
  valid_payload (form_payload H app) ->
  let outcome := save H (editingDevice app) (form_payload H app) (deviceService app) in
  deviceService (confirmSaveDevice H app) = snd outcome /\
  isSavingDevice (confirmSaveDevice H app) = false /\
  match fst outcome with
  | Returned _ =>
      addByIpError (confirmSaveDevice H app) = "" /\
      isDeviceModalOpen (confirmSaveDevice H app) = false /\
      editingDevice (confirmSaveDevice H app) = None
  | Threw e =>
      addByIpError (confirmSaveDevice H app) = e /\
      isDeviceModalOpen (confirmSaveDevice H app) = isDeviceModalOpen app
  end.
Proof.
  intros (Hname & Hquad & Hport & Hprofile) outcome. unfold outcome.
  assert (Hp : form_payload H (set_addByIpError H app "") = form_payload H app)
    by reflexivity.
  unfold confirmSaveDevice. rewrite Hp.
  apply is_empty_false in Hname, Hprofile.
  apply test_ip_pattern in Hquad. apply port_test in Hport.
  rewrite Hname, Hquad, Hport, Hprofile. cbn [negb].
  cbn [editingDevice deviceService set_isSavingDevice set_addByIpError].
  destruct (save H (editingDevice app) (form_payload H app) (deviceService app))
    as [[u|e] w']; cbn; auto.
Qed.

(** An entry that is the only one under its id and that the payload
    describes is left as it is by an edit with that payload. *)
Lemma edited_fixed (r : list Device) (d : Device) (p : NetworkDevicePayload) :
  In d r -> count_id (id d) r = 1 ->
  editedDevice d p = d ->
  edited (id d) p r = r.
Proof.
  intros Hin Hone Hfix. unfold edited.
  rewrite <- (map_id r) at 2. apply map_ext_in. intros e He.
  destruct (has_id (id d) e) eqn:E; [|reflexivity].
  assert (e = d); [|subst; exact Hfix].
  clear Hfix. unfold count_id in Hone.
  assert (Hd : In d (filter (has_id (id d)) r))
    by (apply filter_In; split; [assumption | apply has_id_own]).
  assert (Hee : In e (filter (has_id (id d)) r))
    by (apply filter_In; split; assumption).
  destruct (filter (has_id (id d)) r) as [|x [|y l]]; try discriminate.
  destruct Hd as [<- | []]. destruct Hee as [<- | []]. reflexivity.
Qed.

End FormRoundTrip.

Section FormRoundTripProperty.
Import Js Model DeviceService AppComponent Spec.

(** X18.  Opening the form on a network device and saving it untouched
    changes no entry: for a device that holds what the form once read (name,
    address, port and profile of a valid payload, and the id of the address)
    and that is the only entry under its id in a well-formed registry, the
    form shows values that read back to the same payload, the edit is
    accepted, the device list stays as it is, no error is shown and the form
    closes. *)
Theorem edit_form_round_trip (H : UsbHost) (app seed : App H) (d : Device) :
  let p := form_payload H seed in
  valid_payload p ->
  connectionType d = Network ->
  id d = createNetworkDeviceId (ip p) ->
  Model.name d = DeviceService.name p ->
  ipAddress d = Some (ip p) ->
  Model.port d = Some (DeviceService.port p) ->
  Model.profile d = Some (DeviceService.profile p) ->
  registry_ok (devices (deviceService app)) ->
  In d (devices (deviceService app)) ->
  count_id (id d) (devices (deviceService app)) = 1 ->
  let opened := openDeviceModal H (Some d) app in
  let saved := confirmSaveDevice H opened in
  form_payload H opened = p /\
  devices (deviceService saved) = devices (deviceService app) /\
  addByIpError saved = "" /\
  isDeviceModalOpen saved = false /\
  editingDevice saved = None /\
  isSavingDevice saved = false.
Proof.
  intros p Hp Hnet Hid Hname Haddr Hport Hprofile Hok Hin Hone opened saved.
  assert (Hform : form_payload H opened = p).
  { unfold opened, openDeviceModal, form_payload. rewrite Hnet.
    cbn [addByIpName addByIpAddress addByIpPort addByIpProfile].
    rewrite Hname, Haddr, Hport, Hprofile.
    destruct Hp as (_ & _ & Hrange & _).
    destruct (port_field_reads_back _ Hrange) as [Hfalsy Hread].
    rewrite Hfalsy, Hread.
    assert (Hor : forall s, or_else (Some s) "" = s) by (intros [|c s]; reflexivity).
    rewrite !Hor. unfold p, form_payload. cbn [DeviceService.name ip DeviceService.profile].
    now rewrite !trim_idempotent. }
  assert (Hedit : editingDevice opened = Some d).
  { unfold opened, openDeviceModal. now rewrite Hnet. }
  assert (Hservice : deviceService opened = deviceService app).
  { unfold opened, openDeviceModal. rewrite Hnet. reflexivity. }
  assert (Hvalid : valid_payload (form_payload H opened)) by now rewrite Hform.
  pose proof (confirmSaveDevice_valid opened Hvalid) as Hsave.
  cbv zeta in Hsave. fold saved in Hsave.
  rewrite Hedit, Hform, Hservice in Hsave. cbn [save] in Hsave.
  assert (Hfree : forall e, In e (devices (deviceService app)) ->
                            has_address (ip p) e = true -> id e = id d).
  { intros e He Hae. apply has_address_true in Hae.
    unfold registry_ok in Hok. rewrite Forall_forall in Hok.
    specialize (Hok e He). unfold entry_ok in Hok.
    destruct (connectionType e).
    - destruct Hok as [_ Hnone]. congruence.
    - destruct Hok as (a & Ha' & _ & Hida). congruence. }
  destruct (editNetworkDevice_accepted (id d) p (deviceService app) Hfree)
    as (Hr & Hd & _).
  unfold result, after in Hr, Hd.
  destruct (editNetworkDevice H (id d) p (deviceService app)) as [r w'].
  cbn [fst snd] in *. subst r.
  destruct Hsave as (Hw & Hbusy & Herr & Hopen & Hediting).
  split; [exact Hform|]. rewrite Hw, Hd. repeat split; try assumption.
  apply edited_fixed; try assumption.
  destruct d; cbn in *. subst. reflexivity.
Qed.

Lemma edit_form_round_trip_witness :
  let H := Fixtures.quiet in
  let w := after (await_addNetworkDevice H Fixtures.office_printer) (initial H tt) in
  let app := Fixtures.fresh_form H w in
  let saved := confirmSaveDevice H
                 (openDeviceModal H (Some (newNetworkDevice Fixtures.office_printer))
                    app) in
  devices (deviceService saved) = devices w /\
  addByIpError saved = "" /\
  isDeviceModalOpen saved = false.
Proof.
  intros H w app saved.
  assert (Hp : valid_payload (form_payload H app)).
  { repeat split; try discriminate.
    - apply dotted_quad_by_test. reflexivity.
    - exists 9100%Z. split; [reflexivity | lia]. }
  assert (Hok : registry_ok (devices (deviceService app))).
  { constructor; [|constructor].
    exists "192.168.1.150". repeat split. apply dotted_quad_by_test. reflexivity. }
  destruct (edit_form_round_trip H app app (newNetworkDevice Fixtures.office_printer)
              Hp eq_refl eq_refl eq_refl eq_refl eq_refl eq_refl Hok
              (or_introl eq_refl) eq_refl)
    as (_ & Hd & Herr & Hopen & _).
  repeat split; assumption.
Defined.

End FormRoundTripProperty.

(* ------------------------------------------------------------------------- *)
(** * The scan history *)
(* ------------------------------------------------------------------------- *)

Section ScanHistory.
Import Js Model DeviceService Spec AppView.

Lemma is_scan_true (scanId : string) (s : Scan) :
  is_scan scanId s = true <-> id s = scanId.
Proof. unfold is_scan. apply String.eqb_eq. Qed.

Lemma is_empty_trim_cases (s : string) :
  is_empty s = true \/ is_empty s = false.
Proof. destruct (is_empty s); auto. Qed.

(** X19.  [confirmRename] always leaves the rename mode, and changes nothing
    in the history but names: ids, images, dates, the number of scans and
    their order stay.  A new name that is empty or only white space changes
    no scan; otherwise every scan with the id gets the new name with the
    white space around it removed, and the other scans keep theirs. *)
Theorem rename_changes_names_only (H : UsbHost) (v : View H) (scanId : string) :
  let v' := confirmRename H scanId v in
  let newName := trim (renameScanValue v) in
  isRenamingScanId v' = None /\
  map id (scanHistory v') = map id (scanHistory v) /\
  map imageUrl (scanHistory v') = map imageUrl (scanHistory v) /\
  map date (scanHistory v') = map date (scanHistory v) /\
  (newName = "" -> scanHistory v' = scanHistory v) /\
  (newName <> "" ->
   forall n s, nth_error (scanHistory v) n = Some s ->
     nth_error (scanHistory v') n
     = Some (if is_scan scanId s then with_name s newName else s)).
Proof.
  intros v' newName. unfold v', confirmRename, cancelRename. fold newName.
  destruct (is_empty newName) eqn:E.
  - apply is_empty_true in E. repeat split; auto. intros Hne. contradiction.
  - apply is_empty_false in E.
    cbn [isRenamingScanId scanHistory set_isRenamingScanId set_scanHistory].
    repeat split.
    + rewrite map_map. apply map_ext. intros s. destruct (is_scan scanId s); reflexivity.
    + rewrite map_map. apply map_ext. intros s. destruct (is_scan scanId s); reflexivity.
    + rewrite map_map. apply map_ext. intros s. destruct (is_scan scanId s); reflexivity.
    + intros Hempty. contradiction.
    + intros _ n s Hn. rewrite nth_error_map, Hn. reflexivity.
Qed.

Lemma rename_changes_names_only_witness :
  let H := Fixtures.quiet in
  let v := Fixtures.plain_view H (initial H tt) in
  nth_error
    (scanHistory
       (confirmRename H "scan-1700000000000"
          (set_renameScanValue H v "  Invoice March "))) 0
  = Some (with_name Fixtures.invoice_scan "Invoice March") /\
  scanHistory (confirmRename H "scan-1700000000000" (set_renameScanValue H v "   "))
  = scanHistory v.
Proof.
  intros H v. split.
  - destruct (rename_changes_names_only H (set_renameScanValue H v "  Invoice March ")
                "scan-1700000000000") as (_ & _ & _ & _ & _ & Hnth).
    assert (Hne : trim "  Invoice March " <> "") by discriminate.
    exact (Hnth Hne 0 Fixtures.invoice_scan eq_refl).
  - destruct (rename_changes_names_only H (set_renameScanValue H v "   ")
                "scan-1700000000000") as (_ & _ & _ & _ & Hblank & _).
    apply Hblank. reflexivity.
Defined.

Lemma deleteScan_history (H : UsbHost) (v : View H) (scanId : string) :
  scanHistory (deleteScan H scanId v)
  = filter (fun s => negb (is_scan scanId s)) (scanHistory v).
Proof.
  unfold deleteScan. destruct (find _ (scanHistory v)) as [s|];
    [destruct (String.eqb _ _)|]; reflexivity.
Qed.

(** X20.  [deleteScan] removes every scan with the id and keeps the others in
    their order; the preview is cleared when it shows the image of the first
    scan with the id and is left alone otherwise; an id that no scan has
    changes nothing. *)
Theorem delete_scan_removes_id (H : UsbHost) (v : View H) (scanId : string) :
  let v' := deleteScan H scanId v in
  scanHistory v' = filter (fun s => negb (is_scan scanId s)) (scanHistory v) /\
  (forall s, In s (scanHistory v') -> id s <> scanId) /\
  (forall s, In s (scanHistory v) -> id s <> scanId -> In s (scanHistory v')) /\
  (forall s, find (is_scan scanId) (scanHistory v) = Some s ->
     scannedImageUrl v' = if String.eqb (scannedImageUrl v) (imageUrl s)
                          then "" else scannedImageUrl v) /\
  (find (is_scan scanId) (scanHistory v) = None ->
   scanHistory v' = scanHistory v /\ scannedImageUrl v' = scannedImageUrl v).
Proof.
  intros v'. unfold v', deleteScan. repeat split.
  - destruct (find _ (scanHistory v)) as [s|];
      [destruct (String.eqb _ _)|]; reflexivity.
  - intros s Hin.
    assert (Hs : In s (filter (fun s => negb (is_scan scanId s)) (scanHistory v))).
    { destruct (find _ (scanHistory v)) as [s0|];
        [destruct (String.eqb _ _)|]; exact Hin. }
    apply filter_In in Hs as [_ Hn]. apply negb_true_iff in Hn.
    unfold is_scan in Hn. now apply String.eqb_neq in Hn.
  - intros s Hin Hne.
    assert (Hs : In s (filter (fun s => negb (is_scan scanId s)) (scanHistory v))).
    { apply filter_In. split; [assumption|]. apply negb_true_iff.
      unfold is_scan. now apply String.eqb_neq. }
    destruct (find _ (scanHistory v)) as [s0|];
      [destruct (String.eqb _ _)|]; exact Hs.
  - intros s ->. destruct (String.eqb _ _); reflexivity.
  - rewrite H0. cbn [scanHistory set_scanHistory].
    apply filter_keeps_all. intros s Hin.
    pose proof (find_none _ _ H0 s Hin) as Hn. now rewrite Hn.
  - rewrite H0. reflexivity.
Qed.

Lemma delete_scan_removes_id_witness :
  let H := Fixtures.quiet in
  let v := Fixtures.plain_view H (initial H tt) in
  let v' := deleteScan H "scan-1700000000000" v in
  scanHistory v' = [Fixtures.receipt_scan] /\ scannedImageUrl v' = "".
Proof.
  intros H v v'.
  destruct (delete_scan_removes_id H v "scan-1700000000000")
    as (Hh & _ & _ & Hpreview & _).
  split; [exact Hh | exact (Hpreview Fixtures.invoice_scan eq_refl)].
Defined.

(** X21.  [saveToHistory] does nothing without a preview; with one it puts a
    scan with the id scan-<now> first and clears the preview.  Deleting that
    id gives the history back when no scan had it.  Two scans saved in the
    same millisecond get the same id, and deleting it removes both. *)
Theorem save_then_delete_restores (H : UsbHost) (v : View H) (now : N)
  (localeString isoString : string) :
  let scanId := "scan-" ++ string_of_N now in
  let saved := saveToHistory H now localeString isoString v in
  (scannedImageUrl v = "" -> saved = v) /\
  (scannedImageUrl v <> "" ->
   scannedImageUrl saved = "" /\
   (exists s, scanHistory saved = s :: scanHistory v /\ id s = scanId /\
              imageUrl s = scannedImageUrl v /\ date s = isoString) /\
   ((forall s, In s (scanHistory v) -> id s <> scanId) ->
    scanHistory (deleteScan H scanId saved) = scanHistory v /\
    forall (url localeString' isoString' : string), url <> "" ->
      scanHistory
        (deleteScan H scanId
           (saveToHistory H now localeString' isoString'
              (set_scannedImageUrl H saved url)))
      = scanHistory v)).
Proof.
  intros scanId saved. unfold saved, saveToHistory. split.
  - intros ->. reflexivity.
  - intros Hurl. apply is_empty_false in Hurl. rewrite Hurl.
    cbn [scannedImageUrl scanHistory set_scannedImageUrl set_scanHistory].
    split; [reflexivity|]. split; [eexists; repeat split|].
    intros Hfresh.
    assert (Hkeep : filter (fun s => negb (is_scan scanId s)) (scanHistory v)
                    = scanHistory v).
    { apply filter_keeps_all. intros s Hin. apply negb_true_iff.
      unfold is_scan. apply String.eqb_neq. auto. }
    split.
    + rewrite deleteScan_history. cbn [scanHistory set_scannedImageUrl set_scanHistory filter].
      unfold is_scan at 1. cbn [id]. rewrite String.eqb_refl. exact Hkeep.
    + intros url localeString' isoString' Hu. apply is_empty_false in Hu.
      cbn [scannedImageUrl set_scannedImageUrl]. rewrite Hu.
      rewrite deleteScan_history.
      cbn [scanHistory set_scannedImageUrl set_scanHistory filter].
      unfold is_scan at 1. cbn [id]. rewrite String.eqb_refl. cbn [negb].
      unfold is_scan at 1. cbn [id]. rewrite String.eqb_refl. exact Hkeep.
Qed.

Lemma save_then_delete_restores_witness :
  let H := Fixtures.quiet in
  let v := Fixtures.plain_view H (initial H tt) in
  let saved := saveToHistory H 1700000001000 "11/14/2023, 10:13:21 PM"
                 "2023-11-14T22:13:21.000Z" v in
  List.length (scanHistory saved) = 3 /\
  scanHistory (deleteScan H "scan-1700000001000" saved) = scanHistory v.
Proof.
  intros H v saved.
  destruct (save_then_delete_restores H v 1700000001000 "11/14/2023, 10:13:21 PM"
              "2023-11-14T22:13:21.000Z") as [_ Hsave].
  destruct Hsave as (_ & _ & Hdelete); [discriminate|].
  split; [reflexivity|].
  apply Hdelete.
  intros s [<- | [<- | []]]; discriminate.
Defined.

End ScanHistory.

(* ------------------------------------------------------------------------- *)
(** * The table of extracted data: filter, export and extraction *)
(* ------------------------------------------------------------------------- *)

Section DataTable.
Import Js Model DeviceService Spec GeminiService AppView.

Lemma lower_char_idempotent (c : ascii) : lower_char (lower_char c) = lower_char c.
Proof. destruct c as [[] [] [] [] [] [] [] []]; reflexivity. Qed.

Lemma toLowerCase_idempotent (s : string) :
  toLowerCase (toLowerCase s) = toLowerCase s.
Proof.
  induction s as [|c s IH]; [reflexivity|].
  cbn [toLowerCase]. now rewrite lower_char_idempotent, IH.
Qed.

Lemma row_matches_shorter (a b : string) (row : ExtractedDocumentData) :
  row_matches (a ++ b) row = true -> row_matches a row = true.
Proof.
  unfold row_matches. rewrite !existsb_exists.
  intros (kv & Hin & Hinc). exists kv. split; [assumption|].
  now apply includes_shorter with (b := b).
Qed.

(** What follows a quoted field: nothing, or a character that is not a double
    quote. *)
Lemma double_quotes_closed (a b x y : string) :
  match x with String c _ => Ascii.eqb c quote = false | EmptyString => True end ->
  match y with String c _ => Ascii.eqb c quote = false | EmptyString => True end ->
  double_quotes a ++ String quote x = double_quotes b ++ String quote y ->
  a = b /\ x = y.
Proof.
  intros Hx Hy. revert b.
  induction a as [|c a IH]; intros [|e b]; cbn [double_quotes String.append].
  - intros [= ->]. auto.
  - destruct (Ascii.eqb e quote) eqn:Ee; cbn [String.append]; intros E.
    + injection E as E. subst x. rewrite Ascii.eqb_refl in Hx. discriminate.
    + injection E as E _. subst e. rewrite Ascii.eqb_refl in Ee. discriminate.
  - destruct (Ascii.eqb c quote) eqn:Ec; cbn [String.append]; intros E.
    + injection E as E. subst y. rewrite Ascii.eqb_refl in Hy. discriminate.
    + injection E as E _. subst c. rewrite Ascii.eqb_refl in Ec. discriminate.
  - destruct (Ascii.eqb c quote) eqn:Ec, (Ascii.eqb e quote) eqn:Ee;
      cbn [String.append]; intros E.
    + apply Ascii.eqb_eq in Ec, Ee. subst c e. injection E as E.
      destruct (IH b E) as [-> ->]. auto.
    + injection E as E1 E2. subst e. rewrite Ascii.eqb_refl in Ee. discriminate.
    + injection E as E1 E2. subst c. rewrite Ascii.eqb_refl in Ec. discriminate.
    + injection E as -> E. destruct (IH b E) as [-> ->]. auto.
Qed.

Lemma csv_field_then (a b x y : string) :
  match x with String c _ => Ascii.eqb c quote = false | EmptyString => True end ->
  match y with String c _ => Ascii.eqb c quote = false | EmptyString => True end ->
  csv_field a ++ x = csv_field b ++ y -> a = b /\ x = y.
Proof.
  intros Hx Hy. unfold csv_field. cbn [String.append].
  rewrite !append_assoc. cbn [String.append]. intros [= E].
  now apply double_quotes_closed.
Qed.

(** A line of quoted fields gives its fields back. *)
Lemma csv_line_injective (xs : list string) :
  forall ys, List.length xs = List.length ys ->
    join "," (map csv_field xs) = join "," (map csv_field ys) -> xs = ys.
Proof.
  induction xs as [|x xs IH]; intros [|y ys]; try discriminate; [reflexivity|].
  intros [= Hlen]. cbn [map join].
  destruct xs as [|x' xs], ys as [|y' ys]; try discriminate; cbn [map].
  - rewrite <- (append_nil_r (csv_field x)), <- (append_nil_r (csv_field y)).
    intros E. apply csv_field_then in E as [-> _]; [reflexivity | exact I ..].
  - intros E. apply csv_field_then in E as [-> E]; [|reflexivity ..].
    injection E as E. f_equal. apply IH; assumption.
Qed.

Lemma map_eq_pointwise {A B} (f g : A -> B) (l : list A) :
  map f l = map g l -> forall x, In x l -> f x = g x.
Proof.
  induction l as [|a l IH]; cbn [map]; intros E x Hin; [destruct Hin|].
  injection E as E1 E2. destruct Hin as [<- | Hin]; auto.
Qed.

End DataTable.

Section DataTableProperties.
Import Js Model DeviceService Spec GeminiService AppView.

(** X22.  The filter of the table: a filter that is empty or only white
    space shows every row; any filter shows rows of the table only, in their
    order; the letter case of the filter does not matter; and a row that
    matches a text matches every beginning of that text, so typing on never
    brings rows back. *)
Theorem filter_shows_matching_rows (H : UsbHost) (v : View H) :
  (trim (toLowerCase (dataFilter v)) = "" ->
   filteredData H v = structuredData v) /\
  (forall row, In row (filteredData H v) -> In row (structuredData v)) /\
  (forall row, trim (toLowerCase (dataFilter v)) <> "" ->
     (In row (filteredData H v) <->
      In row (structuredData v) /\
      exists key value,
        In (key, value) row /\
        includes (trim (toLowerCase (dataFilter v))) (toLowerCase value) = true)) /\
  (forall v2 : View H,
     structuredData v2 = structuredData v ->
     dataFilter v2 = toLowerCase (dataFilter v) ->
     filteredData H v2 = filteredData H v) /\
  (forall (a b : string) (row : ExtractedDocumentData),
     row_matches (a ++ b) row = true -> row_matches a row = true).
Proof.
  unfold filteredData. split; [|split; [|split; [|split]]].
  - intros ->. reflexivity.
  - intros row. destruct (is_empty _); [auto|]. intros Hin.
    now apply filter_In in Hin.
  - intros row Hne. apply is_empty_false in Hne. rewrite Hne.
    rewrite filter_In. unfold row_matches. rewrite existsb_exists. split.
    + intros (Hin & (kv & Hk & Hinc)). split; [assumption|].
      exists (fst kv), (snd kv). now destruct kv.
    + intros (Hin & (key & value & Hk & Hinc)). split; [assumption|].
      exists (key, value). auto.
  - intros v2 Hdata Hfilter. now rewrite Hdata, Hfilter, toLowerCase_idempotent.
  - apply row_matches_shorter.
Qed.

Lemma filter_shows_matching_rows_witness :
  let H := Fixtures.quiet in
  let v := Fixtures.plain_view H (initial H tt) in
  filteredData H v = [Fixtures.invoice_row; Fixtures.receipt_row] /\
  row_matches "sara" Fixtures.invoice_row = true.
Proof.
  intros H v.
  destruct (filter_shows_matching_rows H v) as (Hblank & _ & _ & _ & Hshort).
  split.
  - apply Hblank. reflexivity.
  - apply (Hshort "sara" " ahmadi"). reflexivity.
Defined.

(** X23.  The exported line of a row gives the values back: the value of a
    field is determined by the field, and two rows with the same line have
    the same value in every column, whatever double quotes and commas the
    values contain.  When the filter leaves no row, nothing is exported and
    the alert "No data to export." is shown. *)
Theorem csv_line_determines_values (H : UsbHost)
  (headers : list (string * string)) (v : View H) :
  (forall a b : string, csv_field a = csv_field b -> a = b) /\
  (forall row row' : ExtractedDocumentData,
     csv_row headers row = csv_row headers row' ->
     forall header, In header headers ->
       or_else (get_key (fst header) row) ""
       = or_else (get_key (fst header) row') "") /\
  (filteredData H v = [] ->
   snd (exportToCsv H headers v) = None /\
   alerts (fst (exportToCsv H headers v))
   = (alerts v ++ ["No data to export."])%list) /\
  (filteredData H v <> [] ->
   fst (exportToCsv H headers v) = v /\
   snd (exportToCsv H headers v)
   = Some {| bom := true; content := csvContent headers (filteredData H v);
             download := "extracted_data.csv" |}).
Proof.
  split; [|split; [|split]].
  - intros a b E.
    rewrite <- (append_nil_r (csv_field a)), <- (append_nil_r (csv_field b)) in E.
    now apply csv_field_then in E as [-> _].
  - intros row row' E header Hin. unfold csv_row in E.
    rewrite <- !(map_map (fun header => or_else (get_key (fst header) _) "")
                         csv_field) in E.
    apply csv_line_injective in E; [|now rewrite !length_map].
    now apply (map_eq_pointwise _ _ _ E).
  - intros Hempty. unfold exportToCsv. rewrite Hempty. split; reflexivity.
  - intros Hrows. unfold exportToCsv.
    destruct (filteredData H v); [contradiction | split; reflexivity].
Qed.

Lemma csv_line_determines_values_witness :
  let H := Fixtures.quiet in
  let v := set_structuredData H (Fixtures.plain_view H (initial H tt)) [] in
  snd (exportToCsv H Fixtures.two_columns v) = None /\
  alerts (fst (exportToCsv H Fixtures.two_columns v)) = ["No data to export."].
Proof.
  intros H v.
  destruct (csv_line_determines_values H Fixtures.two_columns v)
    as (_ & _ & Hnone & _).
  apply Hnone. reflexivity.
Defined.

End DataTableProperties.

(* ------------------------------------------------------------------------- *)
(** * The Gemini service on every path, and the extraction into the table *)
(* ------------------------------------------------------------------------- *)

Section ParsedDocuments.
Import Js GeminiService AppView.

Lemma get_set_same (key value : string) (row : ExtractedDocumentData) :
  get_key key (set_key key value row) = Some value.
Proof.
  unfold get_key. induction row as [|[k v] row IH]; cbn [set_key find fst snd].
  - now rewrite String.eqb_refl.
  - destruct (String.eqb k key) eqn:E; cbn [find fst snd].
    + now rewrite String.eqb_refl.
    + rewrite E. exact IH.
Qed.

Lemma get_set_other (key other value : string) (row : ExtractedDocumentData) :
  other <> key -> get_key other (set_key key value row) = get_key other row.
Proof.
  intros Hne. unfold get_key.
  induction row as [|[k v] row IH]; cbn [set_key find fst snd].
  - replace (String.eqb key other) with false; [reflexivity|].
    symmetry. apply String.eqb_neq. congruence.
  - destruct (String.eqb k key) eqn:E; cbn [find fst snd].
    + apply String.eqb_eq in E. subst k.
      replace (String.eqb key other) with false; [reflexivity|].
      symmetry. apply String.eqb_neq. congruence.
    + destruct (String.eqb k other); [reflexivity | exact IH].
Qed.

Lemma in_set_key (key value : string) (row : ExtractedDocumentData) :
  In (key, value) (set_key key value row).
Proof.
  induction row as [|[k v] row IH]; cbn [set_key]; [now left|].
  destruct (String.eqb k key); [now left | now right].
Qed.

Lemma in_set_key_other (key value other x : string) (row : ExtractedDocumentData) :
  other <> key -> In (other, x) row -> In (other, x) (set_key key value row).
Proof.
  intros Hne. induction row as [|[k v] row IH]; cbn [set_key]; [intros []|].
  intros [E | Hin].
  - injection E as -> ->.
    replace (String.eqb other key) with false; [now left|].
    symmetry. now apply String.eqb_neq.
  - destruct (String.eqb k key); [now right | right; auto].
Qed.

End ParsedDocuments.

Section AiProperties.
Import Js Model DeviceService GeminiService AppView.

(** X24.  Troubleshooting and image analysis never reject, with or without
    key and whatever the backend does.  With a key, a backend failure or an
    answer that does not parse gives the one step "Error Fetching Steps"; an
    image that is not a data URL of an image gives the text "Error analyzing
    image: Invalid base64 image string format." without the backend being
    asked, and a backend failure gives its message after "Error analyzing
    image: ". *)
Theorem troubleshooting_and_analysis_never_reject (API_KEY : option string)
  (generateContent : Request -> completion string)
  (parse_steps : string -> completion TroubleshootingResponse)
  (match_data_url : string -> option (string * string))
  (deviceName issue base64Image prompt : string) :
  (exists r, getTroubleshootingSteps API_KEY generateContent parse_steps
               deviceName issue = Returned r) /\
  (exists text, analyzeImage API_KEY generateContent match_data_url
                  base64Image prompt = Returned text) /\
  (no_key API_KEY = false ->
   (forall answer,
      generateContent
        {| model := "gemini-2.5-flash";
           contents := [Text (troubleshooting_prompt deviceName issue)];
           responseSchema := Some StepsSchema |} = answer ->
      (forall text, answer = Returned text ->
                    exists e, parse_steps text = Threw e) ->
      exists detail,
        getTroubleshootingSteps API_KEY generateContent parse_steps
          deviceName issue
        = Returned {| steps := [ {| title := "Error Fetching Steps";
                                     details := [detail] |} ] |}) /\
   (match_data_url base64Image = None ->
    forall backend : Request -> completion string,
      analyzeImage API_KEY backend match_data_url base64Image prompt
      = Returned "Error analyzing image: Invalid base64 image string format.") /\
   (forall mimeType data e,
      match_data_url base64Image = Some (mimeType, data) ->
      generateContent
        {| model := "gemini-2.5-flash";
           contents := [InlineData mimeType data; Text prompt];
           responseSchema := None |} = Threw e ->
      analyzeImage API_KEY generateContent match_data_url base64Image prompt
      = Returned ("Error analyzing image: " ++ e))).
Proof.
  split; [|split].
  - unfold getTroubleshootingSteps. destruct (no_key API_KEY); [eauto|].
    destruct (generateContent _) as [text|e]; [|eauto].
    destruct (parse_steps text); eauto.
  - unfold analyzeImage. destruct (no_key API_KEY); [eauto|].
    destruct (match_data_url base64Image) as [[mimeType data]|]; [|eauto].
    destruct (generateContent _); eauto.
  - intros Hkey. split; [|split].
    + intros answer Hanswer Hbad. unfold getTroubleshootingSteps.
      rewrite Hkey, Hanswer. destruct answer as [text|e]; [|eauto].
      destruct (Hbad text eq_refl) as [e He]. rewrite He. eauto.
    + intros Hnone backend. unfold analyzeImage. now rewrite Hkey, Hnone.
    + intros mimeType data e Hmatch Hfail. unfold analyzeImage.
      now rewrite Hkey, Hmatch, Hfail.
Qed.

Lemma troubleshooting_and_analysis_never_reject_witness :
  analyzeImage (Some "key") Fixtures.offline Fixtures.png_only
    "data:image/png;base64,AAAA" "Extract all text."
  = Returned "Error analyzing image: offline" /\
  analyzeImage (Some "key") Fixtures.answering Fixtures.png_only
    "not an image" "Extract all text."
  = Returned "Error analyzing image: Invalid base64 image string format.".
Proof.
  destruct (troubleshooting_and_analysis_never_reject (Some "key")
              Fixtures.offline (fun _ => Threw "bad json") Fixtures.png_only
              "scanner" "it has a paper jam" "data:image/png;base64,AAAA"
              "Extract all text.") as (_ & _ & Hkey).
  destruct (Hkey eq_refl) as (_ & _ & Hfail).
  destruct (troubleshooting_and_analysis_never_reject (Some "key")
              Fixtures.offline (fun _ => Threw "bad json") Fixtures.png_only
              "scanner" "it has a paper jam" "not an image"
              "Extract all text.") as (_ & _ & Hkey').
  destruct (Hkey' eq_refl) as (_ & Hformat & _).
  split.
  - apply (Hfail "image/png" "AAAA" "offline"); reflexivity.
  - apply Hformat. reflexivity.
Defined.

(** X25.  [extractStructuredData] is fulfilled only with what the backend
    answered and the parser read: a key is configured, the image is a data
    URL of an image, the backend answered and the answer parsed.  In every
    other case it is rejected, with one of three messages. *)
Theorem extraction_fulfilled_iff (API_KEY : option string)
  (generateContent : Request -> completion string)
  (parse_document : string -> completion ExtractedDocumentData)
  (match_data_url : string -> option (string * string))
  (base64Image : string) :
  let extracted :=
    extractStructuredData API_KEY generateContent parse_document match_data_url
      base64Image in
  (forall r, extracted = Returned r <->
     no_key API_KEY = false /\
     exists mimeType data text,
       match_data_url base64Image = Some (mimeType, data) /\
       generateContent
         {| model := "gemini-2.5-flash";
            contents := [InlineData mimeType data; Text extraction_prompt];
            responseSchema := Some DocumentSchema |} = Returned text /\
       parse_document text = Returned r) /\
  (forall e, extracted = Threw e ->
     e = "API_KEY environment variable not set. Gemini API will not work." \/
     e = "Invalid base64 image string format." \/
     e = "Failed to extract data from the document. The AI model could not process the request.").
Proof.
  intros extracted. unfold extracted, extractStructuredData. split.
  - intros r. split.
    + destruct (no_key API_KEY); [discriminate|].
      destruct (match_data_url base64Image) as [[mimeType data]|]; [|discriminate].
      destruct (generateContent _) as [text|e] eqn:Eg; [|discriminate].
      destruct (parse_document text) as [r'|e] eqn:Ep; [|discriminate].
      intros [= ->]. split; [reflexivity|]. exists mimeType, data, text. auto.
    + intros (Hkey & mimeType & data & text & Hm & Hg & Hp).
      now rewrite Hkey, Hm, Hg, Hp.
  - intros e. destruct (no_key API_KEY); [intros [= <-]; auto|].
    destruct (match_data_url base64Image) as [[mimeType data]|];
      [|intros [= <-]; auto].
    destruct (generateContent _) as [text|e']; [|intros [= <-]; auto].
    destruct (parse_document text); [discriminate | intros [= <-]; auto].
Qed.

Lemma extraction_fulfilled_iff_witness :
  extractStructuredData (Some "key") Fixtures.answering Fixtures.parse_one_field
    Fixtures.png_only "data:image/png;base64,AAAA"
  = Returned [("subscriberName", "{}")] /\
  (forall r,
     extractStructuredData None Fixtures.answering Fixtures.parse_one_field
       Fixtures.png_only "data:image/png;base64,AAAA" <> Returned r).
Proof.
  split.
  - apply (extraction_fulfilled_iff (Some "key") Fixtures.answering
             Fixtures.parse_one_field Fixtures.png_only
             "data:image/png;base64,AAAA").
    split; [reflexivity|]. exists "image/png", "AAAA", "{}". repeat split.
  - intros r E.
    apply (extraction_fulfilled_iff None Fixtures.answering
             Fixtures.parse_one_field Fixtures.png_only
             "data:image/png;base64,AAAA") in E as [Hkey _].
    discriminate Hkey.
Defined.

(** X26.  [extractAndStoreData] without a preview asks for a scan and does
    nothing else.  With a preview it always ends with the busy flag down: a
    rejected extraction, for the lack of a key as for any other cause, stores
    nothing and shows one alert; a fulfilled one puts one row first, which is
    the extracted document with the id data-<now> and the scan date set, and
    shows no alert.  The filter searches the id too, so the text "data-"
    matches every row stored this way. *)
Theorem extraction_stores_one_row_or_none (H : UsbHost)
  (API_KEY : option string)
  (generateContent : Request -> completion string)
  (parse_document : string -> completion ExtractedDocumentData)
  (match_data_url : string -> option (string * string))
  (v : View H) (now : N) (isoString : string) :
  let extracted :=
    extractStructuredData API_KEY generateContent parse_document match_data_url
      (scannedImageUrl v) in
  let v' := extractAndStoreData H API_KEY generateContent parse_document
              match_data_url now isoString v in
  (scannedImageUrl v = "" -> v' = alert H v "Please scan a document first.") /\
  (scannedImageUrl v <> "" ->
   isExtracting v' = false /\
   (forall e, extracted = Threw e ->
      structuredData v' = structuredData v /\
      alerts v'
      = (alerts v ++ ["An error occurred during data extraction. The document might not be in the expected format."])%list) /\
   (no_key API_KEY = true -> structuredData v' = structuredData v) /\
   (forall r, extracted = Returned r ->
      alerts v' = alerts v /\
      exists row,
        structuredData v' = row :: structuredData v /\
        get_key "id" row = Some ("data-" ++ string_of_N now) /\
        get_key "scanDate" row = Some isoString /\
        (forall key, key <> "id" -> key <> "scanDate" ->
           get_key key row = get_key key r) /\
        row_matches "data-" row = true)).
Proof.
  intros extracted v'. unfold v', extractAndStoreData. split.
  - intros ->. reflexivity.
  - intros Hurl. apply is_empty_false in Hurl. rewrite Hurl. fold extracted.
    cbn [scannedImageUrl set_isExtracting].
    split; [|split; [|split]].
    + destruct extracted; reflexivity.
    + intros e ->. split; reflexivity.
    + intros Hkey. unfold extracted, extractStructuredData. rewrite Hkey.
      reflexivity.
    + intros r ->. split; [reflexivity|].
      eexists. split; [reflexivity|]. repeat split.
      * rewrite get_set_other by discriminate. apply get_set_same.
      * apply get_set_same.
      * intros key Hid Hdate. now rewrite !get_set_other by assumption.
      * unfold row_matches. apply existsb_exists.
        exists ("id", "data-" ++ string_of_N now). split.
        -- apply in_set_key_other; [discriminate | apply in_set_key].
        -- cbn [snd]. apply includes_split.
           exists "", (toLowerCase (string_of_N now)). reflexivity.
Qed.

Lemma extraction_stores_one_row_or_none_witness :
  let H := Fixtures.quiet in
  let v := Fixtures.plain_view H (initial H tt) in
  structuredData
    (extractAndStoreData H None Fixtures.answering Fixtures.parse_one_field
       Fixtures.png_only 1700000002000 "2023-11-14T22:13:22.000Z" v)
  = structuredData v /\
  List.length
    (structuredData
       (extractAndStoreData H (Some "key") Fixtures.answering
          Fixtures.parse_one_field Fixtures.png_only 1700000002000
          "2023-11-14T22:13:22.000Z" v)) = 3.
Proof.
  intros H v. split.
  - destruct (extraction_stores_one_row_or_none H None Fixtures.answering
                Fixtures.parse_one_field Fixtures.png_only v 1700000002000
                "2023-11-14T22:13:22.000Z") as [_ Hrun].
    destruct Hrun as (_ & _ & Hkey & _); [discriminate|].
    apply Hkey. reflexivity.
  - destruct (extraction_stores_one_row_or_none H (Some "key") Fixtures.answering
                Fixtures.parse_one_field Fixtures.png_only v 1700000002000
                "2023-11-14T22:13:22.000Z") as [_ Hrun].
    destruct Hrun as (_ & _ & _ & Hstore); [discriminate|].
    destruct (Hstore [("subscriberName", "{}")] eq_refl) as (_ & row & Hrow & _).
    rewrite Hrow. reflexivity.
Defined.

End AiProperties.
